(** * schoolmap: retry wrapper, incremental persistence, batch job, merge
  utility and coordinate loader

  A shallow embedding of the Python sources [example_usage.py],
  [scraper_utils.py], [streamlit_app.py], [main.py] and [scraper.py].

  Conventions of the embedding.
  - A Python [str] is a [string]; its characters are the code points below
    256, for which [str.isspace] and the regex class [\d] are the tables
    given in [Text.is_space] and [Re.digit].
  - A Python [float] is an exact rational [Q]; the literal [0.1] is [1/10].
    Rounding is not modelled.
  - A Python [int] is a [Z].
  - [random.random()] is a stream [nat -> Q] read through a counter.
  - The file system is a finite map from paths to contents, the content
    being the text that [read()] returns. Renaming a file onto an existing
    one replaces it, as on POSIX.
  - [logger] calls are structured records appended to a trace; [print]
    calls (console output only) are left out.
  - [asyncio.gather] returns its results in the order of its tasks; the
    interleaving of the tasks of a batch is not modelled.
  - What the libraries compute is an input of the function that asks for
    it: the pages of the browser, the rows that [csv.DictReader] yields,
    the backup paths that [pathlib] builds and the order in which a [set]
    lists its elements. The text that [csv.DictWriter] writes is not
    modelled.
  - Exceptions are those of class [Exception]. *)

From Stdlib Require Import ZArith QArith Qminmax Qabs Lqa Lia Ascii DecimalString.
From stdpp Require Import gmap strings list sorting.

Local Open Scope Z_scope.

(** ** Text primitives of Python's [str] *)

Module Text.

(** [str.isspace] on the code points below 256. *)
Definition is_space (c : ascii) : bool :=
  let n := nat_of_ascii c in
  ((9 <=? n)%nat && (n <=? 13)%nat) || ((28 <=? n)%nat && (n <=? 32)%nat)
  || (n =? 133)%nat || (n =? 160)%nat.

Definition newline : ascii := ascii_of_nat 10.
Definition dash : ascii := "-"%char.

Definition is_empty (s : string) : bool :=
  match s with "" => true | String _ _ => false end.

Fixpoint lstrip (s : string) : string :=
  match s with
  | "" => ""
  | String c s' => if is_space c then lstrip s' else s
  end.

Fixpoint rstrip (s : string) : string :=
  match s with
  | "" => ""
  | String c s' =>
      let r := rstrip s' in
      if is_space c && is_empty r then "" else String c r
  end.

(** [s.strip()] *)
Definition strip (s : string) : string := rstrip (lstrip s).

(** [s.split(sep)] for a one-character separator: never empty. *)
Fixpoint split (sep : ascii) (s : string) : list string :=
  match s with
  | "" => [""]
  | String c s' =>
      if decide (c = sep) then "" :: split sep s'
      else match split sep s' with
           | h :: t => String c h :: t
           | [] => [String c ""]
           end
  end.

(** [s.split(sep, 1)]: at most one cut, at the first separator. *)
Fixpoint split1 (sep : ascii) (s : string) : list string :=
  match s with
  | "" => [""]
  | String c s' =>
      if decide (c = sep) then [""; s']
      else match split1 sep s' with
           | h :: t => String c h :: t
           | [] => [String c ""]
           end
  end.

(** Iterating a text file, and [readlines()]: the lines with their
    terminating newline kept; the last line may lack it. *)
Fixpoint readlines (s : string) : list string :=
  match s with
  | "" => []
  | String c s' =>
      if decide (c = newline) then String c "" :: readlines s'
      else match readlines s' with
           | h :: t => String c h :: t
           | [] => [String c ""]
           end
  end.

(** [x in s] for a character. *)
Fixpoint contains (c : ascii) (s : string) : bool :=
  match s with
  | "" => false
  | String d s' => if decide (d = c) then true else contains c s'
  end.

Fixpoint all (p : ascii -> bool) (s : string) : bool :=
  match s with
  | "" => true
  | String c s' => p c && all p s'
  end.

(** The first character satisfies [p] (false on the empty string). *)
Definition starts_with (p : ascii -> bool) (s : string) : bool :=
  match s with "" => false | String c _ => p c end.

(** [x or default] and the rendering of an [Optional[str]] in an f-string. *)
Definition or_default (x : option string) (d : string) : string :=
  match x with
  | Some s => if is_empty s then d else s
  | None => d
  end.

Definition fmt (x : option string) : string :=
  match x with Some s => s | None => "None" end.

End Text.

(** ** The fragment of Python's [re] used by the repository

  Patterns are sequences of one-character classes, each taken once,
  optionally ([?]), zero or more times ([*]) or one or more times ([+]),
  with capture-group brackets.  Quantifiers are greedy and backtrack. *)

Module Re.

Inductive item : Type :=
| Chr (p : ascii -> bool)
| Opt (p : ascii -> bool)
| Star (p : ascii -> bool)
| Plus (p : ascii -> bool)
| GOpen (g : nat)
| GClose (g : nat).

Definition pattern := list item.

(** Result of a match: the text consumed by each item, in order, and the
    unconsumed remainder. *)
Definition result : Type := list string * string.

Definition seg (t : string) (r : option result) : option result :=
  match r with
  | Some (segs, rest) => Some (t :: segs, rest)
  | None => None
  end.

(** Greedy repetition of a class before the continuation [k]: the longest
    run first, then shorter ones. *)
Fixpoint star (p : ascii -> bool) (k : string -> option result)
    (s : string) : option (string * result) :=
  match s with
  | String c s' =>
      if p c then
        match star p k s' with
        | Some (t, r) => Some (String c t, r)
        | None => match k s with Some r => Some ("", r) | None => None end
        end
      else match k s with Some r => Some ("", r) | None => None end
  | "" => match k "" with Some r => Some ("", r) | None => None end
  end.

Definition seg_star (x : option (string * result)) : option result :=
  match x with
  | Some (t, (segs, rest)) => Some (t :: segs, rest)
  | None => None
  end.

Definition seg_plus (c : ascii) (x : option (string * result))
    : option result :=
  match x with
  | Some (t, (segs, rest)) => Some (String c t :: segs, rest)
  | None => None
  end.

(** Match [pat] at the start of [s]. *)
Fixpoint run (pat : pattern) (s : string) : option result :=
  match pat with
  | [] => Some ([], s)
  | Chr p :: pat' =>
      match s with
      | String c s' => if p c then seg (String c "") (run pat' s') else None
      | "" => None
      end
  | Opt p :: pat' =>
      match s with
      | String c s' =>
          if p c then
            match run pat' s' with
            | Some r => seg (String c "") (Some r)
            | None => seg "" (run pat' s)
            end
          else seg "" (run pat' s)
      | "" => seg "" (run pat' "")
      end
  | Star p :: pat' => seg_star (star p (run pat') s)
  | Plus p :: pat' =>
      match s with
      | String c s' => if p c then seg_plus c (star p (run pat') s') else None
      | "" => None
      end
  | GOpen _ :: pat' => seg "" (run pat' s)
  | GClose _ :: pat' => seg "" (run pat' s)
  end.

(** [re.match(pat, s)] *)
Definition match_ (pat : pattern) (s : string) : option result := run pat s.

(** [re.search(pat, s)]: the leftmost position at which [pat] matches. *)
Fixpoint search (pat : pattern) (s : string) : option result :=
  match run pat s with
  | Some r => Some r
  | None =>
      match s with
      | String _ s' => search pat s'
      | "" => None
      end
  end.

(** Text of group [g]: what the items between its brackets consumed. *)
Fixpoint group_go (g : nat) (inside : bool) (pat : pattern)
    (segs : list string) : string :=
  match pat, segs with
  | GOpen h :: pat', _ :: segs' =>
      group_go g (if (h =? g)%nat then true else inside) pat' segs'
  | GClose h :: pat', _ :: segs' =>
      group_go g (if (h =? g)%nat then false else inside) pat' segs'
  | _ :: pat', t :: segs' =>
      if inside then t +:+ group_go g inside pat' segs'
      else group_go g inside pat' segs'
  | _, _ => ""
  end.

Definition group (pat : pattern) (segs : list string) (g : nat) : string :=
  group_go g false pat segs.

(** Character classes. *)
Definition digit (c : ascii) : bool :=
  let n := nat_of_ascii c in (48 <=? n)%nat && (n <=? 57)%nat.
Definition is_char (d : ascii) (c : ascii) : bool := bool_decide (c = d).
Definition not_char (d : ascii) (c : ascii) : bool := negb (is_char d c).

(** A literal string as a pattern. *)
Fixpoint lit (s : string) : pattern :=
  match s with
  | "" => []
  | String c s' => Chr (is_char c) :: lit s'
  end.

End Re.

(** ** Records of [scraper.py] and [example_usage.py] *)

(** [scraper.SchoolData] *)
Record SchoolData : Type := {
  text : option string;
  href : option string;
  title : option string;
  sd_ct_code : option string;
  success : bool;
  error_message : option string
}.

(** [ScraperConfig], with its defaults below. *)
Record ScraperConfig : Type := {
  max_concurrent_requests : Z;
  batch_delay_min : Q;
  batch_delay_max : Q;
  retry_max_attempts : Z;
  retry_base_delay : Q;
  retry_max_delay : Q;
  request_jitter_min : Q;
  request_jitter_max : Q;
  output_file : string;
  progress_file : string;
  failed_codes_file : string
}.

Definition default_config : ScraperConfig := {|
  max_concurrent_requests := 3;
  batch_delay_min := 1;
  batch_delay_max := 2;
  retry_max_attempts := 3;
  retry_base_delay := 1;
  retry_max_delay := 60;
  request_jitter_min := 1 # 10;
  request_jitter_max := 1 # 2;
  output_file := "ct_codes_coords_googlelinks_federal_primaria.txt";
  progress_file := "scraper_progress_federal_primaria.txt";
  failed_codes_file := "failed_ct_codes_federal_primaria.txt"
|}.

(** [ScrapeResult]; the [timestamp] field, never read, is left out. *)
Record ScrapeResult : Type := {
  school_data : option SchoolData;
  ct_code : string;
  attempts : Z;
  last_error : option string
}.

(** ** Randomness, logging and the trace of effects *)

(** [random.uniform(a, b)] is [a + (b - a) * random.random()]. *)
Definition uniform (a b r : Q) : Q := (a + (b - a) * r)%Q.

Inductive level : Type := INFO | WARNING | ERROR.

(** One constructor per [logger] call site, carrying the values that the
    message interpolates. *)
Inductive log_msg : Type :=
| MsgAttempt (attempt ceiling : Z) (code : string)
| MsgScraped (code : string) (attempt : Z)
| MsgFailedToScrape (code : string) (err : option string)
| MsgTimeout (code : string) (attempt : Z)
| MsgError (code : string) (attempt : Z) (err : string)
| MsgRetrying (code : string) (delay : Q)
| MsgGaveUp (code : string) (ceiling : Z)
| MsgSaved (code : string) (coords : string)
| MsgStarting
| MsgNoCodes
| MsgAllProcessed (out : string)
| MsgProcessing (pending skipped : nat)
| MsgBatch (batch_num total_batches : Z) (size : nat)
| MsgTaskException (err : string)
| MsgWaiting (delay : Q)
| MsgComplete (ok failed : Z)
| MsgInputNotFound
| MsgUnexpected (err : string).

(** Effects of one call of [scrape_with_retry], in program order:
    [asyncio.sleep] before a request (line 82), the request itself
    (line 89), [asyncio.sleep] after a failed attempt (line 115), and
    log records. *)
Inductive event : Type :=
| SleepJitter (d : Q)
| Request (attempt : Z) (code : string)
| SleepBackoff (attempt : Z) (d : Q)
| Log (l : level) (m : log_msg).

(** What [await scraper.scrape_school_data(ct_code)] does inside the [try]:
    returns a record, raises [asyncio.TimeoutError], or raises another
    [Exception]; [msg] is [str(e)]. *)
Inductive outcome : Type :=
| Returned (d : SchoolData)
| RaisedTimeout (msg : string)
| RaisedOther (msg : string).

(** The environment of one call: the outcome of each attempt and the
    stream of [random.random()] values. *)
Record world : Type := {
  fetch : Z -> outcome;
  rnd : nat -> Q
}.

(** [range(lo, hi)] *)
Definition range (lo hi : Z) : list Z :=
  map (fun i => lo + Z.of_nat i) (seq 0 (Z.to_nat (hi - lo))).

(** ** [RateLimitedScraper.scrape_with_retry] *)

Module Retry.

(** The delay of lines 108-111, before jitter. *)
Definition backoff_delay (cfg : ScraperConfig) (attempt : Z) : Q :=
  Qmin (retry_base_delay cfg * inject_Z (2 ^ (attempt - 1)))
       (retry_max_delay cfg).

(** The jitter drawn on line 113 for a delay [d] and a random value [r]. *)
Definition backoff_jitter (d r : Q) : Q := uniform 0 (d * (1 # 10)) r.

(** Lines 107-115: the events after a failed attempt. [k] counts the random
    values already drawn. *)
Definition backoff (cfg : ScraperConfig) (w : world) (code : string)
    (attempt : Z) (k : nat) : list event * nat :=
  if attempt <? retry_max_attempts cfg then
    let delay := backoff_delay cfg attempt in
    let delay := (delay + backoff_jitter delay (rnd w k))%Q in
    ([Log INFO (MsgRetrying code delay); SleepBackoff attempt delay], S k)
  else ([], k).

(** The value stored in [result.last_error] and the record logged for an
    attempt that did not succeed (lines 96-104). *)
Definition recorded_error (o : outcome) : option string :=
  match o with
  | Returned d => error_message d
  | RaisedTimeout msg => Some ("Timeout: " +:+ msg)
  | RaisedOther msg => Some msg
  end.

Definition failure_log (code : string) (attempt : Z) (o : outcome) : event :=
  match o with
  | Returned d => Log WARNING (MsgFailedToScrape code (error_message d))
  | RaisedTimeout _ => Log ERROR (MsgTimeout code attempt)
  | RaisedOther msg => Log ERROR (MsgError code attempt msg)
  end.

Definition succeeded (o : outcome) : bool :=
  match o with
  | Returned d => success d
  | _ => false
  end.

Definition set_attempts (r : ScrapeResult) (a : Z) : ScrapeResult :=
  {| school_data := school_data r; ct_code := ct_code r;
     attempts := a; last_error := last_error r |}.

Definition set_school_data (r : ScrapeResult) (d : SchoolData) : ScrapeResult :=
  {| school_data := Some d; ct_code := ct_code r;
     attempts := attempts r; last_error := last_error r |}.

Definition set_last_error (r : ScrapeResult) (e : option string) : ScrapeResult :=
  {| school_data := school_data r; ct_code := ct_code r;
     attempts := attempts r; last_error := e |}.

(** The [for attempt in range(...)] loop of lines 73-115 followed by lines
    117-118, over the attempt numbers still to run. *)
Fixpoint attempts_loop (cfg : ScraperConfig) (w : world) (code : string)
    (todo : list Z) (result : ScrapeResult) (k : nat)
    : ScrapeResult * list event :=
  match todo with
  | [] => (result, [Log ERROR (MsgGaveUp code (retry_max_attempts cfg))])
  | attempt :: todo' =>
      let result := set_attempts result attempt in
      let jitter :=
        uniform (request_jitter_min cfg) (request_jitter_max cfg) (rnd w k) in
      let before :=
        [SleepJitter jitter;
         Log INFO (MsgAttempt attempt (retry_max_attempts cfg) code);
         Request attempt code] in
      let o := fetch w attempt in
      match o with
      | Returned d =>
          if success d then
            (set_school_data result d,
             before ++ [Log INFO (MsgScraped code attempt)])
          else
            let result := set_last_error result (recorded_error o) in
            let '(slept, k') := backoff cfg w code attempt (S k) in
            let '(final, later) := attempts_loop cfg w code todo' result k' in
            (final, before ++ failure_log code attempt o :: slept ++ later)
      | _ =>
          let result := set_last_error result (recorded_error o) in
          let '(slept, k') := backoff cfg w code attempt (S k) in
          let '(final, later) := attempts_loop cfg w code todo' result k' in
          (final, before ++ failure_log code attempt o :: slept ++ later)
      end
  end.

Definition scrape_with_retry (cfg : ScraperConfig) (w : world)
    (code : string) : ScrapeResult * list event :=
  attempts_loop cfg w code (range 1 (retry_max_attempts cfg + 1))
    {| school_data := None; ct_code := code; attempts := 0;
       last_error := None |} 0.

(** Projections of a trace. *)
Definition requested (tr : list event) : list Z :=
  omap (fun e => match e with Request a _ => Some a | _ => None end) tr.

Definition backoffs (tr : list event) : list (Z * Q) :=
  omap (fun e => match e with SleepBackoff a d => Some (a, d) | _ => None end) tr.

End Retry.

(** ** Files *)

Module Files.

(** The file system: path to content. *)
Abbreviation fs := (gmap string string).

(** [open(path, 'a').write(t)]: creates the file when it does not exist. *)
Definition append_file (path t : string) (files : fs) : fs :=
  <[path := default "" (files !! path) +:+ t]> files.

(** [open(path, 'w').write(t)] *)
Definition write_file (path t : string) (files : fs) : fs :=
  <[path := t]> files.

Definition eol : string := String Text.newline "".

End Files.

(** ** Incremental persistence ([example_usage.py], lines 121-160) *)

Module Persist.

Import Files.

(** The pattern of line 138. The text place/. Group 1: an optional dash,
    one or more digits, a point, one or more digits. Then a comma.
    Group 2: as group 1. *)
Definition coord_pattern : Re.pattern :=
  Re.lit "place/" ++
  [Re.GOpen 1; Re.Opt (Re.is_char "-"); Re.Plus Re.digit;
   Re.Chr (Re.is_char "."); Re.Plus Re.digit; Re.GClose 1;
   Re.Chr (Re.is_char ",");
   Re.GOpen 2; Re.Opt (Re.is_char "-"); Re.Plus Re.digit;
   Re.Chr (Re.is_char "."); Re.Plus Re.digit; Re.GClose 2].

(** [load_progress] *)
Definition load_progress_line (processed : gset string) (line : string)
    : gset string :=
  if Text.is_empty (Text.strip line) then processed
  else
    let ct_code := Text.strip (hd "" (Text.split Text.dash line)) in
    {[ct_code]} ∪ processed.

Definition load_progress (progress_file : string) (files : fs) : gset string :=
  match files !! progress_file with
  | Some content => foldl load_progress_line ∅ (Text.readlines content)
  | None => ∅
  end.

(** The line built on lines 140-142 from the two captured groups. *)
Definition result_line (d : SchoolData) (lat lng link : string) : string :=
  Text.fmt (sd_ct_code d) +:+ "-" +:+ (lat +:+ "," +:+ lng) +:+ "-" +:+ link.

(** [save_result_incrementally]: the returned flag, the files afterwards and
    the record logged. *)
Definition save_result_incrementally (result : ScrapeResult)
    (config : ScraperConfig) (files : fs) : bool * fs * list log_msg :=
  match school_data result with
  | Some d =>
      if success d then
        match href d with
        | Some link =>
            if Text.is_empty link then (false, files, [])
            else
              match Re.search coord_pattern link with
              | Some (segs, _) =>
                  let lat := Re.group coord_pattern segs 1 in
                  let lng := Re.group coord_pattern segs 2 in
                  let line := result_line d lat lng link in
                  let files := append_file (output_file config) (line +:+ eol) files in
                  let files := append_file (progress_file config) (line +:+ eol) files in
                  (true, files, [MsgSaved (ct_code result) (lat +:+ "," +:+ lng)])
              | None => (false, files, [])
              end
        | None => (false, files, [])
        end
      else (false, files, [])
  | None => (false, files, [])
  end.

(** The line written by [save_failed_code]; [stamp] is
    [datetime.now().isoformat()]. *)
Definition failed_line (ct_code error stamp : string) : string :=
  ct_code +:+ "|" +:+ error +:+ "|" +:+ stamp +:+ eol.

Definition save_failed_code (ct_code error : string) (config : ScraperConfig)
    (stamp : string) (files : fs) : fs :=
  append_file (failed_codes_file config) (failed_line ct_code error stamp) files.

End Persist.

(** ** The batch job [read_ct_codes_from_file] *)

Module Job.

Import Files Persist.

(** An element of [asyncio.gather(..., return_exceptions=True)]: the
    exception a task raised, or the [ScrapeResult] it returned. *)
Inductive task_result : Type :=
| TaskRaised (err : string)
| TaskDone (r : ScrapeResult).

(** The environment of a job: the result of the [n]-th task created (for
    the code it was created with), the random stream and the clock. *)
Record job_world : Type := {
  task : nat -> string -> task_result;
  jrnd : nat -> Q;
  now : nat -> string
}.

Inductive job_event : Type :=
| Submit (code : string)
| Gather (batch : list string)
| Pause (d : Q)
| JLog (l : level) (m : log_msg).

Record job_state : Type := {
  files : fs;
  successful_count : Z;
  failed_count : Z;
  total_processed : Z;
  tasks_created : nat;
  draws : nat;
  ticks : nat;
  trace : list job_event
}.

Definition initial (files0 : fs) : job_state :=
  {| files := files0; successful_count := 0; failed_count := 0;
     total_processed := 0; tasks_created := 0; draws := 0; ticks := 0;
     trace := [] |}.

Definition emit (es : list job_event) (st : job_state) : job_state :=
  {| files := files st; successful_count := successful_count st;
     failed_count := failed_count st; total_processed := total_processed st;
     tasks_created := tasks_created st; draws := draws st; ticks := ticks st;
     trace := trace st ++ es |}.

Definition input_file : string := "clave_ct_list_federal_primaria.txt".

(** The body of [for result in batch_results] (lines 236-259). *)
Definition process_result (config : ScraperConfig) (w : job_world)
    (st : job_state) (result : task_result) : job_state :=
  let total := total_processed st + 1 in
  match result with
  | TaskRaised err =>
      {| files := files st; successful_count := successful_count st;
         failed_count := failed_count st + 1; total_processed := total;
         tasks_created := tasks_created st; draws := draws st;
         ticks := ticks st;
         trace := trace st ++ [JLog ERROR (MsgTaskException err)] |}
  | TaskDone r =>
      let '(saved, files', logged) :=
        save_result_incrementally r config (files st) in
      if saved then
        {| files := files'; successful_count := successful_count st + 1;
           failed_count := failed_count st; total_processed := total;
           tasks_created := tasks_created st; draws := draws st;
           ticks := ticks st;
           trace := trace st ++ map (JLog INFO) logged |}
      else
        {| files :=
             save_failed_code (ct_code r)
               (Text.or_default (last_error r) "Unknown error") config
               (now w (ticks st)) files';
           successful_count := successful_count st;
           failed_count := failed_count st + 1; total_processed := total;
           tasks_created := tasks_created st; draws := draws st;
           ticks := S (ticks st);
           trace := trace st |}
  end.

(** Lines 226-233: one task per code of the batch, gathered in order. *)
Definition gather (w : job_world) (first : nat) (batch : list string)
    : list task_result :=
  imap (fun i code => task w (first + i)%nat code) batch.

(** One iteration of the batch loop (lines 221-266). *)
Definition process_batch (config : ScraperConfig) (w : job_world)
    (total_batches : Z) (st : job_state) (numbered : Z * list string)
    : job_state :=
  let '(batch_num, batch) := numbered in
  let st :=
    emit (JLog INFO (MsgBatch batch_num total_batches (length batch))
          :: map Submit batch ++ [Gather batch]) st in
  let batch_results := gather w (tasks_created st) batch in
  let st :=
    {| files := files st; successful_count := successful_count st;
       failed_count := failed_count st; total_processed := total_processed st;
       tasks_created := (tasks_created st + length batch)%nat;
       draws := draws st; ticks := ticks st; trace := trace st |} in
  let st := foldl (process_result config w) st batch_results in
  if batch_num <? total_batches then
    let delay :=
      uniform (batch_delay_min config) (batch_delay_max config)
        (jrnd w (draws st)) in
    {| files := files st; successful_count := successful_count st;
       failed_count := failed_count st; total_processed := total_processed st;
       tasks_created := tasks_created st; draws := S (draws st);
       ticks := ticks st;
       trace := trace st ++ [JLog INFO (MsgWaiting delay); Pause delay] |}
  else st.

(** [range(0, n, step)] for a positive [step]. *)
Definition range_step (n step : nat) : list nat :=
  map (fun k => (k * step)%nat) (seq 0 (Nat.div (n + step - 1) step)).

(** [enumerate(range(0, len(ct_codes), batch_size), 1)] with the slice
    [ct_codes[i:i + batch_size]] of each start. *)
Definition batches (ct_codes : list string) (batch_size : nat)
    : list (Z * list string) :=
  imap (fun k i => (Z.of_nat k + 1, take batch_size (drop i ct_codes)))
    (range_step (length ct_codes) batch_size).

(** [[line.strip() for line in f if line.strip()]] *)
Definition read_codes (content : string) : list string :=
  omap (fun line =>
          let code := Text.strip line in
          if Text.is_empty code then None else Some code)
       (Text.readlines content).

(** The codes still to process (lines 197-198). *)
Definition pending (config : ScraperConfig) (files0 : fs)
    (all_ct_codes : list string) : list string :=
  let processed_codes := load_progress (progress_file config) files0 in
  filter (fun code => code ∉ processed_codes) all_ct_codes.

(** The job for a configuration [config]. A non-positive batch size makes
    line 210 or line 217 raise, which the handler of line 287 logs. *)
Definition run_job (config : ScraperConfig) (w : job_world) (files0 : fs)
    : job_state :=
  let st := emit [JLog INFO MsgStarting] (initial files0) in
  match files0 !! input_file with
  | None => emit [JLog ERROR MsgInputNotFound] st
  | Some content =>
      let all_ct_codes := read_codes content in
      match all_ct_codes with
      | [] => emit [JLog WARNING MsgNoCodes] st
      | _ :: _ =>
          let processed_codes := load_progress (progress_file config) files0 in
          let ct_codes := pending config files0 all_ct_codes in
          match ct_codes with
          | [] => emit [JLog INFO (MsgAllProcessed (output_file config))] st
          | _ :: _ =>
              let st :=
                emit [JLog INFO (MsgProcessing (length ct_codes)
                                   (size processed_codes))] st in
              let batch_size := max_concurrent_requests config in
              if batch_size <? 0 then
                emit [JLog ERROR
                        (MsgUnexpected "Semaphore initial value must be >= 0")] st
              else if batch_size =? 0 then
                emit [JLog ERROR
                        (MsgUnexpected "integer division or modulo by zero")] st
              else
                let total_batches :=
                  (Z.of_nat (length ct_codes) + batch_size - 1) / batch_size in
                let st :=
                  foldl (process_batch config w total_batches) st
                    (batches ct_codes (Z.to_nat batch_size)) in
                emit [JLog INFO (MsgComplete (successful_count st)
                                   (failed_count st))] st
          end
      end
  end.

(** [read_ct_codes_from_file()]: the configuration is [ScraperConfig()]. *)
Definition read_ct_codes_from_file (w : job_world) (files0 : fs) : job_state :=
  run_job default_config w files0.

(** Projections of the trace. *)
Definition submitted (tr : list job_event) : list string :=
  omap (fun e => match e with Submit c => Some c | _ => None end) tr.

Definition gathered (tr : list job_event) : list (list string) :=
  omap (fun e => match e with Gather b => Some b | _ => None end) tr.

(** Batches and pauses only, in order. *)
Inductive step : Type := SBatch (b : list string) | SPause (d : Q).

Definition steps (tr : list job_event) : list step :=
  omap (fun e => match e with
                 | Gather b => Some (SBatch b)
                 | Pause d => Some (SPause d)
                 | _ => None
                 end) tr.

End Job.

(** ** [scraper_utils.merge_results] *)

Module Merge.

Import Files.

(** Lines 106-111, for one line of an input file. *)
Definition merge_line (all_results : gmap string string) (line : string)
    : gmap string string :=
  if Text.is_empty (Text.strip line) then all_results
  else
    match Text.split1 Text.dash line with
    | p0 :: p1 :: _ => <[Text.strip p0 := Text.strip p1]> all_results
    | _ => all_results
    end.

(** Lines 103-111, for one input path. *)
Definition merge_file (files : fs) (all_results : gmap string string)
    (file_path : string) : gmap string string :=
  match files !! file_path with
  | Some content => foldl merge_line all_results (Text.readlines content)
  | None => all_results
  end.

(** The order of [sorted] on [(str, str)] tuples. *)
Definition tuple_le (a b : string * string) : Prop :=
  if String.eqb a.1 b.1 then String.leb a.2 b.2 = true
  else String.leb a.1 b.1 = true.

#[global] Instance tuple_le_dec (a b : string * string) : Decision (tuple_le a b).
Proof. unfold tuple_le. destruct (String.eqb a.1 b.1); apply _. Defined.

Definition output_line (item : string * string) : string :=
  item.1 +:+ "-" +:+ item.2 +:+ eol.

Fixpoint concat_lines (ls : list string) : string :=
  match ls with
  | [] => ""
  | l :: ls' => l +:+ concat_lines ls'
  end.

(** The dictionary built by lines 100-111. *)
Definition collect (result_files : list string) (files : fs)
    : gmap string string :=
  foldl (merge_file files) ∅ result_files.

(** The [(ct_code, rest)] pairs in the order they are written. *)
Definition merged_items (result_files : list string) (files : fs)
    : list (string * string) :=
  merge_sort tuple_le (map_to_list (collect result_files files)).

(** [merge_results] on the paths [result_files]: the returned count and
    the files afterwards. *)
Definition merge_results (result_files : list string) (output_file : string)
    (files : fs) : nat * fs :=
  let all_results := collect result_files files in
  (size all_results,
   write_file output_file
     (concat_lines (map output_line (merged_items result_files files)))
     files).

(** The [(identifier, value)] occurrences that the inputs contribute, in
    file order then line order: what line 111 is reached with. *)
Definition entry_of (line : string) : option (string * string) :=
  if Text.is_empty (Text.strip line) then None
  else
    match Text.split1 Text.dash line with
    | p0 :: p1 :: _ => Some (Text.strip p0, Text.strip p1)
    | _ => None
    end.

Definition occurrences (result_files : list string) (files : fs)
    : list (string * string) :=
  result_files ≫= (fun file_path =>
    match files !! file_path with
    | Some content => omap entry_of (Text.readlines content)
    | None => []
    end).

(** First and last value recorded for an identifier in a list of
    occurrences. *)
Fixpoint first_value (k : string) (l : list (string * string)) : option string :=
  match l with
  | [] => None
  | (k', v) :: l' => if decide (k' = k) then Some v else first_value k l'
  end.

Definition last_value (k : string) (l : list (string * string)) : option string :=
  first_value k (reverse l).

(** The identifier of a written line: its text before the first dash. *)
Definition identifier_of (line : string) : string :=
  hd "" (Text.split1 Text.dash line).

End Merge.

(** ** [streamlit_app.load_coordinates_data] *)

Module Dashboard.

Import Files.

Definition coordinates_file : string :=
  "ct_codes_coords_googlelinks_federal_primaria.txt".

(** The pattern of line 27. Group 1: one or more characters other than a
    dash. Then a dash. Group 2: an optional dash, one or more digits, an
    optional point, zero or more digits. Then a comma. Group 3: as group 2. *)
Definition line_pattern : Re.pattern :=
  [Re.GOpen 1; Re.Plus (Re.not_char "-"); Re.GClose 1;
   Re.Chr (Re.is_char "-");
   Re.GOpen 2; Re.Opt (Re.is_char "-"); Re.Plus Re.digit;
   Re.Opt (Re.is_char "."); Re.Star Re.digit; Re.GClose 2;
   Re.Chr (Re.is_char ",");
   Re.GOpen 3; Re.Opt (Re.is_char "-"); Re.Plus Re.digit;
   Re.Opt (Re.is_char "."); Re.Star Re.digit; Re.GClose 3].

Definition digit_value (c : ascii) : Z := Z.of_nat (nat_of_ascii c) - 48.

Fixpoint digits_value (acc : Z) (s : string) : Z :=
  match s with
  | "" => acc
  | String c s' => digits_value (acc * 10 + digit_value c) s'
  end.

Definition unsigned_value (body : string) : option Q :=
  match Text.split1 "."%char body with
  | [ip] =>
      if Text.all Re.digit ip && negb (Text.is_empty ip)
      then Some (inject_Z (digits_value 0 ip)) else None
  | [ip; fp] =>
      if Text.all Re.digit ip && negb (Text.is_empty ip) && Text.all Re.digit fp
      then Some (Qmake (digits_value 0 (ip +:+ fp))
                       (Z.to_pos (10 ^ Z.of_nat (String.length fp))))
      else None
  | _ => None
  end.

(** [float(s)] on the decimal texts that the pattern captures: an optional
    sign, digits, optionally a point and further digits. Any other text is
    treated as raising [ValueError]. *)
Definition float_ (s : string) : option Q :=
  match s with
  | String c body =>
      if bool_decide (c = "-"%char) then Qopp <$> unsigned_value body
      else unsigned_value s
  | "" => None
  end.

Record row : Type := {
  school_code : string;
  latitude : Q;
  longitude : Q
}.

Inductive parsed : Type :=
| Skipped
| Parsed (r : row)
| ValueError.

(** Lines 24-36 for one line of the file. *)
Definition parse_line (line : string) : parsed :=
  let line := Text.strip line in
  if Text.is_empty line then Skipped
  else
    match Re.match_ line_pattern line with
    | Some (segs, _) =>
        match float_ (Re.group line_pattern segs 2),
              float_ (Re.group line_pattern segs 3) with
        | Some la, Some lo =>
            Parsed {| school_code := Re.group line_pattern segs 1;
                      latitude := la; longitude := lo |}
        | _, _ => ValueError
        end
    | None => Skipped
    end.

(** The list [data] after the loop, or [None] when [float] raised. *)
Fixpoint parse_lines (lines : list string) : option (list row) :=
  match lines with
  | [] => Some []
  | line :: lines' =>
      match parse_line line with
      | Skipped => parse_lines lines'
      | Parsed r => cons r <$> parse_lines lines'
      | ValueError => None
      end
  end.

(** [df.drop_duplicates(subset=['school_code'], keep='first')] *)
Fixpoint drop_duplicates (seen : gset string) (rows : list row) : list row :=
  match rows with
  | [] => []
  | r :: rows' =>
      if decide (school_code r ∈ seen) then drop_duplicates seen rows'
      else r :: drop_duplicates ({[school_code r]} ∪ seen) rows'
  end.

(** [load_coordinates_data()]: the rows of the returned frame; any
    exception yields the empty frame. *)
Definition load_coordinates_data (files : fs) : list row :=
  match files !! coordinates_file with
  | Some content =>
      match parse_lines (Text.readlines content) with
      | Some data => drop_duplicates ∅ data
      | None => []
      end
  | None => []
  end.

End Dashboard.

(** ** Vocabulary for the statements about the retry loop *)

Module RetrySpec.

Import Retry.

(** The successful record of an outcome, if it is one. *)
Definition data_of (o : outcome) : option SchoolData :=
  match o with
  | Returned d => if success d then Some d else None
  | _ => None
  end.

(** The attempts of [todo] up to and including the first that succeeds. *)
Fixpoint until_success (w : world) (todo : list Z) : list Z :=
  match todo with
  | [] => []
  | a :: todo' =>
      if succeeded (fetch w a) then [a] else a :: until_success w todo'
  end.

(** Among those, the attempts that did not succeed. *)
Definition failed_attempts (w : world) (todo : list Z) : list Z :=
  filter (fun a => succeeded (fetch w a) = false) (until_success w todo).

(** The delay slept after a failed attempt [a] when the jitter draw is [r]. *)
Definition slept_after (cfg : ScraperConfig) (a : Z) (r : Q) : Q :=
  (backoff_delay cfg a + backoff_jitter (backoff_delay cfg a) r)%Q.

(** The claim that slept delays, jitter included, never decrease. *)
Definition jittered_monotone (cfg : ScraperConfig) (w : world)
    (code : string) : Prop :=
  forall i j di dj,
    i < j ->
    (i, di) ∈ backoffs (scrape_with_retry cfg w code).2 ->
    (j, dj) ∈ backoffs (scrape_with_retry cfg w code).2 ->
    (di <= dj)%Q.

End RetrySpec.

(** ** Vocabulary for the statements about the batch job *)

Module JobSpec.

Import Files Persist Job.

(** The codes that a run has to process: those of the input file that the
    progress file does not list. *)
Definition pending_codes (config : ScraperConfig) (files0 : fs) : list string :=
  match files0 !! input_file with
  | Some content => pending config files0 (read_codes content)
  | None => []
  end.

(** Batches separated by pauses, without a pause after the last batch. *)
Fixpoint alternate (bs : list (list string)) (ds : list Q) : list step :=
  match bs with
  | [] => []
  | b :: bs' =>
      SBatch b ::
      match ds with
      | d :: ds' => SPause d :: alternate bs' ds'
      | [] => alternate bs' []
      end
  end.

(** The batches and pauses of the loop over numbered batches, the first
    pause drawing the [k]-th random value. *)
Fixpoint steps_of (config : ScraperConfig) (w : job_world) (total : Z)
    (k : nat) (bs : list (Z * list string)) : list step :=
  match bs with
  | [] => []
  | (num, b) :: bs' =>
      SBatch b ::
      (if num <? total then
         SPause (uniform (batch_delay_min config) (batch_delay_max config)
                   (jrnd w k))
         :: steps_of config w total (S k) bs'
       else steps_of config w total k bs')
  end.


End JobSpec.

(** Number of batches: the length of [range(0, n, b)]. *)
Definition batch_count (n b : nat) : nat := ((n + b - 1) / b)%nat.

(** ** Vocabulary for the statements about [merge_results] *)

Module MergeSpec.

Import Files Merge.

(** The claim that the value written for an identifier is the one of its
    first occurrence. *)
Definition keeps_first (result_files : list string) (files : fs) : Prop :=
  forall k v,
    (k, v) ∈ merged_items result_files files ->
    first_value k (occurrences result_files files) = Some v.

(** The lines written, one per [f.write] call of line 116. *)
Definition written_lines (result_files : list string) (files : fs)
    : list string :=
  map output_line (merged_items result_files files).

(** Assigning the entries of a list to a dictionary, in order. *)
Definition insert_all (acc : gmap string string) (l : list (string * string))
    : gmap string string :=
  foldl (fun m kv => <[kv.1 := kv.2]> m) acc l.

End MergeSpec.

(** ** Vocabulary for the statements about the patterns *)

Module ReSpec.

(** What an item of a pattern may consume. *)
Definition item_ok (i : Re.item) (t : string) : Prop :=
  match i with
  | Re.Chr p => exists c, t = String c "" /\ p c = true
  | Re.Opt p => t = "" \/ exists c, t = String c "" /\ p c = true
  | Re.Star p => Text.all p t = true
  | Re.Plus p => t <> "" /\ Text.all p t = true
  | Re.GOpen _ => t = ""
  | Re.GClose _ => t = ""
  end.

(** A way for a pattern to match: one text per item. *)
Definition matches (pat : Re.pattern) (segs : list string) : Prop :=
  Forall2 item_ok pat segs.

Fixpoint concat_segs (segs : list string) : string :=
  match segs with
  | [] => ""
  | t :: segs' => t +:+ concat_segs segs'
  end.

(** One or more digits. *)
Definition digits (s : string) : Prop := s <> "" /\ Text.all Re.digit s = true.

(** An optional minus sign. *)
Definition sign (s : string) : Prop := s = "" \/ s = "-".

(** A decimal-pointed number: an optional minus sign, digits, a point,
    digits. *)
Definition pointed_number (s : string) : Prop :=
  exists sg ip fp,
    s = sg +:+ ip +:+ "." +:+ fp /\ sign sg /\ digits ip /\ digits fp.

(** A decimal number, optionally negative: an optional minus sign, digits,
    and optionally a point followed by zero or more digits. *)
Definition decimal_number (s : string) : Prop :=
  exists sg ip frac,
    s = sg +:+ ip +:+ frac /\ sign sg /\ digits ip /\
    (frac = "" \/ exists fd, frac = "." +:+ fd /\ Text.all Re.digit fd = true).

(** An identifier: one or more characters, none of them a dash. *)
Definition identifier (s : string) : Prop :=
  s <> "" /\ Text.contains Text.dash s = false.

(** The text [rest] cannot prolong the decimal number [num] before it:
    it does not start with a digit, nor with a point when [num] has none. *)
Definition ends_number (num rest : string) : Prop :=
  Text.starts_with Re.digit rest = false /\
  (Text.contains "."%char num = true \/
   Text.starts_with (Re.is_char ".") rest = false).

End ReSpec.

(** ** Vocabulary for the statements about the coordinate loader *)

Module DashboardSpec.

Import Files Dashboard ReSpec.

(** The records appended to [data] by the loop of lines 23-36. *)
Definition row_of (line : string) : option row :=
  match parse_line line with
  | Parsed r => Some r
  | _ => None
  end.

Definition parsed_rows (content : string) : list row :=
  omap row_of (Text.readlines content).

(** The claim that every line of the form identifier-lat,lng yields a
    record with that identifier and these coordinates in the loaded frame. *)
Definition every_shaped_line_recorded (files : fs) : Prop :=
  forall content line id lat lng la lo,
    files !! coordinates_file = Some content ->
    line ∈ Text.readlines content ->
    Text.strip line = id +:+ "-" +:+ lat +:+ "," +:+ lng ->
    identifier id -> decimal_number lat -> decimal_number lng ->
    float_ lat = Some la -> float_ lng = Some lo ->
    exists r, r ∈ load_coordinates_data files /\
              school_code r = id /\ (latitude r == la)%Q /\ (longitude r == lo)%Q.

End DashboardSpec.

(** ** The utilities of [scraper_utils.py] *)

Module Utils.

Import Files.

Definition pipe : ascii := "|"%char.
Definition comma : ascii := ","%char.

(** The dictionary [stats] of [check_progress]; [A] is the type of the
    value kept under the key unique_codes. *)
Record stats (A : Type) : Type := {
  total_processed : Z;
  unique_codes : A;
  coordinates_found : Z
}.

Arguments total_processed {A} _.
Arguments unique_codes {A} _.
Arguments coordinates_found {A} _.

(** Lines 17-21. *)
Definition empty_stats : stats (gset string) :=
  {| total_processed := 0; unique_codes := ∅; coordinates_found := 0 |}.

(** Lines 29-35, for one line of the progress file. *)
Definition check_progress_line (st : stats (gset string)) (line : string)
    : stats (gset string) :=
  if Text.is_empty (Text.strip line) then st
  else
    match Text.split Text.dash line with
    | p0 :: _ :: _ =>
        {| total_processed := total_processed st + 1;
           unique_codes := {[Text.strip p0]} ∪ unique_codes st;
           coordinates_found := coordinates_found st + 1 |}
    | _ => st
    end.

(** [check_progress]: when the file is missing the dictionary is returned
    with the set still under unique_codes (line 25); otherwise the set is
    replaced by its size (line 37). *)
Definition check_progress (progress_file : string) (files : fs)
    : stats (gset string) + stats nat :=
  match files !! progress_file with
  | None => inl empty_stats
  | Some content =>
      let st := foldl check_progress_line empty_stats (Text.readlines content) in
      inr {| total_processed := total_processed st;
             unique_codes := size (unique_codes st);
             coordinates_found := coordinates_found st |}
  end.

(** Lines 50-56, for one line of the failure log. *)
Definition failed_entry (line : string) : option (string * string * string) :=
  if Text.is_empty (Text.strip line) then None
  else
    match Text.split pipe line with
    | p0 :: p1 :: p2 :: _ => Some (Text.strip p0, Text.strip p1, Text.strip p2)
    | _ => None
    end.

(** [check_failed_codes] *)
Definition check_failed_codes (failed_file : string) (files : fs)
    : list (string * string * string) :=
  match files !! failed_file with
  | Some content => omap failed_entry (Text.readlines content)
  | None => []
  end.

(** [Path.rename] to a target, replacing a file already there as POSIX
    does, and [Path.unlink]; both are called on existing files only. *)
Definition rename (src dst : string) (files : fs) : fs :=
  match files !! src with
  | Some content => <[dst := content]> (delete src files)
  | None => files
  end.

Definition unlink (path : string) (files : fs) : fs := delete path files.

(** Lines 79-90 for one of the files. [backup_path p] stands for the path
    that pathlib computes on lines 82-83 from [p] and the time stamp of
    line 69: the parent of [p] joined with stem, underscore, time stamp and
    suffix. *)
Definition reset_file (backup : bool) (backup_path : string -> string)
    (files : fs) (file_path : string) : fs :=
  match files !! file_path with
  | Some _ =>
      if backup then rename file_path (backup_path file_path) files
      else unlink file_path files
  | None => files
  end.

(** [reset_progress] *)
Definition reset_progress (backup : bool) (backup_path : string -> string)
    (progress_file output_file failed_file log_file : string) (files : fs)
    : fs :=
  foldl (reset_file backup backup_path) files
    [progress_file; output_file; failed_file; log_file].

(** [sep.join(parts)] for a one-character separator. *)
Fixpoint join (sep : ascii) (parts : list string) : string :=
  match parts with
  | [] => ""
  | p :: parts' =>
      match parts' with
      | [] => p
      | _ :: _ => p +:+ String sep (join sep parts')
      end
  end.

(** A dictionary appended to [results] by [extract_coordinates_to_csv]. *)
Record csv_row : Type := {
  csv_ct_code : string;
  csv_latitude : string;
  csv_longitude : string;
  google_maps_url : string
}.

(** Lines 136-150 for one line of the input: nothing appended, a row
    appended, or the unpacking of line 144 raising [ValueError]. *)
Inductive extracted : Type :=
| NoRow
| Row (r : csv_row)
| UnpackError.

Definition extract_line (line : string) : extracted :=
  if Text.is_empty (Text.strip line) then NoRow
  else
    match Text.split Text.dash line with
    | p0 :: p1 :: p2 :: rest =>
        let ct_code := Text.strip p0 in
        let coords := Text.strip p1 in
        let google_link := Text.strip (join Text.dash (p2 :: rest)) in
        if Text.contains comma coords then
          match Text.split comma coords with
          | [lat; lng] =>
              Row {| csv_ct_code := ct_code; csv_latitude := lat;
                     csv_longitude := lng; google_maps_url := google_link |}
          | _ => UnpackError
          end
        else NoRow
    | _ => NoRow
    end.

(** The list [results] after the loop of lines 135-150, or [None] when
    line 144 raised. *)
Fixpoint extract_lines (lines : list string) : option (list csv_row) :=
  match lines with
  | [] => Some []
  | line :: lines' =>
      match extract_line line with
      | NoRow => extract_lines lines'
      | Row r => cons r <$> extract_lines lines'
      | UnpackError => None
      end
  end.

(** What a call of [extract_coordinates_to_csv] does: returns at line 131,
    raises [ValueError], finds nothing to export, or hands the rows to
    [csv.DictWriter] for the output file. The text that the writer produces
    is not modelled. *)
Inductive export : Type :=
| InputMissing
| Raised
| NothingToExport
| Exported (results : list csv_row).

Definition extract_coordinates_to_csv (input_file : string) (files : fs)
    : export :=
  match files !! input_file with
  | None => InputMissing
  | Some content =>
      match extract_lines (Text.readlines content) with
      | None => Raised
      | Some [] => NothingToExport
      | Some (r :: results) => Exported (r :: results)
      end
  end.

End Utils.

(** ** Vocabulary for the statements about lines and files *)

Module TextSpec.

Definition carriage_return : ascii := ascii_of_nat 13.

(** A text without a line break. Carriage returns count as line breaks:
    a text file read back ends a line at each of them. *)
Definition one_line (s : string) : Prop :=
  Text.contains Text.newline s = false /\
  Text.contains carriage_return s = false.

(** A content to which an appended line becomes a line of its own: it is
    empty or ends with a newline. *)
Definition ends_lines (content : string) : Prop :=
  content = "" \/ exists c, content = c +:+ Files.eol.

End TextSpec.

(** ** Vocabulary for the statements about [scraper_utils.py] *)

Module UtilsSpec.

(** A line that [check_progress] counts: not blank and holding a dash. *)
Definition counted (line : string) : bool :=
  negb (Text.is_empty (Text.strip line)) && Text.contains Text.dash line.

(** The stripped text before the first dash of a line. *)
Definition prefix_of (line : string) : string :=
  Text.strip (hd "" (Text.split Text.dash line)).

(** A number as the coordinate pattern captures it, without its sign:
    digits, a point, digits. *)
Definition unsigned_number (s : string) : Prop :=
  exists ip fp, s = ip +:+ "." +:+ fp /\ ReSpec.digits ip /\ ReSpec.digits fp.

(** The characters of an unsigned coordinate, and of a pair of them. *)
Definition plain (c : ascii) : bool := Re.digit c || Re.is_char "." c.
Definition paired (c : ascii) : bool := plain c || Re.is_char "," c.

(** The row that a line adds to the export, if it adds one. *)
Definition exported_row (line : string) : option Utils.csv_row :=
  match Utils.extract_line line with
  | Utils.Row r => Some r
  | _ => None
  end.

End UtilsSpec.

(** ** [retry_failed_codes] ([example_usage.py], lines 293-356) *)

Module RetryFailed.

Import Files Persist Job.

(** The environment of a retry: that of a job, and the order in which
    [list(set(failed_codes))] lists the distinct codes. *)
Record retry_world : Type := {
  job : job_world;
  listed : list string -> list string
}.

(** The trace of a retry: the record logged on line 318, then events as in
    the batch job. *)
Inductive retry_event : Type :=
| Retrying (n : nat)
| Ran (e : job_event).

Record retry_state : Type := {
  files : fs;
  successful_count : Z;
  still_failed_count : Z;
  tasks_created : nat;
  draws : nat;
  ticks : nat;
  trace : list retry_event
}.

(** How a call ends: at line 299, at line 312, with an exception that
    nothing catches, or after the loop. *)
Inductive retry_result : Type :=
| NoFailedFile
| NothingToRetry
| RaisedError (err : string) (st : retry_state)
| Retried (st : retry_state).

(** Lines 302-308: the stripped text before the first pipe of every line
    that is not blank. *)
Definition read_failed (content : string) : list string :=
  omap (fun line =>
          if Text.is_empty (Text.strip line) then None
          else Some (Text.strip (hd "" (Text.split Utils.pipe line))))
       (Text.readlines content).

(** The body of [for result in batch_results] (lines 339-347): a result
    that is not a [ScrapeResult] is passed over. *)
Definition process_result (config : ScraperConfig) (w : retry_world)
    (st : retry_state) (result : task_result) : retry_state :=
  match result with
  | TaskRaised _ => st
  | TaskDone r =>
      let '(saved, files', logged) :=
        save_result_incrementally r config (files st) in
      if saved then
        {| files := files'; successful_count := successful_count st + 1;
           still_failed_count := still_failed_count st;
           tasks_created := tasks_created st; draws := draws st;
           ticks := ticks st;
           trace := trace st ++ map (fun m => Ran (JLog INFO m)) logged |}
      else
        {| files :=
             save_failed_code (ct_code r)
               (Text.or_default (last_error r) "Unknown error") config
               (now (job w) (ticks st)) files';
           successful_count := successful_count st;
           still_failed_count := still_failed_count st + 1;
           tasks_created := tasks_created st; draws := draws st;
           ticks := S (ticks st);
           trace := trace st |}
  end.

(** One iteration of the loop of lines 329-352, for the start index [i]. *)
Definition process_batch (config : ScraperConfig) (w : retry_world)
    (failed_codes : list string) (st : retry_state) (i : nat) : retry_state :=
  let size := Z.to_nat (max_concurrent_requests config) in
  let batch := take size (drop i failed_codes) in
  let batch_results := gather (job w) (tasks_created st) batch in
  let st :=
    {| files := files st; successful_count := successful_count st;
       still_failed_count := still_failed_count st;
       tasks_created := (tasks_created st + length batch)%nat;
       draws := draws st; ticks := ticks st;
       trace := trace st ++ map (fun c => Ran (Submit c)) batch
                ++ [Ran (Gather batch)] |} in
  let st := foldl (process_result config w) st batch_results in
  if (i + size <? length failed_codes)%nat then
    let delay :=
      uniform (batch_delay_min config) (batch_delay_max config)
        (jrnd (job w) (draws st)) in
    {| files := files st; successful_count := successful_count st;
       still_failed_count := still_failed_count st;
       tasks_created := tasks_created st; draws := S (draws st);
       ticks := ticks st; trace := trace st ++ [Ran (Pause delay)] |}
  else st.

(** The retry for a configuration [config]. The failure log is renamed
    before the scraper is built: a negative batch size then makes line 324
    raise, and a batch size of zero makes the [range] of line 329 raise. *)
Definition retry_job (config : ScraperConfig) (w : retry_world) (files0 : fs)
    : retry_result :=
  match files0 !! failed_codes_file config with
  | None => NoFailedFile
  | Some content =>
      match read_failed content with
      | [] => NothingToRetry
      | c :: cs =>
          let failed_codes := listed w (c :: cs) in
          let st :=
            {| files :=
                 Utils.rename (failed_codes_file config)
                   (failed_codes_file config +:+ ".bak") files0;
               successful_count := 0; still_failed_count := 0;
               tasks_created := 0; draws := 0; ticks := 0;
               trace := [Retrying (length failed_codes)] |} in
          let batch_size := max_concurrent_requests config in
          if batch_size <? 0 then
            RaisedError "Semaphore initial value must be >= 0" st
          else if batch_size =? 0 then
            RaisedError "range() arg 3 must not be zero" st
          else
            Retried
              (foldl (process_batch config w failed_codes) st
                 (range_step (length failed_codes) (Z.to_nat batch_size)))
      end
  end.

(** [retry_failed_codes()]: the configuration is [ScraperConfig()]. *)
Definition retry_failed_codes (w : retry_world) (files0 : fs) : retry_result :=
  retry_job default_config w files0.

(** The codes for which a task was created, in order. *)
Definition submitted (tr : list retry_event) : list string :=
  omap (fun e => match e with Ran (Submit c) => Some c | _ => None end) tr.

End RetryFailed.

(** ** Vocabulary for the statements about the retry of failed codes *)

Module RetryFailedSpec.

Import Files Persist Job RetryFailed.

(** [list(set(l))] lists every element of [l] once. *)
Definition lists_distinct (w : retry_world) : Prop :=
  forall l, NoDup (listed w l) /\ (forall x, x ∈ listed w l <-> x ∈ l).

(** Whether [save_result_incrementally] saves a result. *)
Definition saves (config : ScraperConfig) (r : ScrapeResult) : bool :=
  (save_result_incrementally r config ∅).1.1.

(** The results that the retry takes as failed again. *)
Definition failed_again (config : ScraperConfig) (results : list task_result)
    : list ScrapeResult :=
  omap (fun result =>
          match result with
          | TaskDone r => if saves config r then None else Some r
          | TaskRaised _ => None
          end) results.

(** The results that the retry saves. *)
Definition recovered (config : ScraperConfig) (results : list task_result)
    : list ScrapeResult :=
  omap (fun result =>
          match result with
          | TaskDone r => if saves config r then Some r else None
          | TaskRaised _ => None
          end) results.

(** The entries written to the new failure log, the [k]-th with the
    [k]-th time stamp. *)
Definition failure_entries (w : retry_world) (first : nat)
    (rs : list ScrapeResult) : list string :=
  imap (fun k r =>
          failed_line (ct_code r)
            (Text.or_default (last_error r) "Unknown error")
            (now (job w) (first + k)%nat)) rs.

(** A task that returned a result. *)
Definition returned (result : task_result) : bool :=
  match result with TaskDone _ => true | TaskRaised _ => false end.

(** The state [st'] is [st] after the results [rs] have been handled: the
    counters, the time stamps used, the failure log and the files that a
    retry does not write. *)
Definition handled (config : ScraperConfig) (w : retry_world)
    (rs : list task_result) (st st' : retry_state) : Prop :=
  successful_count st'
    = successful_count st + Z.of_nat (length (recovered config rs)) /\
  still_failed_count st'
    = still_failed_count st + Z.of_nat (length (failed_again config rs)) /\
  ticks st' = (ticks st + length (failed_again config rs))%nat /\
  files st' !! failed_codes_file config =
    match failed_again config rs with
    | [] => files st !! failed_codes_file config
    | _ :: _ =>
        Some (default "" (files st !! failed_codes_file config) +:+
              Merge.concat_lines
                (failure_entries w (ticks st) (failed_again config rs)))
    end /\
  (forall path,
     path <> failed_codes_file config -> path <> output_file config ->
     path <> progress_file config ->
     files st' !! path = files st !! path).

End RetryFailedSpec.

(** ** [main.py]: the list of codes taken from the CSV file *)

Module Extract.

Import Files.

(** A row as [csv.DictReader] yields it: the value under each column of
    the header, which is [None] for a column that the line is too short
    for. *)
Definition csv_record : Type := gmap string (option string).

(** Line 10 for one row: [row.get('CLAVE CT', '').strip()], or [None] when
    the value is [None] and [strip] raises [AttributeError]. *)
Definition clave_of (row : csv_record) : option string :=
  match row !! "CLAVE CT" with
  | None => Some (Text.strip "")
  | Some (Some v) => Some (Text.strip v)
  | Some None => None
  end.

(** The list [clave_ct_list] after the loop of lines 9-12. *)
Fixpoint claves (rows : list csv_record) : option (list string) :=
  match rows with
  | [] => Some []
  | row :: rows' =>
      match clave_of row with
      | Some clave_ct =>
          (fun rest => if Text.is_empty clave_ct then rest else clave_ct :: rest)
            <$> claves rows'
      | None => None
      end
  end.

(** How a call of [extract_clave_ct] ends: [open] of line 6 raises, line 10
    raises, or the list is written and returned. *)
Inductive extraction : Type :=
| FileNotFound
| AttributeError
| Extracted (clave_ct_list : list string) (files : fs).

(** [extract_clave_ct]. [rows] is what [csv.DictReader] yields for the file
    at [csv_file_path], [None] when there is no such file. *)
Definition extract_clave_ct (rows : option (list csv_record))
    (output_txt_path : string) (files : fs) : extraction :=
  match rows with
  | None => FileNotFound
  | Some rows =>
      match claves rows with
      | None => AttributeError
      | Some clave_ct_list =>
          Extracted clave_ct_list
            (write_file output_txt_path
               (Merge.concat_lines (map (fun clave => clave +:+ eol) clave_ct_list))
               files)
      end
  end.

Definition output_file : string := "clave_ct_list_federal_primaria.txt".

(** [main()]: both exceptions are caught and only printed. *)
Definition main (rows : option (list csv_record)) (files : fs) : fs :=
  match extract_clave_ct rows output_file files with
  | Extracted _ files' => files'
  | _ => files
  end.

End Extract.

(** ** Vocabulary for the statements about [main.py] *)

Module ExtractSpec.

(** The code that a row contributes: its stripped value under CLAVE CT,
    when there is one and it is not blank. *)
Definition code_of (row : Extract.csv_record) : option string :=
  match row !! "CLAVE CT" with
  | Some (Some v) =>
      if Text.is_empty (Text.strip v) then None else Some (Text.strip v)
  | _ => None
  end.

(** A row that is too short for the column CLAVE CT. *)
Definition short (row : Extract.csv_record) : Prop :=
  row !! "CLAVE CT" = Some None.

End ExtractSpec.

(** ** Vocabulary for the statement about what the job does to the files *)

Module FilesSpec.

Import Files.

(** The files [files'] are the files [files] with text appended to some of
    the paths [written], possibly creating them: every other path is as it
    was, and a content that existed is the beginning of the new one. *)
Definition appended (written : list string) (files files' : fs) : Prop :=
  (forall path, path ∉ written -> files' !! path = files !! path) /\
  (forall path content,
     files !! path = Some content ->
     exists added, files' !! path = Some (content +:+ added)).

End FilesSpec.

(** ** [scraper.SchoolScraper]: one page visit *)

Module Scraper.

(** [str(n)] for an [int]. *)
Definition str_int (n : Z) : string := NilZero.string_of_int (Z.to_int n).

(** An exception of class [Exception], by the handler of lines 201-224
    that catches it: Playwright's [TimeoutError], another Playwright
    [Error], or any other; [msg] is [str(e)]. *)
Inductive exn : Type :=
| TimeoutError (msg : string)
| PlaywrightError (msg : string)
| OtherException (msg : string).

(** What an awaited call does: it returns a value or raises. *)
Inductive awaited (A : Type) : Type :=
| Value (a : A)
| Raise (e : exn).

Arguments Value {A} _.
Arguments Raise {A} _.

(** The browser during one call of [scrape_school_data], one field per
    awaited call in program order; a field is read only when the call gets
    that far. [goto] gives the status of the response, if there is one. *)
Record page_world : Type := {
  create_page : awaited unit;
  goto : awaited (option Z);
  final_url : string;
  wait_for : awaited unit;
  count : awaited Z;
  text_content : awaited (option string);
  get_href : awaited (option string);
  get_title : awaited (option string);
  close : awaited unit
}.

(** One constructor per [logger] call site of the scraper. *)
Inductive scraper_log : Type :=
| LogScraping (ct_code : string)
| LogNavigating (url : string)
| LogError (msg : string)
| LogLoaded (final_url : string)
| LogTargetMissing (ct_code : string)
| LogXpathMissing (xpath : string)
| LogScraped (ct_code : string)
| LogBatchStart (n : nat)
| LogProcessing (i n : nat) (ct_code : string)
| LogBatchDone (succeeded total : nat).

Definition xpath : string := "/html/body/div/div[5]/div[1]/div/a".

(** The record returned for a failure. *)
Definition failure (ct_code error_msg : string) : SchoolData :=
  {| text := None; href := None; title := None; sd_ct_code := Some ct_code;
     success := false; error_message := Some error_msg |}.

(** [text.strip() if text else None] *)
Definition stripped_text (text : option string) : option string :=
  match text with
  | Some t => if Text.is_empty t then None else Some (Text.strip t)
  | None => None
  end.

(** Lines 136-199: the [try] block, with the records it logs; the inner
    handler of line 169 catches [TimeoutError] only. *)
Definition try_block (w : page_world) (ct_code : string)
    : list scraper_log * awaited SchoolData :=
  let url := "https://escuelasmex.com/directorio/" +:+ ct_code in
  match create_page w with
  | Raise e => ([], Raise e)
  | Value _ =>
      let logs := [LogNavigating url] in
      match goto w with
      | Raise e => (logs, Raise e)
      | Value None =>
          let error_msg := "Failed to get response from page" in
          (logs ++ [LogError error_msg], Value (failure ct_code error_msg))
      | Value (Some status) =>
          if 400 <=? status then
            let error_msg :=
              "HTTP error: " +:+ str_int status +:+ " for URL: " +:+ final_url w in
            (logs ++ [LogError error_msg], Value (failure ct_code error_msg))
          else
            let logs := logs ++ [LogLoaded (final_url w)] in
            match wait_for w with
            | Raise (TimeoutError _) =>
                (logs ++ [LogTargetMissing ct_code],
                 Value (failure ct_code "Target element not found"))
            | Raise e => (logs, Raise e)
            | Value _ =>
                match count w with
                | Raise e => (logs, Raise e)
                | Value n =>
                    if n =? 0 then
                      (logs ++ [LogXpathMissing xpath],
                       Value (failure ct_code "Element not found at specified xpath"))
                    else
                      match text_content w with
                      | Raise e => (logs, Raise e)
                      | Value text =>
                          match get_href w with
                          | Raise e => (logs, Raise e)
                          | Value href =>
                              match get_title w with
                              | Raise e => (logs, Raise e)
                              | Value title =>
                                  (logs ++ [LogScraped ct_code],
                                   Value {| text := stripped_text text;
                                            href := href; title := title;
                                            sd_ct_code := Some ct_code;
                                            success := true;
                                            error_message := None |})
                              end
                          end
                      end
                end
            end
      end
  end.

(** The handlers of lines 201-224. *)
Definition handled_message (ct_code : string) (e : exn) : string :=
  match e with
  | TimeoutError msg => "Timeout error for ct_code " +:+ ct_code +:+ ": " +:+ msg
  | PlaywrightError msg =>
      "Playwright error for ct_code " +:+ ct_code +:+ ": " +:+ msg
  | OtherException msg =>
      "Unexpected error for ct_code " +:+ ct_code +:+ ": " +:+ msg
  end.

(** [scrape_school_data]: the records logged, and the record returned or
    the exception raised. The [finally] clause closes the page when one was
    created; an exception raised there replaces the result. *)
Definition scrape_school_data (w : page_world) (ct_code : string)
    : list scraper_log * awaited SchoolData :=
  let '(logs, result) := try_block w ct_code in
  let logs := LogScraping ct_code :: logs in
  let '(logs, result) :=
    match result with
    | Value d => (logs, Value d)
    | Raise e =>
        let error_msg := handled_message ct_code e in
        (logs ++ [LogError error_msg], Value (failure ct_code error_msg))
    end in
  match create_page w with
  | Value _ =>
      match close w with
      | Value _ => (logs, result)
      | Raise e => (logs, Raise e)
      end
  | Raise _ => (logs, result)
  end.

(** An effect of [scrape_multiple_schools]: a log record or the
    [asyncio.sleep(1)] of line 252. *)
Inductive batch_event : Type :=
| Logged (l : scraper_log)
| Slept.

(** The loop of lines 245-252 over the codes still to visit; [i] is the
    number of the next school, [n] the number of schools, [pages i] the
    browser during the visit of school [i]. *)
Fixpoint visit (pages : nat -> page_world) (n i : nat) (ct_codes : list string)
    : list batch_event * awaited (list SchoolData) :=
  match ct_codes with
  | [] => ([], Value [])
  | ct_code :: rest =>
      let '(logs, result) := scrape_school_data (pages i) ct_code in
      let events := Logged (LogProcessing i n ct_code) :: map Logged logs in
      match result with
      | Raise e => (events, Raise e)
      | Value d =>
          let events := if (i <? n)%nat then events ++ [Slept] else events in
          let '(later, results) := visit pages n (S i) rest in
          (events ++ later,
           match results with
           | Value ds => Value (d :: ds)
           | Raise e => Raise e
           end)
      end
  end.

(** [scrape_multiple_schools] *)
Definition scrape_multiple_schools (pages : nat -> page_world)
    (ct_codes : list string) : list batch_event * awaited (list SchoolData) :=
  let n := length ct_codes in
  let '(events, results) := visit pages n 1 ct_codes in
  let events := Logged (LogBatchStart n) :: events in
  match results with
  | Value ds =>
      (events ++
       [Logged (LogBatchDone (length (filter (fun d => success d = true) ds))
                  (length ds))],
       Value ds)
  | Raise e => (events, Raise e)
  end.

End Scraper.
(** ** Vocabulary for the statements about the scraper *)

Module ScraperSpec.

Import Scraper.

(** The record or exception of a visit. *)
Definition outcome_of (w : page_world) (ct_code : string) : awaited SchoolData :=
  (scrape_school_data w ct_code).2.

(** The page showed the link: it was created, the response came with a
    status below 400, the element became visible, was counted at least
    once, and its text and two attributes were read. *)
Definition shows_link (w : page_world) : Prop :=
  exists u status v n t h ti,
    create_page w = Value u /\ goto w = Value (Some status) /\ status < 400 /\
    wait_for w = Value v /\ count w = Value n /\ n <> 0 /\
    text_content w = Value t /\ get_href w = Value h /\ get_title w = Value ti.

Definition is_sleep (e : batch_event) : bool :=
  match e with Slept => true | Logged _ => false end.

(** The number of times a batch slept. *)
Definition sleeps (events : list batch_event) : nat :=
  length (filter is_sleep events).

End ScraperSpec.

(** ** Concrete inputs used in the examples below *)

Module Examples.

(** A configuration whose cap equals its base delay. *)
Definition capped_config : ScraperConfig := {|
  max_concurrent_requests := 3;
  batch_delay_min := 1;
  batch_delay_max := 2;
  retry_max_attempts := 3;
  retry_base_delay := 1;
  retry_max_delay := 1;
  request_jitter_min := 1 # 10;
  request_jitter_max := 1 # 2;
  output_file := "out.txt";
  progress_file := "progress.txt";
  failed_codes_file := "failed.txt"
|}.

(** Every attempt raises; the random stream is 1/2, 1, 1/2, 0, ... so that
    the first backoff draws 1 and the second draws 0. *)
Definition failing_world : world := {|
  fetch := fun _ => RaisedOther "net::ERR_CONNECTION_RESET";
  rnd := fun n => match n with
                  | 0%nat => (1 # 2)%Q
                  | 1%nat => 1%Q
                  | 2%nat => (1 # 2)%Q
                  | _ => 0%Q
                  end
|}.

(** Every attempt raises and every draw is 1/2. *)
Definition steady_failing_world : world := {|
  fetch := fun _ => RaisedOther "net::ERR_CONNECTION_RESET";
  rnd := fun _ => (1 # 2)%Q
|}.

(** A job in which every task raises, and one in which every task returns
    a result without data. *)
Definition raising_job : Job.job_world := {|
  Job.task := fun _ _ => Job.TaskRaised "Target page, context or browser has been closed";
  Job.jrnd := fun _ => (1 # 2)%Q;
  Job.now := fun _ => "2024-05-01T10:00:00.000000"
|}.


(** Five codes to process, one of them already in the progress file. *)
Definition sample_input : string :=
  "09DPR0001A" +:+ Files.eol +:+ "09DPR0002B" +:+ Files.eol +:+
  "09DPR0003C" +:+ Files.eol +:+ "09DPR0004D" +:+ Files.eol +:+
  "09DPR0005E" +:+ Files.eol.

Definition sample_progress : string :=
  "09DPR0002B-19.4326,-99.1332-https://www.google.com/maps/place/19.4326,-99.1332"
  +:+ Files.eol.

Definition sample_files : Files.fs :=
  {[ Job.input_file := sample_input;
     progress_file default_config := sample_progress ]}.

(** Two result files that both hold the identifier 09DPR0001A. *)
Definition old_results : string :=
  "09DPR0001A-19.1000,-99.1000-https://maps.example/place/19.1000,-99.1000"
  +:+ Files.eol.

Definition new_results : string :=
  "09DPR0001A-19.2000,-99.2000-https://maps.example/place/19.2000,-99.2000"
  +:+ Files.eol +:+
  "09DPR0002B-19.3000,-99.3000-https://maps.example/place/19.3000,-99.3000"
  +:+ Files.eol.

Definition result_files : Files.fs :=
  {[ "old.txt" := old_results; "new.txt" := new_results ]}.

(** A successful scrape with a usable link, one without a link, and one
    whose link holds no coordinates. *)
Definition found_data : SchoolData := {|
  text := Some "Ver en Google Maps";
  href := Some "https://www.google.com/maps/place/19.4326,-99.1332/@19.4326,-99.1332,17z";
  title := None;
  sd_ct_code := Some "09DPR0001A";
  success := true;
  error_message := None
|}.

Definition found_result : ScrapeResult := {|
  school_data := Some found_data; ct_code := "09DPR0001A"; attempts := 1;
  last_error := None
|}.


(** A coordinates file in which the identifier 09DPR0001A comes twice. *)
Definition coordinates_twice : Files.fs :=
  {[ Dashboard.coordinates_file :=
       "09DPR0001A-19.4326,-99.1332-https://www.google.com/maps/place/19.4326,-99.1332"
       +:+ Files.eol +:+ "09DPR0001A-20.5,-100.25" +:+ Files.eol ]}.

(** The backup paths that [reset_progress] computes for its four default
    files at the time stamp 20240501_100000. *)
Definition stamped (p : string) : string :=
  if String.eqb p "scraper_progress.txt"
  then "scraper_progress_20240501_100000.txt"
  else if String.eqb p "ct_codes_coords_googlelinks.txt"
  then "ct_codes_coords_googlelinks_20240501_100000.txt"
  else if String.eqb p "failed_ct_codes.txt"
  then "failed_ct_codes_20240501_100000.txt"
  else if String.eqb p "scraper_log.txt"
  then "scraper_log_20240501_100000.txt"
  else p +:+ "_20240501_100000".

(** A failure log with three entries for two codes, and a retry in which
    the first task returns a result without data while every later task
    raises; each code is listed once, at its last place in the log. *)
Definition failed_log : string :=
  "09DPR0003C|Target element not found|2024-05-01T10:00:00.000000" +:+ Files.eol +:+
  "09DPR0004D|Timeout: Timeout 45000ms exceeded.|2024-05-01T10:00:05.000000" +:+ Files.eol +:+
  "09DPR0003C|Target element not found|2024-05-01T11:00:00.000000" +:+ Files.eol.

Definition failed_files : Files.fs :=
  {[ failed_codes_file default_config := failed_log ]}.

Definition retry_sample : RetryFailed.retry_world := {|
  RetryFailed.job := {|
    Job.task := fun n code =>
      match n with
      | O => Job.TaskDone {| school_data := None; ct_code := code; attempts := 3;
                             last_error := Some "Target element not found" |}
      | S _ => Job.TaskRaised "Target page, context or browser has been closed"
      end;
    Job.jrnd := fun _ => (1 # 2)%Q;
    Job.now := fun _ => "2024-05-02T08:00:00.000000"
  |};
  RetryFailed.listed := remove_dups
|}.

(** A retry in which every task raises. *)
Definition retry_raising : RetryFailed.retry_world := {|
  RetryFailed.job := raising_job;
  RetryFailed.listed := remove_dups
|}.

(** Rows of a CSV file: two with a code, one with a blank code and one
    from a file without the column. *)
Definition csv_rows : list Extract.csv_record :=
  [ {[ "CLAVE CT" := Some " 09DPR0001A "; "NOMBRE CT" := Some "BENITO JUAREZ" ]};
    {[ "CLAVE CT" := Some "  "; "NOMBRE CT" := Some "SIN CLAVE" ]};
    {[ "NOMBRE CT" := Some "OTRA" ]};
    {[ "CLAVE CT" := Some "09DPR0002B"; "NOMBRE CT" := Some "NINOS HEROES" ]} ].

End Examples.

(** * Properties *)

#[local] Arguments String.append : simpl nomatch.

(** ** The retry loop *)

Section RetryLoop.

Import Retry RetrySpec.

Variables (cfg : ScraperConfig) (w : world) (code : string).

Let ceiling := retry_max_attempts cfg.

Lemma requested_app (t1 t2 : list event) :
  requested (t1 ++ t2) = requested t1 ++ requested t2.
Proof. apply omap_app. Qed.

Lemma backoffs_app (t1 t2 : list event) :
  backoffs (t1 ++ t2) = backoffs t1 ++ backoffs t2.
Proof. apply omap_app. Qed.

(** One unfolding of the loop, uniform in the kind of failure. *)
Lemma attempts_loop_cons (a : Z) (todo : list Z) (res : ScrapeResult) (k : nat) :
  attempts_loop cfg w code (a :: todo) res k =
  let before :=
    [SleepJitter (uniform (request_jitter_min cfg) (request_jitter_max cfg) (rnd w k));
     Log INFO (MsgAttempt a ceiling code); Request a code] in
  match data_of (fetch w a) with
  | Some d =>
      (set_school_data (set_attempts res a) d,
       before ++ [Log INFO (MsgScraped code a)])
  | None =>
      let res' := set_last_error (set_attempts res a) (recorded_error (fetch w a)) in
      let sl := backoff cfg w code a (S k) in
      let rec := attempts_loop cfg w code todo res' sl.2 in
      (rec.1, before ++ failure_log code a (fetch w a) :: sl.1 ++ rec.2)
  end.
Proof.
  cbn [attempts_loop]. unfold data_of.
  destruct (fetch w a) as [d| |]; [destruct (success d)|..]; try reflexivity;
    destruct (backoff cfg w code a (S k)) as [slept k']; cbn [fst snd];
    destruct (attempts_loop cfg w code todo _ k') as [final later];
    reflexivity.
Qed.

Lemma succeeded_data_of (o : outcome) :
  succeeded o = match data_of o with Some _ => true | None => false end.
Proof. destruct o as [d| |]; cbn; [destruct (success d)|..]; reflexivity. Qed.

Lemma data_of_None (o : outcome) : data_of o = None <-> succeeded o = false.
Proof.
  destruct o as [d| |]; cbn; [destruct (success d)|..]; cbn; split; congruence.
Qed.


Lemma requested_backoff a k : requested (backoff cfg w code a k).1 = [].
Proof. unfold backoff. destruct (a <? retry_max_attempts cfg); reflexivity. Qed.

Lemma backoffs_backoff a k :
  backoffs (backoff cfg w code a k).1 =
  if a <? ceiling then [(a, slept_after cfg a (rnd w k))] else [].
Proof.
  unfold backoff, ceiling. destruct (a <? retry_max_attempts cfg); reflexivity.
Qed.

Lemma requested_step j l m a o sl later :
  requested ([SleepJitter j; Log l m; Request a code]
             ++ failure_log code a o :: sl ++ later)
  = a :: requested sl ++ requested later.
Proof.
  rewrite requested_app. cbn [requested omap app]. f_equal.
  change (omap _ ?t) with (requested t).
  destruct o; cbn [failure_log requested omap]; apply requested_app.
Qed.

Lemma backoffs_step j l m a o sl later :
  backoffs ([SleepJitter j; Log l m; Request a code]
            ++ failure_log code a o :: sl ++ later)
  = backoffs sl ++ backoffs later.
Proof.
  rewrite backoffs_app. cbn [backoffs omap app].
  change (omap _ ?t) with (backoffs t).
  destruct o; cbn [failure_log backoffs omap]; apply backoffs_app.
Qed.

(** The requests made are the attempts up to the first success. *)
Lemma loop_requested (todo : list Z) (res : ScrapeResult) (k : nat) :
  requested (attempts_loop cfg w code todo res k).2 = until_success w todo.
Proof.
  revert res k. induction todo as [|a todo IH]; intros res k; [reflexivity|].
  rewrite attempts_loop_cons. cbn [until_success].
  rewrite succeeded_data_of.
  destruct (data_of (fetch w a)) as [d|] eqn:E; cbn zeta.
  - reflexivity.
  -     cbn [snd]. rewrite requested_step, requested_backoff, IH. reflexivity.
Qed.

(** The backoff sleeps follow the failed attempts below the ceiling. *)
Lemma loop_backoff_attempts (todo : list Z) (res : ScrapeResult) (k : nat) :
  (backoffs (attempts_loop cfg w code todo res k).2).*1 =
  filter (fun a => a < ceiling) (failed_attempts w todo).
Proof.
  revert res k. induction todo as [|a todo IH]; intros res k; [reflexivity|].
  rewrite attempts_loop_cons. unfold failed_attempts. cbn [until_success].
  destruct (data_of (fetch w a)) as [d|] eqn:E; cbn zeta.
  - assert (succeeded (fetch w a) = true) as Hs.
    { rewrite succeeded_data_of, E. reflexivity. }
    rewrite Hs. rewrite filter_cons_False, filter_nil by congruence.
    reflexivity.
  - apply data_of_None in E as E'. rewrite E'.
    rewrite filter_cons_True by done.
    cbn [snd]. rewrite backoffs_step, backoffs_backoff, fmap_app, IH.
    fold (failed_attempts w todo).
    destruct (Z.ltb_spec a ceiling).
    + rewrite filter_cons_True by done. reflexivity.
    + rewrite filter_cons_False by lia. reflexivity.
Qed.

(** Every backoff sleep has the shape of lines 108-113. *)
Lemma loop_backoff_shape (todo : list Z) (res : ScrapeResult) (k : nat) :
  Forall (fun ad => exists n, ad.2 = slept_after cfg ad.1 (rnd w n))
    (backoffs (attempts_loop cfg w code todo res k).2).
Proof.
  revert res k. induction todo as [|a todo IH]; intros res k.
  { cbn. constructor. }
  rewrite attempts_loop_cons.
  destruct (data_of (fetch w a)) as [d|] eqn:E; cbn zeta.
  - cbn. constructor.
  - cbn [snd]. rewrite backoffs_step, backoffs_backoff.
    apply Forall_app. split; [|apply IH].
    destruct (a <? ceiling); constructor; [|constructor].
    cbn. eauto.
Qed.






End RetryLoop.
(** ** Ranges and the attempts tried *)




Lemma elem_of_range (lo hi a : Z) : a ∈ range lo hi <-> lo <= a < hi.
Proof.
  unfold range. rewrite list_elem_of_In, in_map_iff. split.
  - intros (i & <- & Hi). apply in_seq in Hi. lia.
  - intros H. exists (Z.to_nat (a - lo)). split; [lia|]. apply in_seq. lia.
Qed.


Section Attempts.

Import Retry RetrySpec.

Variable w : world.

Let failed (a : Z) : Prop := succeeded (fetch w a) = false.





End Attempts.
(** ** Backoff arithmetic *)

Section Backoff.

Import Retry RetrySpec.

Lemma backoff_jitter_bounds (d r : Q) :
  (0 <= r <= 1 ->
   backoff_jitter d r == r * (d * (1 # 10)) /\
   (0 <= d -> 0 <= backoff_jitter d r <= d * (1 # 10)) /\
   (d <= 0 -> d * (1 # 10) <= backoff_jitter d r <= 0))%Q.
Proof.
  intros [H0 H1]. unfold backoff_jitter, uniform.
  split; [ring|]. split; intros Hd; split; nra.
Qed.

Lemma scaled_mono (b : Q) (i j : Z) :
  (0 <= b)%Q -> 0 <= i <= j -> (b * inject_Z (2 ^ i) <= b * inject_Z (2 ^ j))%Q.
Proof.
  intros Hb Hij.
  assert (H : (inject_Z (2 ^ i) <= inject_Z (2 ^ j))%Q).
  { rewrite <- Zle_Qle. apply Z.pow_le_mono_r; lia. }
  nra.
Qed.

Lemma backoff_delay_mono (cfg : ScraperConfig) (i j : Z) :
  (0 <= retry_base_delay cfg)%Q -> 1 <= i <= j ->
  (backoff_delay cfg i <= backoff_delay cfg j)%Q.
Proof.
  intros Hb Hij. unfold backoff_delay.
  apply Q.min_le_compat_r, scaled_mono; [exact Hb|lia].
Qed.

Lemma double_pow (i : Z) :
  1 <= i -> (inject_Z (2 ^ i) == 2 * inject_Z (2 ^ (i - 1)))%Q.
Proof.
  intros Hi. replace i with (Z.succ (i - 1)) at 1 by lia.
  rewrite Z.pow_succ_r by lia. rewrite inject_Z_mult. reflexivity.
Qed.

Lemma until_success_subset (w : world) (todo : list Z) (a : Z) :
  a ∈ until_success w todo -> a ∈ todo.
Proof.
  induction todo as [|b todo IH]; cbn; [auto|].
  destruct (succeeded (fetch w b)).
  - intros ->%list_elem_of_singleton. left.
  - intros [->|H]%elem_of_cons; [left|right; auto].
Qed.

Variables (cfg : ScraperConfig) (w : world) (code : string).

(** What a backoff sleep recorded in the trace of a call is. *)
Lemma backoff_in_trace (a : Z) (slept : Q) :
  (a, slept) ∈ backoffs (scrape_with_retry cfg w code).2 ->
  1 <= a < retry_max_attempts cfg /\ succeeded (fetch w a) = false /\
  a ∈ requested (scrape_with_retry cfg w code).2 /\
  exists n, slept = slept_after cfg a (rnd w n).
Proof.
  intros Hin. unfold scrape_with_retry in *.
  set (todo := range 1 (retry_max_attempts cfg + 1)) in *.
  set (res0 := {| school_data := None; ct_code := code; attempts := 0; last_error := None |}) in *.
  assert (Ha : a ∈ (backoffs (attempts_loop cfg w code todo res0 0).2).*1).
  { apply list_elem_of_fmap. exists (a, slept). split; [reflexivity|exact Hin]. }
  rewrite loop_backoff_attempts in Ha.
  apply list_elem_of_filter in Ha as [Hlt Hf].
  unfold failed_attempts in Hf. apply list_elem_of_filter in Hf as [Hfail Hu].
  rewrite loop_requested.
  apply until_success_subset in Hu as Hr. apply elem_of_range in Hr.
  split; [lia|]. split; [exact Hfail|]. split; [exact Hu|].
  pose proof (loop_backoff_shape cfg w code todo res0 0) as Hs.
  rewrite Forall_forall in Hs. apply (Hs (a, slept)), Hin.
Qed.

End Backoff.
(** ** Claims about [scrape_with_retry] *)

Section RetryClaims.

Import Retry RetrySpec.

Variables (cfg : ScraperConfig) (w : world) (code : string).

Let run := scrape_with_retry cfg w code.








(** C4, as amended. With a non-negative base delay the delay before jitter
    never decreases from one attempt to a later one; the delay slept, jitter
    included, after attempt [i] is at most the one slept after a later
    attempt [j] as long as twice the delay of [i] still fits under the cap;
    and with a non-negative cap it never exceeds the later one by more than
    a tenth of the un-jittered delay of [i]. *)
Theorem backoff_monotone_up_to_cap :
  (forall n, (0 <= rnd w n <= 1)%Q) ->
  (0 <= retry_base_delay cfg)%Q ->
  (forall i j, 1 <= i <= j -> (backoff_delay cfg i <= backoff_delay cfg j)%Q) /\
  (forall i j di dj,
     i < j -> (i, di) ∈ backoffs run.2 -> (j, dj) ∈ backoffs run.2 ->
     ((retry_base_delay cfg * inject_Z (2 ^ i) <= retry_max_delay cfg)%Q ->
      (di <= dj)%Q) /\
     ((0 <= retry_max_delay cfg)%Q ->
      (di <= dj + backoff_delay cfg i * (1 # 10))%Q)).
Proof.
  intros Hrnd Hbase. split.
  { intros i j Hij. apply backoff_delay_mono; assumption. }
  intros i j di dj Hij Hi Hj.
  apply backoff_in_trace in Hi as (Hi1 & _ & _ & ni & ->).
  apply backoff_in_trace in Hj as (Hj1 & _ & _ & nj & ->).
  unfold slept_after.
  destruct (backoff_jitter_bounds (backoff_delay cfg i) (rnd w ni) (Hrnd ni))
    as (_ & Hpi & _).
  destruct (backoff_jitter_bounds (backoff_delay cfg j) (rnd w nj) (Hrnd nj))
    as (_ & Hpj & _).
  assert (Hmono : (backoff_delay cfg i <= backoff_delay cfg j)%Q)
    by (apply backoff_delay_mono; [assumption|lia]).
  assert (Hscaled : forall a, 1 <= a ->
            (0 <= retry_base_delay cfg * inject_Z (2 ^ (a - 1)))%Q).
  { intros a Ha.
    assert (0 <= inject_Z (2 ^ (a - 1)))%Q.
    { change 0%Q with (inject_Z 0). rewrite <- Zle_Qle. apply Z.pow_nonneg. lia. }
    nra. }
  split.
  - intros Hcap.
    pose proof (double_pow i ltac:(lia)) as Hdbl.
    assert (Hdi : (backoff_delay cfg i
                   == retry_base_delay cfg * inject_Z (2 ^ (i - 1)))%Q).
    { unfold backoff_delay. apply Q.min_l.
      pose proof (Hscaled i ltac:(lia)). rewrite Hdbl in Hcap. nra. }
    assert (Hdj : (retry_base_delay cfg * inject_Z (2 ^ i)
                   <= backoff_delay cfg j)%Q).
    { unfold backoff_delay. apply Q.min_glb; [|exact Hcap].
      apply scaled_mono; [assumption|lia]. }
    pose proof (Hscaled i ltac:(lia)) as Hnn.
    assert (Hi0 : (0 <= backoff_delay cfg i)%Q) by (rewrite Hdi; exact Hnn).
    assert (Hj0 : (0 <= backoff_delay cfg j)%Q) by lra.
    specialize (Hpi Hi0). specialize (Hpj Hj0).
    rewrite Hdbl in Hdj. lra.
  - intros Hmax.
    assert (Hj0 : (0 <= backoff_delay cfg j)%Q).
    { unfold backoff_delay. apply Q.min_glb; [apply Hscaled; lia|exact Hmax]. }
    assert (Hi0 : (0 <= backoff_delay cfg i)%Q).
    { unfold backoff_delay. apply Q.min_glb; [apply Hscaled; lia|exact Hmax]. }
    specialize (Hpi Hi0). specialize (Hpj Hj0). lra.
Qed.


End RetryClaims.

Lemma half_in_unit (n : nat) : (0 <= rnd Examples.steady_failing_world n <= 1)%Q.
Proof. cbn. split; unfold Qle; cbn; lia. Qed.


Lemma backoff_monotone_up_to_cap_witness :
  exists di dj,
    (1, di) ∈ Retry.backoffs
      (Retry.scrape_with_retry default_config Examples.steady_failing_world
         "09DPR0001A").2 /\
    (2, dj) ∈ Retry.backoffs
      (Retry.scrape_with_retry default_config Examples.steady_failing_world
         "09DPR0001A").2 /\
    (di <= dj)%Q.
Proof.
  exists (21 # 20)%Q, (42 # 20)%Q.
  assert (H1 : (1, (21 # 20)%Q) ∈ Retry.backoffs
            (Retry.scrape_with_retry default_config
               Examples.steady_failing_world "09DPR0001A").2)
    by (vm_compute; left).
  assert (H2 : (2, (42 # 20)%Q) ∈ Retry.backoffs
            (Retry.scrape_with_retry default_config
               Examples.steady_failing_world "09DPR0001A").2)
    by (vm_compute; right; left).
  split; [exact H1|]. split; [exact H2|].
  refine (proj1 (proj2 (backoff_monotone_up_to_cap default_config
            Examples.steady_failing_world "09DPR0001A" half_in_unit _)
            1 2 _ _ _ H1 H2) _).
  - cbn. unfold Qle; cbn; lia.
  - lia.
  - cbn. unfold Qle; cbn; lia.
Defined.

(** C4, as stated, fails: with the cap equal to the base delay, a jitter
    draw of 1 after the first attempt and of 0 after the second, the call
    sleeps 11/10 and then 1. *)
Lemma jittered_backoff_not_monotone :
  ~ RetrySpec.jittered_monotone Examples.capped_config Examples.failing_world
      "09DPR0001A".
Proof.
  intros H.
  specialize (H 1 2 (11 # 10)%Q (10 # 10)%Q ltac:(lia)).
  assert (Hle : (11 # 10 <= 10 # 10)%Q).
  { apply H; vm_compute; [left|right; left]. }
  unfold Qle in Hle. cbn in Hle. lia.
Qed.


(** ** Text primitives *)

Section TextFacts.

Import Text.

Lemma app_empty_r (s : string) : s +:+ "" = s.
Proof. induction s as [|c s IH]; [reflexivity|]. cbn. f_equal. exact IH. Qed.

Lemma app_assoc_str (a b c : string) : (a +:+ b) +:+ c = a +:+ (b +:+ c).
Proof. induction a as [|x a IH]; [reflexivity|]. cbn. f_equal. exact IH. Qed.

Lemma is_empty_true (s : string) : is_empty s = true <-> s = "".
Proof. destruct s; cbn; split; congruence. Qed.

Lemma is_empty_false (s : string) : is_empty s = false <-> s <> "".
Proof. destruct s; cbn; split; congruence. Qed.

Lemma all_app (p : ascii -> bool) (a b : string) :
  all p (a +:+ b) = all p a && all p b.
Proof.
  induction a as [|c a IH]; [reflexivity|]. cbn. rewrite IH.
  apply andb_assoc.
Qed.

Lemma lstrip_head (s : string) : starts_with is_space (lstrip s) = false.
Proof.
  induction s as [|c s IH]; [reflexivity|]. cbn.
  destruct (is_space c) eqn:E; [exact IH|]. cbn. exact E.
Qed.

Lemma lstrip_id (s : string) : starts_with is_space s = false -> lstrip s = s.
Proof. destruct s as [|c s]; [reflexivity|]. cbn. intros ->. reflexivity. Qed.

Lemma rstrip_head (s : string) :
  starts_with is_space s = false -> starts_with is_space (rstrip s) = false.
Proof.
  destruct s as [|c s]; [reflexivity|]. cbn. intros E. rewrite E. cbn. exact E.
Qed.

Lemma rstrip_idem (s : string) : rstrip (rstrip s) = rstrip s.
Proof.
  induction s as [|c s IH]; [reflexivity|]. cbn.
  destruct (is_space c && is_empty (rstrip s)) eqn:E; [reflexivity|].
  cbn. rewrite IH, E. reflexivity.
Qed.

Lemma strip_idem (s : string) : strip (strip s) = strip s.
Proof.
  unfold strip. rewrite (lstrip_id (rstrip (lstrip s))).
  - apply rstrip_idem.
  - apply rstrip_head, lstrip_head.
Qed.

Lemma lstrip_all_space (s : string) : all is_space s = true -> lstrip s = "".
Proof.
  induction s as [|c s IH]; [reflexivity|]. cbn.
  intros [-> H]%andb_true_iff. apply IH, H.
Qed.

Lemma rstrip_empty (s : string) : rstrip s = "" -> all is_space s = true.
Proof.
  induction s as [|c s IH]; [reflexivity|]. cbn.
  destruct (is_space c) eqn:E; cbn; [|discriminate].
  destruct (rstrip s) eqn:R; cbn; [|discriminate].
  intros _. apply IH. reflexivity.
Qed.

Lemma lstrip_all_space_inv (s : string) :
  all is_space (lstrip s) = true -> all is_space s = true.
Proof.
  induction s as [|c s IH]; [reflexivity|]. cbn.
  destruct (is_space c) eqn:E; cbn; [exact IH|]. rewrite E. cbn. discriminate.
Qed.

(** A text strips to nothing exactly when it is all white space. *)
Lemma strip_empty (s : string) : strip s = "" <-> all is_space s = true.
Proof.
  unfold strip. split.
  - intros H. apply lstrip_all_space_inv, rstrip_empty, H.
  - intros H. rewrite lstrip_all_space by exact H. reflexivity.
Qed.


Lemma split1_no_sep (sep : ascii) (s : string) :
  contains sep s = false -> split1 sep s = [s].
Proof.
  induction s as [|c s IH]; [reflexivity|]. cbn.
  destruct (decide (c = sep)); [discriminate|]. intros H. rewrite (IH H).
  reflexivity.
Qed.

Lemma split1_sep (sep : ascii) (prefix rest : string) :
  contains sep prefix = false ->
  split1 sep (prefix +:+ String sep rest) = [prefix; rest].
Proof.
  intros Hp. induction prefix as [|c p IH]; cbn.
  - rewrite decide_True by reflexivity. reflexivity.
  - cbn in Hp. destruct (decide (c = sep)); [discriminate|].
    rewrite (IH Hp). reflexivity.
Qed.

(** Every text is cut by [split1] at its first separator or not at all. *)
Lemma split1_cases (sep : ascii) (s : string) :
  (contains sep s = false /\ split1 sep s = [s]) \/
  (exists prefix rest, s = prefix +:+ String sep rest /\
     contains sep prefix = false /\ split1 sep s = [prefix; rest]).
Proof.
  induction s as [|c s IH]; [left; split; reflexivity|]. cbn.
  destruct (decide (c = sep)) as [->|Hne].
  - right. exists "", s. repeat split.
  - destruct IH as [[H ->]|(p & r & -> & Hp & ->)].
    + left. split; [exact H|reflexivity].
    + right. exists (String c p), r. cbn.
      rewrite decide_False by exact Hne. repeat split. exact Hp.
Qed.

End TextFacts.
(** ** The batch job *)

Section JobLoop.

Import Files Persist Job JobSpec.

Variables (config : ScraperConfig) (w : job_world).

Lemma steps_app (t1 t2 : list job_event) : steps (t1 ++ t2) = steps t1 ++ steps t2.
Proof. apply omap_app. Qed.

Lemma submitted_app (t1 t2 : list job_event) :
  submitted (t1 ++ t2) = submitted t1 ++ submitted t2.
Proof. apply omap_app. Qed.

Lemma gathered_app (t1 t2 : list job_event) :
  gathered (t1 ++ t2) = gathered t1 ++ gathered t2.
Proof. apply omap_app. Qed.

Lemma steps_logs (l : level) (ms : list log_msg) : steps (map (JLog l) ms) = [].
Proof. induction ms; [reflexivity|assumption]. Qed.

Lemma submitted_logs (l : level) (ms : list log_msg) : submitted (map (JLog l) ms) = [].
Proof. induction ms; [reflexivity|assumption]. Qed.

Lemma gathered_logs (l : level) (ms : list log_msg) : gathered (map (JLog l) ms) = [].
Proof. induction ms; [reflexivity|assumption]. Qed.

Lemma steps_submits (b : list string) : steps (map Submit b) = [].
Proof. induction b; [reflexivity|assumption]. Qed.

Lemma gathered_submits (b : list string) : gathered (map Submit b) = [].
Proof. induction b; [reflexivity|assumption]. Qed.

Lemma submitted_submits (b : list string) : submitted (map Submit b) = b.
Proof. induction b as [|c b IH]; [reflexivity|]. cbn. f_equal. exact IH. Qed.


(** What handling one result leaves unchanged, and what it counts. *)
Lemma process_result_frame (st : job_state) (r : task_result) :
  let st' := process_result config w st r in
  draws st' = draws st /\ tasks_created st' = tasks_created st /\
  steps (trace st') = steps (trace st) /\
  submitted (trace st') = submitted (trace st) /\
  gathered (trace st') = gathered (trace st) /\
  total_processed st' = total_processed st + 1 /\
  successful_count st' + failed_count st'
  = successful_count st + failed_count st + 1.
Proof.
  unfold process_result. destruct r as [err|r].
  - cbn. rewrite steps_app, submitted_app, gathered_app. cbn.
    rewrite !app_nil_r. repeat split; lia.
  - destruct (save_result_incrementally r config (files st)) as [[saved fs'] logged].
    destruct saved; cbn.
    + rewrite steps_app, submitted_app, gathered_app.
      rewrite steps_logs, submitted_logs, gathered_logs, !app_nil_r.
      repeat split; lia.
    + repeat split; lia.
Qed.

Lemma process_results_frame (rs : list task_result) (st : job_state) :
  let st' := foldl (process_result config w) st rs in
  draws st' = draws st /\ tasks_created st' = tasks_created st /\
  steps (trace st') = steps (trace st) /\
  submitted (trace st') = submitted (trace st) /\
  gathered (trace st') = gathered (trace st) /\
  total_processed st' = total_processed st + Z.of_nat (length rs) /\
  successful_count st' + failed_count st'
  = successful_count st + failed_count st + Z.of_nat (length rs).
Proof.
  revert st. induction rs as [|r rs IH]; intros st; cbn [foldl].
  - cbn. repeat split; lia.
  - destruct (IH (process_result config w st r)) as (A & B & C & D & E & F & G).
    destruct (process_result_frame st r) as (A' & B' & C' & D' & E' & F' & G').
    cbn zeta in *. rewrite A, B, C, D, E, F, G, A', B', C', D', E', F', G'.
    cbn [length]. repeat split; lia.
Qed.

Lemma length_gather (first : nat) (batch : list string) :
  length (gather w first batch) = length batch.
Proof. unfold gather. apply length_imap. Qed.

(** One iteration of the batch loop. *)
Lemma process_batch_frame (total : Z) (st : job_state) (num : Z)
    (batch : list string) :
  let st' := process_batch config w total st (num, batch) in
  steps (trace st') =
    steps (trace st) ++ SBatch batch ::
      (if num <? total then
         [SPause (uniform (batch_delay_min config) (batch_delay_max config)
                    (jrnd w (draws st)))]
       else []) /\
  draws st' = (if num <? total then S (draws st) else draws st) /\
  submitted (trace st') = submitted (trace st) ++ batch /\
  gathered (trace st') = gathered (trace st) ++ [batch] /\
  total_processed st' = total_processed st + Z.of_nat (length batch) /\
  successful_count st' + failed_count st'
  = successful_count st + failed_count st + Z.of_nat (length batch).
Proof.
  unfold process_batch.
  match goal with |- context [foldl _ ?s ?rs] =>
    destruct (process_results_frame rs s) as (A & B & C & D & E & F & G);
    set (st1 := foldl (process_result config w) s rs) in *
  end.
  cbn zeta in *. cbn [draws tasks_created trace total_processed
    successful_count failed_count emit] in *.
  rewrite length_gather in F, G.
  rewrite steps_app, submitted_app, gathered_app in *.
  change (JLog INFO ?m :: ?l) with ([JLog INFO m] ++ l) in *.
  rewrite !steps_app, !submitted_app, !gathered_app in *.
  rewrite steps_submits, submitted_submits, gathered_submits in *.
  cbn [steps submitted gathered omap app] in *.
  destruct (num <? total); cbn [draws trace total_processed successful_count
    failed_count].
  - rewrite steps_app, submitted_app, gathered_app, C, D, E, A.
    cbn [steps submitted gathered omap app]. rewrite <- !app_assoc, !app_nil_r.
    repeat split; try lia; reflexivity.
  - rewrite C, D, E, A. rewrite !app_nil_r. repeat split; try lia; reflexivity.
Qed.

Lemma process_batches_frame (total : Z) (bs : list (Z * list string))
    (st : job_state) :
  let st' := foldl (process_batch config w total) st bs in
  steps (trace st') = steps (trace st) ++ steps_of config w total (draws st) bs /\
  submitted (trace st') = submitted (trace st) ++ concat bs.*2 /\
  gathered (trace st') = gathered (trace st) ++ bs.*2 /\
  total_processed st' = total_processed st + Z.of_nat (length (concat bs.*2)) /\
  successful_count st' + failed_count st'
  = successful_count st + failed_count st + Z.of_nat (length (concat bs.*2)).
Proof.
  revert st. induction bs as [|[num b] bs IH]; intros st; cbn [foldl].
  - cbn. rewrite !app_nil_r. repeat split; lia.
  - destruct (IH (process_batch config w total st (num, b))) as (A & B & C & D & E).
    destruct (process_batch_frame total st num b) as (A' & K' & B' & C' & D' & E').
    cbn zeta in *. rewrite A, B, C, D, E, A', B', C', D', E', K'.
    cbn [steps_of fmap list_fmap snd concat]. rewrite length_app.
    destruct (num <? total); rewrite <- !app_assoc; cbn [app];
      repeat split; try lia; reflexivity.
Qed.

End JobLoop.
(** ** Batching *)

Section Batching.

Import Files Persist Job JobSpec.

Lemma imap_seq_diag {B : Type} (g : nat -> nat -> B) (i n : nat) :
  imap (fun k x => g (i + k)%nat x) (seq i n) = map (fun k => g k k) (seq i n).
Proof.
  revert i g. induction n as [|n IH]; intros i g; [reflexivity|].
  cbn [seq imap map]. f_equal.
  - f_equal. lia.
  - rewrite <- (IH (S i)). apply imap_ext. intros k x _. cbn. f_equal. lia.
Qed.

(** The [k]-th batch is the slice starting at [k * b]. *)
Lemma batches_slices (l : list string) (b : nat) :
  batches l b =
  map (fun k => (Z.of_nat k + 1, take b (drop (k * b) l)))
      (seq 0 (batch_count (length l) b)).
Proof.
  unfold batches, range_step, batch_count. rewrite imap_fmap.
  set (g := fun k x : nat => (Z.of_nat k + 1, take b (drop (x * b) l))).
  change (imap _ ?s) with (imap (fun k x => g (0 + k)%nat x) s).
  rewrite imap_seq_diag. reflexivity.
Qed.

Lemma batch_count_bounds (n b : nat) :
  (0 < b)%nat ->
  (n <= batch_count n b * b)%nat /\
  ((0 < n)%nat -> (0 < batch_count n b)%nat /\ ((batch_count n b - 1) * b < n)%nat).
Proof.
  intros Hb. unfold batch_count.
  pose proof (Nat.div_mod_eq (n + b - 1) b) as E.
  pose proof (Nat.mod_upper_bound (n + b - 1) b ltac:(lia)) as U.
  set (q := ((n + b - 1) / b)%nat) in *. set (r := ((n + b - 1) mod b)%nat) in *.
  split; [nia|]. intros Hn. split; [|nia].
  destruct q; [|lia]. lia.
Qed.

Lemma concat_slices (l : list string) (b n : nat) :
  concat (map (fun k => take b (drop (k * b) l)) (seq 0 n)) = take (n * b) l.
Proof.
  induction n as [|n IH]; [reflexivity|].
  rewrite seq_S, map_app, concat_app, IH. cbn [map concat plus].
  rewrite app_nil_r, take_take_drop. f_equal. lia.
Qed.

Lemma batches_concat (l : list string) (b : nat) :
  (0 < b)%nat -> concat (batches l b).*2 = l.
Proof.
  intros Hb. rewrite batches_slices.
  rewrite <- list_fmap_compose.
  change ((snd ∘ _) <$> ?s) with (map (fun k => take b (drop (k * b) l)) s).
  rewrite concat_slices. apply take_ge.
  apply (batch_count_bounds (length l) b Hb).
Qed.

(** Every batch but the last has [b] codes; the last has between 1 and [b]. *)
Lemma batches_sizes (l : list string) (b i : nat) (c : list string) :
  (0 < b)%nat ->
  (batches l b).*2 !! i = Some c ->
  (0 < length c <= b)%nat /\
  ((S i < length (batches l b).*2)%nat -> length c = b).
Proof.
  intros Hb. rewrite batches_slices, <- list_fmap_compose.
  change ((snd ∘ _) <$> ?s) with (map (fun k => take b (drop (k * b) l)) s).
  rewrite length_map, length_seq.
  intros H. apply list_lookup_fmap_Some in H as (k & -> & Hk).
  apply lookup_seq in Hk as [-> Hi]. cbn [plus] in *.
  rewrite length_take, length_drop.
  destruct (batch_count_bounds (length l) b Hb) as [_ Hpos].
  assert (0 < length l)%nat as Hl.
  { destruct (length l) eqn:E; [|lia].
    unfold batch_count in Hi. cbn [plus] in Hi.
    rewrite Nat.div_small in Hi by lia. lia. }
  destruct (Hpos Hl) as [_ Hlast].
  split; [nia|]. intros Hnext. nia.
Qed.

Lemma total_batches_count (n : nat) (size : Z) :
  0 < size ->
  (Z.of_nat n + size - 1) / size = Z.of_nat (batch_count n (Z.to_nat size)).
Proof.
  intros Hs. unfold batch_count. rewrite Nat2Z.inj_div.
  f_equal; lia.
Qed.

Variables (config : ScraperConfig) (w : job_world).

Let pause (k : nat) : Q :=
  uniform (batch_delay_min config) (batch_delay_max config) (jrnd w k).

(** The loop alternates batches and pauses, ending with a batch. *)
Lemma steps_of_slices (l : list string) (b n j m k : nat) :
  (j + m = n)%nat ->
  steps_of config w (Z.of_nat n) k
    (map (fun i => (Z.of_nat i + 1, take b (drop (i * b) l))) (seq j m))
  = alternate (map (fun i => take b (drop (i * b) l)) (seq j m))
      (map pause (seq k (m - 1))).
Proof.
  revert j k. induction m as [|m IH]; intros j k Hn; [reflexivity|].
  cbn [seq map steps_of alternate]. f_equal.
  destruct (Z.ltb_spec (Z.of_nat j + 1) (Z.of_nat n)) as [Hlt|Hge].
  - destruct m as [|m]; [lia|].
    rewrite (IH (S j) (S k)) by lia.
    replace (S (S m) - 1)%nat with (S m) by lia.
    replace (S m - 1)%nat with m by lia.
    cbn [seq map]. reflexivity.
  - destruct m as [|m]; [reflexivity|lia].
Qed.

End Batching.
(** ** Progress file and pending codes *)

Section Progress.

Import Files Persist Job JobSpec.

Lemma load_progress_lines (lines : list string) (acc : gset string) (code : string) :
  code ∈ foldl load_progress_line acc lines <->
  code ∈ acc \/
  exists line, line ∈ lines /\ Text.is_empty (Text.strip line) = false /\
               code = Text.strip (hd "" (Text.split Text.dash line)).
Proof.
  revert acc. induction lines as [|l lines IH]; intros acc; cbn [foldl].
  - split; [auto|]. intros [H|(line & Hin & _)]; [exact H|]. inversion Hin.
  - rewrite IH. unfold load_progress_line at 1.
    destruct (Text.is_empty (Text.strip l)) eqn:E.
    + split; (intros [H|(line & Hin & Hne & Hc)]; [left; exact H|right]).
      * exists line. split; [right; exact Hin|]. auto.
      * apply elem_of_cons in Hin as [->|Hin]; [congruence|].
        exists line. auto.
    + rewrite elem_of_union, elem_of_singleton. split.
      * intros [[->|H]|(line & Hin & Hne & Hc)].
        -- right. exists l. split; [left|]. auto.
        -- left. exact H.
        -- right. exists line. split; [right; exact Hin|]. auto.
      * intros [H|(line & Hin & Hne & Hc)]; [left; right; exact H|].
        apply elem_of_cons in Hin as [->|Hin]; [left; left; exact Hc|].
        right. exists line. auto.
Qed.

(** The processed set holds the stripped text before the first dash of
    every line of the progress file that is not blank. *)
Lemma elem_of_load_progress (path : string) (files0 : fs) (code : string) :
  code ∈ load_progress path files0 <->
  exists content line,
    files0 !! path = Some content /\ line ∈ Text.readlines content /\
    Text.is_empty (Text.strip line) = false /\
    code = Text.strip (hd "" (Text.split Text.dash line)).
Proof.
  unfold load_progress. destruct (files0 !! path) as [content|].
  - rewrite load_progress_lines. split.
    + intros [H|(line & H)]; [set_solver|]. exists content, line. tauto.
    + intros (c & line & [= <-] & H). right. exists line. exact H.
  - split; [set_solver|]. intros (c & line & H & _). discriminate.
Qed.


Variables (config : ScraperConfig) (w : job_world) (files0 : fs).

Let size := Z.to_nat (max_concurrent_requests config).
Let codes := pending_codes config files0.

Lemma batches_nil (b : nat) : (0 < b)%nat -> batches [] b = [].
Proof.
  intros Hb. rewrite batches_slices. unfold batch_count. cbn [length plus].
  rewrite Nat.div_small by lia. reflexivity.
Qed.

(** The whole job, for a positive batch size. *)
Lemma run_job_frame :
  0 < max_concurrent_requests config ->
  let st := run_job config w files0 in
  submitted (trace st) = codes /\
  gathered (trace st) = (batches codes size).*2 /\
  steps (trace st) =
    steps_of config w (Z.of_nat (batch_count (length codes) size)) 0
      (batches codes size) /\
  total_processed st = Z.of_nat (length codes) /\
  successful_count st + failed_count st = Z.of_nat (length codes).
Proof.
  intros Hsize. unfold run_job, codes, pending_codes.
  assert (Hb : (0 < size)%nat) by (unfold size; lia).
  destruct (files0 !! input_file) as [content|];
    [|rewrite (batches_nil size Hb); cbn; repeat split].
  destruct (read_codes content) as [|c0 all_codes] eqn:Eall;
    [unfold pending; rewrite filter_nil, (batches_nil size Hb); cbn; repeat split|].
  destruct (pending config files0 (c0 :: all_codes)) as [|p0 ps] eqn:Epend;
    [rewrite (batches_nil size Hb); cbn; repeat split|].
  destruct (Z.ltb_spec (max_concurrent_requests config) 0); [lia|].
  destruct (Z.eqb_spec (max_concurrent_requests config) 0); [lia|].
  rewrite total_batches_count by lia. fold size.
  match goal with |- context [foldl _ ?s ?bs] =>
    destruct (process_batches_frame config w
                (Z.of_nat (batch_count (length (p0 :: ps)) size)) bs s)
      as (A & B & C & D & E)
  end.
  cbn zeta in *. cbn [trace emit total_processed successful_count failed_count
    draws initial] in *.
  rewrite !steps_app, !submitted_app, !gathered_app in *.
  cbn [steps submitted gathered omap app] in *.
  rewrite !app_nil_r. rewrite A, B, C, D, E.
  rewrite (batches_concat (p0 :: ps) size Hb).
  repeat split; lia.
Qed.

End Progress.
(** ** Claims about the batch job *)

Section JobClaims.

Import Files Persist Job JobSpec.

Variables (config : ScraperConfig) (w : job_world) (files0 : fs).


(** C9. The pending codes are cut, in order, into consecutive batches of
    [max_concurrent_requests] codes, the last one possibly shorter; the job
    pauses between two consecutive batches and not after the last, each
    pause lying between [batch_delay_min] and [batch_delay_max]. *)
Theorem batches_and_pauses :
  0 < max_concurrent_requests config ->
  (forall n, (0 <= jrnd w n <= 1)%Q) ->
  (batch_delay_min config <= batch_delay_max config)%Q ->
  let size := Z.to_nat (max_concurrent_requests config) in
  let tr := trace (run_job config w files0) in
  concat (gathered tr) = pending_codes config files0 /\
  (forall i b, gathered tr !! i = Some b ->
     (0 < length b <= size)%nat /\
     ((S i < length (gathered tr))%nat -> length b = size)) /\
  exists ds,
    length ds = pred (length (gathered tr)) /\
    steps tr = alternate (gathered tr) ds /\
    Forall (fun d => (batch_delay_min config <= d <= batch_delay_max config)%Q) ds.
Proof.
  intros Hsize Hrnd Hdelay size tr.
  destruct (run_job_frame config w files0 Hsize) as (_ & Hg & Hs & _).
  fold tr size in Hg, Hs.
  assert (Hb : (0 < size)%nat) by (unfold size; lia).
  rewrite Hg. split; [apply batches_concat, Hb|].
  split; [intros i b Hi; apply (batches_sizes _ _ _ _ Hb Hi)|].
  set (codes := pending_codes config files0) in *.
  set (n := batch_count (length codes) size) in *.
  exists (map (fun k => uniform (batch_delay_min config) (batch_delay_max config)
                          (jrnd w k)) (seq 0 (n - 1))).
  rewrite Hs, batches_slices, <- list_fmap_compose.
  change ((snd ∘ _) <$> ?s) with (map (fun k => take size (drop (k * size) codes)) s).
  fold n. rewrite !length_map, !length_seq.
  split; [lia|]. split.
  - apply (steps_of_slices config w codes size n 0 n 0). lia.
  - apply Forall_forall. intros d (k & -> & _)%list_elem_of_fmap.
    unfold uniform. specialize (Hrnd k). split; nra.
Qed.


End JobClaims.


Lemma batches_and_pauses_witness :
  concat (Job.gathered
            (Job.trace (Job.run_job default_config Examples.raising_job
                          Examples.sample_files)))
  = JobSpec.pending_codes default_config Examples.sample_files.
Proof.
  refine (proj1 (batches_and_pauses default_config Examples.raising_job
            Examples.sample_files _ _ _)).
  - cbn. lia.
  - intros n. cbn. split; unfold Qle; cbn; lia.
  - cbn. unfold Qle; cbn; lia.
Defined.



(** The job of the examples: two batches separated by one pause, and no
    failure-log file although all four tasks failed. *)
Example raising_job_run :
  let st := Job.run_job default_config Examples.raising_job Examples.sample_files in
  Job.steps (Job.trace st) =
    [Job.SBatch ["09DPR0001A"; "09DPR0003C"; "09DPR0004D"];
     Job.SPause (3 # 2);
     Job.SBatch ["09DPR0005E"]] /\
  Job.failed_count st = 4 /\
  Job.files st !! failed_codes_file default_config = None.
Proof. vm_compute. repeat split. Qed.

(** ** [merge_results] *)

Section MergeFacts.

Import Files Merge MergeSpec.

Lemma contains_lstrip (c : ascii) (s : string) :
  Text.contains c (Text.lstrip s) = true -> Text.contains c s = true.
Proof.
  induction s as [|x s IH]; [auto|]. cbn.
  destruct (Text.is_space x); [|auto].
  intros H. rewrite (IH H). destruct (decide (x = c)); reflexivity.
Qed.

Lemma contains_rstrip (c : ascii) (s : string) :
  Text.contains c (Text.rstrip s) = true -> Text.contains c s = true.
Proof.
  induction s as [|x s IH]; [auto|]. cbn.
  destruct (Text.is_space x && Text.is_empty (Text.rstrip s)); cbn; [discriminate|].
  destruct (decide (x = c)); [reflexivity|exact IH].
Qed.

(** Stripping only removes characters. *)
Lemma contains_strip (c : ascii) (s : string) :
  Text.contains c s = false -> Text.contains c (Text.strip s) = false.
Proof.
  intros H. destruct (Text.contains c (Text.strip s)) eqn:E; [|reflexivity].
  apply contains_rstrip, contains_lstrip in E. congruence.
Qed.

(** Line 111 is reached with the entry of the line, if it has one. *)
Lemma merge_line_entry (all_results : gmap string string) (line : string) :
  merge_line all_results line =
  match entry_of line with
  | Some (k, v) => <[k := v]> all_results
  | None => all_results
  end.
Proof.
  unfold merge_line, entry_of.
  destruct (Text.is_empty (Text.strip line)); [reflexivity|].
  destruct (Text.split1 Text.dash line) as [|p0 [|p1 ps]]; reflexivity.
Qed.

Lemma entry_key_no_dash (line k v : string) :
  entry_of line = Some (k, v) -> Text.contains Text.dash k = false.
Proof.
  unfold entry_of. destruct (Text.is_empty (Text.strip line)); [discriminate|].
  destruct (split1_cases Text.dash line) as [[_ ->]|(p & r & _ & Hp & ->)];
    [discriminate|].
  intros [= <- _]. apply contains_strip, Hp.
Qed.

Lemma merge_lines_insert_all (lines : list string) (acc : gmap string string) :
  foldl merge_line acc lines = insert_all acc (omap entry_of lines).
Proof.
  revert acc. induction lines as [|line lines IH]; intros acc; [reflexivity|].
  cbn [foldl]. rewrite IH, merge_line_entry.
  change (omap entry_of (line :: lines))
    with (match entry_of line with
          | Some y => y :: omap entry_of lines
          | None => omap entry_of lines
          end).
  destruct (entry_of line) as [[k v]|]; reflexivity.
Qed.

Lemma insert_all_app (acc : gmap string string) (l1 l2 : list (string * string)) :
  insert_all acc (l1 ++ l2) = insert_all (insert_all acc l1) l2.
Proof. apply foldl_app. Qed.

(** The dictionary is the result of assigning every occurrence in order. *)
Lemma collect_insert_all (result_files : list string) (files : fs)
    (acc : gmap string string) :
  foldl (merge_file files) acc result_files
  = insert_all acc (occurrences result_files files).
Proof.
  revert acc. induction result_files as [|p ps IH]; intros acc; [reflexivity|].
  cbn [foldl]. rewrite IH. unfold occurrences. cbn [mbind list_bind].
  rewrite insert_all_app. f_equal.
  unfold merge_file. destruct (files !! p); [apply merge_lines_insert_all|reflexivity].
Qed.

Lemma last_value_snoc (k k' v : string) (l : list (string * string)) :
  last_value k (l ++ [(k', v)]) =
  if decide (k' = k) then Some v else last_value k l.
Proof. unfold last_value. rewrite reverse_snoc. reflexivity. Qed.

(** Assignment in order keeps, for each key, its last value. *)
Lemma insert_all_lookup (l : list (string * string)) (acc : gmap string string)
    (k : string) :
  insert_all acc l !! k =
  match last_value k l with Some v => Some v | None => acc !! k end.
Proof.
  induction l as [|[k' v] l IH] using rev_ind; [reflexivity|].
  rewrite insert_all_app, last_value_snoc. cbn.
  destruct (decide (k' = k)) as [->|Hne].
  - apply lookup_insert_eq.
  - rewrite lookup_insert_ne by exact Hne. exact IH.
Qed.

Lemma collect_lookup (result_files : list string) (files : fs) (k : string) :
  collect result_files files !! k
  = last_value k (occurrences result_files files).
Proof.
  unfold collect. rewrite collect_insert_all, insert_all_lookup, lookup_empty.
  destruct (last_value _ _); reflexivity.
Qed.

Lemma first_value_elem (k v : string) (l : list (string * string)) :
  first_value k l = Some v -> (k, v) ∈ l.
Proof.
  induction l as [|[k' v'] l IH]; [discriminate|]. cbn.
  destruct (decide (k' = k)) as [->|].
  - intros [= ->]. left.
  - intros H. right. auto.
Qed.

Lemma occurrence_key_no_dash (result_files : list string) (files : fs)
    (k v : string) :
  (k, v) ∈ occurrences result_files files -> Text.contains Text.dash k = false.
Proof.
  unfold occurrences. intros (p & Hin & _)%list_elem_of_bind.
  destruct (files !! p); [|inversion Hin].
  apply list_elem_of_omap in Hin as (line & _ & H).
  eapply entry_key_no_dash, H.
Qed.

Lemma identifier_of_output_line (k v : string) :
  Text.contains Text.dash k = false -> identifier_of (output_line (k, v)) = k.
Proof.
  intros H. unfold identifier_of, output_line. cbn [fst snd].
  change ("-" +:+ v +:+ eol) with (String Text.dash (v +:+ eol)).
  rewrite split1_sep by exact H. reflexivity.
Qed.

Variables (result_files : list string) (output_file : string) (files : fs).

Lemma merged_items_perm :
  merged_items result_files files ≡ₚ map_to_list (collect result_files files).
Proof. apply merge_sort_Permutation. Qed.

Lemma elem_of_merged_items (k v : string) :
  (k, v) ∈ merged_items result_files files <->
  last_value k (occurrences result_files files) = Some v.
Proof.
  rewrite merged_items_perm, elem_of_map_to_list, collect_lookup. reflexivity.
Qed.

(** C2, as amended. The merged output has one line per identifier, so no
    identifier occurs twice in it, and the value written for an identifier
    is the one of its last occurrence in file order, then line order. *)
Theorem merge_results_keeps_last :
  let items := merged_items result_files files in
  let lines := written_lines result_files files in
  (merge_results result_files output_file files).2 !! output_file
    = Some (concat_lines lines) /\
  (merge_results result_files output_file files).1 = length items /\
  map identifier_of lines = items.*1 /\
  NoDup (map identifier_of lines) /\
  (forall k v,
     (k, v) ∈ items <->
     last_value k (occurrences result_files files) = Some v) /\
  (forall k, k ∈ (occurrences result_files files).*1 -> k ∈ items.*1).
Proof.
  intros items lines.
  assert (Hids : map identifier_of lines = items.*1).
  { unfold lines, written_lines. fold items. rewrite map_map.
    apply map_ext_in. intros [k v] Hin%list_elem_of_In.
    apply identifier_of_output_line.
    apply elem_of_merged_items, first_value_elem in Hin.
    rewrite elem_of_reverse in Hin.
    eapply occurrence_key_no_dash, Hin. }
  split; [|split; [|split; [exact Hids|split; [|split]]]].
  - unfold merge_results, write_file. cbn [snd]. apply lookup_insert_eq.
  - unfold merge_results. cbn [fst]. unfold items.
    rewrite merged_items_perm. symmetry. apply length_map_to_list.
  - rewrite Hids. unfold items. rewrite merged_items_perm.
    apply NoDup_fst_map_to_list.
  - apply elem_of_merged_items.
  - intros k ([k' v] & -> & Hin)%list_elem_of_fmap. cbn [fst].
    destruct (last_value k' (occurrences result_files files)) as [v'|] eqn:E.
    + apply list_elem_of_fmap. exists (k', v'). split; [reflexivity|].
      apply elem_of_merged_items, E.
    + exfalso. unfold last_value in E. rewrite <- elem_of_reverse in Hin.
      revert E Hin. generalize (reverse (occurrences result_files files)).
      intros l. induction l as [|[k2 v2] l IH]; [intros _ H; inversion H|].
      cbn. destruct (decide (k2 = k')) as [->|Hne]; [discriminate|].
      intros E [[= -> ->]|Hin]%elem_of_cons; [congruence|]. auto.
Qed.

End MergeFacts.

(** C2, as stated, fails: the identifier 09DPR0001A occurs in the first and
    in the second input file, and the merged output keeps the value of the
    second. *)
Lemma merge_results_not_first :
  ~ MergeSpec.keeps_first ["old.txt"; "new.txt"] Examples.result_files.
Proof.
  intros H.
  specialize (H "09DPR0001A"
    "19.2000,-99.2000-https://maps.example/place/19.2000,-99.2000").
  assert (Hin : ("09DPR0001A",
            "19.2000,-99.2000-https://maps.example/place/19.2000,-99.2000")
          ∈ Merge.merged_items ["old.txt"; "new.txt"] Examples.result_files)
    by (vm_compute; left).
  specialize (H Hin). vm_compute in H. discriminate.
Qed.

Example merge_results_run :
  Merge.merged_items ["old.txt"; "new.txt"] Examples.result_files =
  [("09DPR0001A", "19.2000,-99.2000-https://maps.example/place/19.2000,-99.2000");
   ("09DPR0002B", "19.3000,-99.3000-https://maps.example/place/19.3000,-99.3000")].
Proof. vm_compute. reflexivity. Qed.

(** ** The pattern matcher *)

Section Matcher.

Import ReSpec.

Lemma starts_with_app (p : ascii -> bool) (t s : string) :
  t <> "" -> Text.starts_with p (t +:+ s) = Text.starts_with p t.
Proof. destruct t; [congruence|reflexivity]. Qed.

(** What a greedy repetition returns is a run of the class followed by a
    text on which the continuation succeeds. *)
Lemma star_sound (p : ascii -> bool) (k : string -> option Re.result)
    (s t : string) (r : Re.result) :
  Re.star p k s = Some (t, r) ->
  exists s', s = t +:+ s' /\ Text.all p t = true /\ k s' = Some r.
Proof.
  revert t r. induction s as [|c s IH]; intros t r; cbn.
  - destruct (k "") eqn:E; [|discriminate]. intros [= <- <-].
    exists "". auto.
  - destruct (p c) eqn:Hp.
    + destruct (Re.star p k s) as [[t' r']|] eqn:Es.
      * intros [= <- <-]. destruct (IH _ _ eq_refl) as (s' & -> & Hall & Hk).
        exists s'. cbn. rewrite Hp, Hall. auto.
      * destruct (k (String c s)) eqn:E; [|discriminate]. intros [= <- <-].
        exists (String c s). auto.
    + destruct (k (String c s)) eqn:E; [|discriminate]. intros [= <- <-].
      exists (String c s). auto.
Qed.


(** When the run cannot be prolonged and the continuation succeeds right
    after it, the greedy repetition takes exactly the run. *)
Lemma star_greedy (p : ascii -> bool) (k : string -> option Re.result)
    (t s' : string) (r : Re.result) :
  Text.all p t = true -> Text.starts_with p s' = false -> k s' = Some r ->
  Re.star p k (t +:+ s') = Some (t, r).
Proof.
  intros Hall Hstop Hk. induction t as [|c t IH]; cbn.
  - destruct s' as [|c s']; cbn in *; [rewrite Hk; reflexivity|].
    rewrite Hstop, Hk. reflexivity.
  - cbn in Hall. apply andb_true_iff in Hall as [Hc Hall]. rewrite Hc.
    rewrite (IH Hall). reflexivity.
Qed.

Lemma seg_Some (t : string) (x : option Re.result) (segs : list string)
    (rest : string) :
  Re.seg t x = Some (segs, rest) ->
  exists segs', segs = t :: segs' /\ x = Some (segs', rest).
Proof.
  destruct x as [[segs' rest']|]; cbn; [|discriminate].
  intros [= <- <-]. eauto.
Qed.

(** A match found by the matcher is a way for the pattern to match a
    prefix of the text. *)
Lemma run_sound (pat : Re.pattern) (s : string) (segs : list string)
    (rest : string) :
  Re.run pat s = Some (segs, rest) ->
  matches pat segs /\ s = concat_segs segs +:+ rest.
Proof.
  revert s segs. induction pat as [|i pat IH]; intros s segs; cbn [Re.run].
  { intros [= <- <-]. split; [constructor|reflexivity]. }
  destruct i as [p|p|p|p|g|g].
  - destruct s as [|c s]; [discriminate|]. destruct (p c) eqn:Hp; [|discriminate].
    intros (segs' & -> & H)%seg_Some. destruct (IH _ _ H) as [Hm ->].
    split; [constructor; [exists c; auto|exact Hm]|reflexivity].
  - destruct s as [|c s].
    + intros (segs' & -> & H)%seg_Some. destruct (IH _ _ H) as [Hm E].
      split; [constructor; [left; reflexivity|exact Hm]|exact E].
    + destruct (p c) eqn:Hp.
      * destruct (Re.run pat s) as [r|] eqn:Er.
        -- intros (segs' & -> & H)%seg_Some. injection H as ->.
           destruct (IH _ _ Er) as [Hm ->].
           split; [constructor; [right; exists c; auto|exact Hm]|reflexivity].
        -- intros (segs' & -> & H)%seg_Some. destruct (IH _ _ H) as [Hm E].
           split; [constructor; [left; reflexivity|exact Hm]|exact E].
      * intros (segs' & -> & H)%seg_Some. destruct (IH _ _ H) as [Hm E].
        split; [constructor; [left; reflexivity|exact Hm]|exact E].
  - destruct (Re.star p (Re.run pat) s) as [[t [segs' rest']]|] eqn:Es;
      cbn; [|discriminate].
    intros [= <- <-]. apply star_sound in Es as (s' & -> & Hall & Hk).
    destruct (IH _ _ Hk) as [Hm ->].
    split; [constructor; [exact Hall|exact Hm]|].
    cbn. rewrite app_assoc_str. reflexivity.
  - destruct s as [|c s]; [discriminate|]. destruct (p c) eqn:Hp; [|discriminate].
    destruct (Re.star p (Re.run pat) s) as [[t [segs' rest']]|] eqn:Es;
      cbn; [|discriminate].
    intros [= <- <-]. apply star_sound in Es as (s' & -> & Hall & Hk).
    destruct (IH _ _ Hk) as [Hm ->].
    split; [constructor; [split; [discriminate|cbn; rewrite Hp; exact Hall]|exact Hm]|].
    cbn. rewrite app_assoc_str. reflexivity.
  - intros (segs' & -> & H)%seg_Some. destruct (IH _ _ H) as [Hm E].
    split; [constructor; [reflexivity|exact Hm]|exact E].
  - intros (segs' & -> & H)%seg_Some. destruct (IH _ _ H) as [Hm E].
    split; [constructor; [reflexivity|exact Hm]|exact E].
Qed.





(** A match found by a search lies somewhere in the text. *)
Lemma search_sound (pat : Re.pattern) (s : string) (segs : list string)
    (rest : string) :
  Re.search pat s = Some (segs, rest) ->
  exists pre, matches pat segs /\ s = pre +:+ concat_segs segs +:+ rest.
Proof.
  induction s as [|c s IH]; cbn [Re.search].
  - destruct (Re.run pat "") as [r|] eqn:E; [|discriminate].
    intros [= ->]. apply run_sound in E as [Hm E]. exists "". auto.
  - destruct (Re.run pat (String c s)) as [r|] eqn:E.
    + intros [= ->]. apply run_sound in E as [Hm E]. exists "". auto.
    + intros H. destruct (IH H) as (pre & Hm & ->).
      exists (String c pre). auto.
Qed.


End Matcher.

(** ** The two patterns of the repository *)

(** Normal form of concatenations: computed, re-associated to the right,
    without empty texts. *)
Ltac str_norm :=
  repeat (progress (cbn; rewrite ?app_empty_r, ?app_assoc_str)).

Section Patterns.

Import ReSpec.

Lemma run_chr (p : ascii -> bool) (pat : Re.pattern) (c : ascii) (s : string) :
  p c = true ->
  Re.run (Re.Chr p :: pat) (String c s) = Re.seg (String c "") (Re.run pat s).
Proof. intros H. cbn. rewrite H. reflexivity. Qed.

Lemma run_opt_take (p : ascii -> bool) (pat : Re.pattern) (c : ascii)
    (s : string) (segs : list string) (rest : string) :
  p c = true -> Re.run pat s = Some (segs, rest) ->
  Re.run (Re.Opt p :: pat) (String c s) = Some (String c "" :: segs, rest).
Proof. intros H E. cbn. rewrite H, E. reflexivity. Qed.

Lemma run_opt_skip (p : ascii -> bool) (pat : Re.pattern) (s : string) :
  Text.starts_with p s = false ->
  Re.run (Re.Opt p :: pat) s = Re.seg "" (Re.run pat s).
Proof. destruct s as [|c s]; cbn; [reflexivity|]. intros ->. reflexivity. Qed.

Lemma run_star_greedy (p : ascii -> bool) (pat : Re.pattern) (t s' : string)
    (segs : list string) (rest : string) :
  Text.all p t = true -> Text.starts_with p s' = false ->
  Re.run pat s' = Some (segs, rest) ->
  Re.run (Re.Star p :: pat) (t +:+ s') = Some (t :: segs, rest).
Proof.
  intros Hall Hstop E. cbn [Re.run].
  rewrite (star_greedy p (Re.run pat) t s' (segs, rest) Hall Hstop E).
  reflexivity.
Qed.

Lemma run_plus_greedy (p : ascii -> bool) (pat : Re.pattern) (t s' : string)
    (segs : list string) (rest : string) :
  t <> "" -> Text.all p t = true -> Text.starts_with p s' = false ->
  Re.run pat s' = Some (segs, rest) ->
  Re.run (Re.Plus p :: pat) (t +:+ s') = Some (t :: segs, rest).
Proof.
  intros Hne Hall Hstop E. destruct t as [|c t]; [congruence|].
  cbn in Hall. apply andb_true_iff in Hall as [Hc Hall].
  cbn [Re.run String.append]. rewrite Hc.
  rewrite (star_greedy p (Re.run pat) t s' (segs, rest) Hall Hstop E).
  reflexivity.
Qed.

Lemma is_char_true (d c : ascii) : Re.is_char d c = true <-> c = d.
Proof. unfold Re.is_char. apply bool_decide_eq_true. Qed.

Lemma coord_shape (segs : list string) :
  matches Persist.coord_pattern segs ->
  concat_segs segs
  = "place/" +:+ Re.group Persist.coord_pattern segs 1 +:+ "," +:+
    Re.group Persist.coord_pattern segs 2 /\
  pointed_number (Re.group Persist.coord_pattern segs 1) /\
  pointed_number (Re.group Persist.coord_pattern segs 2).
Proof.
  unfold matches, Persist.coord_pattern. cbn [Re.lit app]. intros H.
  repeat match goal with
  | H : Forall2 _ (_ :: _) _ |- _ =>
      apply Forall2_cons_inv_l in H as (? & ? & ? & H & ->)
  | H : Forall2 _ [] _ |- _ => apply Forall2_nil_inv_l in H as ->
  end.
  cbn [item_ok] in *.
  repeat match goal with
  | H : exists c, _ = String c "" /\ Re.is_char _ c = true |- _ =>
      destruct H as (? & -> & ->%is_char_true)
  end.
  subst. cbn. rewrite !app_empty_r.
  assert (Hs : forall x, (x = "" \/ exists c, x = String c "" /\ Re.is_char "-" c = true) -> sign x).
  { intros x [->|(c & -> & ->%is_char_true)]; [left|right]; reflexivity. }
  split; [str_norm; reflexivity|].
  split; eexists _, _, _; (split; [reflexivity|]); repeat split;
    try (apply Hs; assumption); tauto.
Qed.

Lemma sign_of_opt (x : string) :
  (x = "" \/ exists c, x = String c "" /\ Re.is_char "-" c = true) -> sign x.
Proof. intros [->|(c & -> & ->%is_char_true)]; [left|right]; reflexivity. Qed.

Lemma opt_of_sign (x : string) : sign x -> item_ok (Re.Opt (Re.is_char "-")) x.
Proof.
  intros [-> | ->]; [left; reflexivity|right]. exists "-"%char. split; reflexivity.
Qed.



(** What a successful search for the coordinate pattern captures. *)
Lemma coord_search_Some (link : string) (segs : list string) (rest : string) :
  Re.search Persist.coord_pattern link = Some (segs, rest) ->
  exists pre,
    link = pre +:+ "place/" +:+ Re.group Persist.coord_pattern segs 1 +:+ ","
           +:+ Re.group Persist.coord_pattern segs 2 +:+ rest /\
    pointed_number (Re.group Persist.coord_pattern segs 1) /\
    pointed_number (Re.group Persist.coord_pattern segs 2).
Proof.
  intros (pre & Hm & ->)%search_sound.
  destruct (coord_shape segs Hm) as (Ec & H1 & H2).
  exists pre. split; [|split; assumption].
  rewrite Ec. str_norm. reflexivity.
Qed.

End Patterns.

(** ** Claims about incremental persistence *)

Section PersistClaims.

Import Files Persist Job ReSpec.

Lemma lookup_append_eq (path t : string) (files0 : fs) :
  append_file path t files0 !! path = Some (default "" (files0 !! path) +:+ t).
Proof. unfold append_file. apply lookup_insert_eq. Qed.

Lemma lookup_append_ne (path other t : string) (files0 : fs) :
  path <> other -> append_file path t files0 !! other = files0 !! other.
Proof. intros H. unfold append_file. apply lookup_insert_ne, H. Qed.

(** C7. A result that is persisted is appended, as the newline-terminated
    line identifier-latitude,longitude-url, to the output file and, with
    the same text, to the progress file; a failure is appended to the
    failure log as the line identifier|error|timestamp. *)
Theorem persisted_line_formats (config : ScraperConfig) :
  (forall r files0 files1 logged,
     save_result_incrementally r config files0 = (true, files1, logged) ->
     exists d link pre lat lng post,
       school_data r = Some d /\ success d = true /\ href d = Some link /\
       link = pre +:+ "place/" +:+ lat +:+ "," +:+ lng +:+ post /\
       pointed_number lat /\ pointed_number lng /\
       let line :=
         Text.fmt (sd_ct_code d) +:+ "-" +:+ (lat +:+ "," +:+ lng) +:+ "-"
         +:+ link in
       files1 =
         append_file (progress_file config) (line +:+ eol)
           (append_file (output_file config) (line +:+ eol) files0) /\
       (output_file config <> progress_file config ->
        files1 !! output_file config
          = Some (default "" (files0 !! output_file config) +:+ line +:+ eol) /\
        files1 !! progress_file config
          = Some (default "" (files0 !! progress_file config) +:+ line +:+ eol))) /\
  (forall code error stamp files0,
     save_failed_code code error config stamp files0 !! failed_codes_file config
     = Some (default "" (files0 !! failed_codes_file config)
             +:+ code +:+ "|" +:+ error +:+ "|" +:+ stamp +:+ eol)).
Proof.
  split.
  - intros r files0 files1 logged. unfold save_result_incrementally.
    destruct (school_data r) as [d|]; [|discriminate].
    destruct (success d) eqn:Hs; [|discriminate].
    destruct (href d) as [link|] eqn:Hh; [|discriminate].
    destruct (Text.is_empty link); [discriminate|].
    destruct (Re.search coord_pattern link) as [[segs rest]|] eqn:E; [|discriminate].
    intros [= <- _].
    apply coord_search_Some in E as (pre & Hlink & H1 & H2).
    exists d, link, pre, (Re.group coord_pattern segs 1),
      (Re.group coord_pattern segs 2), rest.
    split; [reflexivity|]. split; [exact Hs|]. split; [exact Hh|].
    split; [exact Hlink|]. split; [exact H1|]. split; [exact H2|].
    cbn zeta. split; [reflexivity|]. intros Hne. split.
    + rewrite lookup_append_ne by congruence. rewrite lookup_append_eq.
      unfold result_line. rewrite !app_assoc_str. reflexivity.
    + rewrite lookup_append_eq. rewrite lookup_append_ne by exact Hne.
      unfold result_line. rewrite !app_assoc_str. reflexivity.
  - intros code error stamp files0. unfold save_failed_code.
    rewrite lookup_append_eq. reflexivity.
Qed.


End PersistClaims.

Lemma persisted_line_formats_witness :
  exists d link pre lat lng post,
    school_data Examples.found_result = Some d /\ success d = true /\
    href d = Some link /\
    link = pre +:+ "place/" +:+ lat +:+ "," +:+ lng +:+ post /\
    ReSpec.pointed_number lat /\ ReSpec.pointed_number lng /\
    let line :=
      Text.fmt (sd_ct_code d) +:+ "-" +:+ (lat +:+ "," +:+ lng) +:+ "-"
      +:+ link in
    (Persist.save_result_incrementally Examples.found_result default_config ∅).1.2 =
      Files.append_file (progress_file default_config) (line +:+ Files.eol)
        (Files.append_file (output_file default_config) (line +:+ Files.eol) ∅) /\
    (output_file default_config <> progress_file default_config ->
     (Persist.save_result_incrementally Examples.found_result default_config ∅).1.2
       !! output_file default_config
       = Some (default "" ((∅ : Files.fs) !! output_file default_config)
               +:+ line +:+ Files.eol) /\
     (Persist.save_result_incrementally Examples.found_result default_config ∅).1.2
       !! progress_file default_config
       = Some (default "" ((∅ : Files.fs) !! progress_file default_config)
               +:+ line +:+ Files.eol)).
Proof.
  refine (proj1 (persisted_line_formats default_config)
            Examples.found_result ∅ _ _ _).
  vm_compute. reflexivity.
Defined.


Example found_result_line :
  (Persist.save_result_incrementally Examples.found_result default_config ∅).1.2
    !! output_file default_config
  = Some ("09DPR0001A-19.4326,-99.1332-https://www.google.com/maps/place/19.4326,-99.1332/@19.4326,-99.1332,17z"
          +:+ Files.eol).
Proof. vm_compute. reflexivity. Qed.

(** ** The line pattern of the dashboard *)

Section LinePattern.

Import ReSpec.

Lemma digit_not_dash (c : ascii) : Re.digit c = true -> Re.is_char "-" c = false.
Proof.
  destruct c as [[] [] [] [] [] [] [] []]; cbn; intros H;
    first [discriminate | reflexivity].
Qed.

Lemma digit_not_point (c : ascii) : Re.digit c = true -> Re.is_char "." c = false.
Proof.
  destruct c as [[] [] [] [] [] [] [] []]; cbn; intros H;
    first [discriminate | reflexivity].
Qed.

Lemma contains_app (c : ascii) (a b : string) :
  Text.contains c (a +:+ b) = Text.contains c a || Text.contains c b.
Proof.
  induction a as [|x a IH]; [reflexivity|]. cbn.
  destruct (decide (x = c)); [reflexivity|exact IH].
Qed.

Lemma digits_no_point (s : string) :
  Text.all Re.digit s = true -> Text.contains "."%char s = false.
Proof.
  induction s as [|c s IH]; [reflexivity|]. cbn.
  intros [Hc Hs]%andb_true_iff. destruct (decide (c = "."%char)) as [->|];
    [discriminate|auto].
Qed.

Lemma all_not_dash (s : string) :
  Text.all (Re.not_char "-") s = true <-> Text.contains Text.dash s = false.
Proof.
  induction s as [|c s IH]; [split; reflexivity|]. cbn.
  unfold Re.not_char, Re.is_char, Text.dash in *.
  destruct (decide (c = "-"%char)) as [->|Hne].
  - rewrite bool_decide_eq_true_2 by reflexivity. cbn. split; discriminate.
  - rewrite bool_decide_eq_false_2 by exact Hne. cbn. exact IH.
Qed.

Lemma digits_head (ip s : string) (p : ascii -> bool) :
  digits ip -> (forall c, Re.digit c = true -> p c = false) ->
  Text.starts_with p (ip +:+ s) = false.
Proof.
  intros [Hne Hall] Hp. destruct ip as [|c ip]; [congruence|].
  cbn in *. apply andb_true_iff in Hall as [Hc _]. apply Hp, Hc.
Qed.

(** The number block of the pattern takes a decimal number whole when the
    text after it cannot prolong it. *)
Lemma run_number (pat : Re.pattern) (num s' : string) (segs : list string)
    (rest : string) :
  decimal_number num -> ends_number num s' ->
  Re.run pat s' = Some (segs, rest) ->
  exists sg ip dot fd,
    num = sg +:+ ip +:+ dot +:+ fd /\
    Re.run (Re.Opt (Re.is_char "-") :: Re.Plus Re.digit ::
            Re.Opt (Re.is_char ".") :: Re.Star Re.digit :: pat) (num +:+ s')
    = Some (sg :: ip :: dot :: fd :: segs, rest).
Proof.
  intros (sg & ip & frac & -> & Hsg & Hip & Hfrac) [Hstop Hpoint] Hk.
  assert (Hfrac' : exists dot fd,
            frac = dot +:+ fd /\
            Text.starts_with Re.digit (frac +:+ s') = false /\
            Re.run (Re.Opt (Re.is_char ".") :: Re.Star Re.digit :: pat)
              (frac +:+ s') = Some (dot :: fd :: segs, rest)).
  { destruct Hfrac as [->|(fd & -> & Hfd)].
    - exists "", "". split; [reflexivity|]. split; [exact Hstop|].
      assert (Hnp : Text.starts_with (Re.is_char ".") s' = false).
      { destruct Hpoint as [Hc|H]; [|exact H]. exfalso.
        rewrite app_empty_r, contains_app in Hc.
        destruct Hip as [_ Hip]. rewrite (digits_no_point ip Hip) in Hc.
        destruct Hsg as [-> | ->]; cbn in Hc; discriminate. }
      cbn [String.append]. rewrite run_opt_skip by exact Hnp.
      pose proof (run_star_greedy Re.digit pat "" s' segs rest eq_refl Hstop Hk)
        as Hstar.
      cbn [String.append] in Hstar. rewrite Hstar. reflexivity.
    - exists ".", fd. split; [reflexivity|]. split; [reflexivity|].
      cbn [String.append].
      apply run_opt_take; [reflexivity|].
      apply run_star_greedy; assumption. }
  destruct Hfrac' as (dot & fd & -> & Hnd & Hrun).
  exists sg, ip, dot, fd. split; [reflexivity|].
  assert (Hplus : Re.run (Re.Plus Re.digit :: Re.Opt (Re.is_char ".") ::
                          Re.Star Re.digit :: pat)
                    (ip +:+ (dot +:+ fd) +:+ s')
                  = Some (ip :: dot :: fd :: segs, rest)).
  { destruct Hip as [Hne Hall]. apply run_plus_greedy; assumption. }
  rewrite !app_assoc_str in *.
  destruct Hsg as [-> | ->].
  - cbn [String.append]. rewrite run_opt_skip.
    + rewrite Hplus. reflexivity.
    + apply digits_head; [exact Hip|apply digit_not_dash].
  - cbn [String.append]. apply run_opt_take; [reflexivity|exact Hplus].
Qed.

Lemma run_gopen (g : nat) (pat : Re.pattern) (s : string) :
  Re.run (Re.GOpen g :: pat) s = Re.seg "" (Re.run pat s).
Proof. reflexivity. Qed.

Lemma run_gclose (g : nat) (pat : Re.pattern) (s : string) :
  Re.run (Re.GClose g :: pat) s = Re.seg "" (Re.run pat s).
Proof. reflexivity. Qed.

Lemma number_of_segs (sg ip dot fd : string) :
  item_ok (Re.Opt (Re.is_char "-")) sg ->
  item_ok (Re.Plus Re.digit) ip ->
  item_ok (Re.Opt (Re.is_char ".")) dot ->
  item_ok (Re.Star Re.digit) fd ->
  decimal_number (sg +:+ ip +:+ dot +:+ fd).
Proof.
  cbn. intros Hsg [Hne Hip] Hdot Hfd.
  apply sign_of_opt in Hsg.
  destruct Hdot as [->|(c & -> & ->%is_char_true)].
  - exists sg, (ip +:+ fd), "". cbn. rewrite app_empty_r.
    split; [reflexivity|]. split; [exact Hsg|]. split; [|left; reflexivity].
    split.
    + destruct ip; [congruence|discriminate].
    + rewrite all_app, Hip, Hfd. reflexivity.
  - exists sg, ip, ("." +:+ fd).
    split; [reflexivity|]. split; [exact Hsg|]. split; [split; assumption|].
    right. exists fd. split; [reflexivity|exact Hfd].
Qed.

Lemma segs_of_number (num : string) :
  decimal_number num ->
  exists sg ip dot fd,
    num = sg +:+ ip +:+ dot +:+ fd /\
    item_ok (Re.Opt (Re.is_char "-")) sg /\
    item_ok (Re.Plus Re.digit) ip /\
    item_ok (Re.Opt (Re.is_char ".")) dot /\
    item_ok (Re.Star Re.digit) fd.
Proof.
  intros (sg & ip & frac & -> & Hsg & Hip & Hfrac).
  destruct Hfrac as [->|(fd & -> & Hfd)].
  - exists sg, ip, "", "". repeat split; try apply Hip.
    + apply opt_of_sign, Hsg.
    + left. reflexivity.
  - exists sg, ip, ".", fd. repeat split; try apply Hip.
    + apply opt_of_sign, Hsg.
    + right. exists "."%char. split; reflexivity.
    + exact Hfd.
Qed.

(** What the line pattern can match: an identifier, a dash, a decimal
    number, a comma and a decimal number, the three groups being the
    identifier and the two numbers. *)
Lemma line_shape (segs : list string) :
  matches Dashboard.line_pattern segs ->
  concat_segs segs
  = Re.group Dashboard.line_pattern segs 1 +:+ "-" +:+
    Re.group Dashboard.line_pattern segs 2 +:+ "," +:+
    Re.group Dashboard.line_pattern segs 3 /\
  identifier (Re.group Dashboard.line_pattern segs 1) /\
  decimal_number (Re.group Dashboard.line_pattern segs 2) /\
  decimal_number (Re.group Dashboard.line_pattern segs 3).
Proof.
  unfold matches, Dashboard.line_pattern. intros H.
  repeat match goal with
  | H : Forall2 _ (_ :: _) _ |- _ =>
      apply Forall2_cons_inv_l in H as (? & ? & ? & H & ->)
  | H : Forall2 _ [] _ |- _ => apply Forall2_nil_inv_l in H as ->
  end.
  repeat match goal with
  | H : item_ok (Re.GOpen _) _ |- _ => cbn in H; subst
  | H : item_ok (Re.GClose _) _ |- _ => cbn in H; subst
  | H : item_ok (Re.Chr _) _ |- _ =>
      cbn in H; destruct H as (? & -> & ->%is_char_true)
  end.
  match goal with
  | H : item_ok (Re.Plus (Re.not_char _)) ?x |- _ =>
      cbn in H; destruct H as [Hid1 Hid2]; apply all_not_dash in Hid2
  end.
  cbn [Re.group Re.group_go Nat.eqb]. rewrite !app_empty_r.
  split; [str_norm; reflexivity|].
  split; [split; assumption|].
  split; apply number_of_segs; assumption.
Qed.

Lemma line_shape_conv (id lat lng : string) :
  identifier id -> decimal_number lat -> decimal_number lng ->
  exists segs,
    matches Dashboard.line_pattern segs /\
    concat_segs segs = id +:+ "-" +:+ lat +:+ "," +:+ lng.
Proof.
  intros [Hne Hid] (sg2 & ip2 & d2 & f2 & -> & A2 & B2 & C2 & D2)%segs_of_number
         (sg3 & ip3 & d3 & f3 & -> & A3 & B3 & C3 & D3)%segs_of_number.
  exists [""; id; ""; "-"; ""; sg2; ip2; d2; f2; ""; ","; ""; sg3; ip3; d3; f3; ""].
  split.
  - unfold matches, Dashboard.line_pattern.
    repeat (constructor; [first
      [ assumption
      | reflexivity
      | eexists; split; reflexivity
      | split; [exact Hne|apply all_not_dash, Hid] ]|]).
    constructor.
  - str_norm. reflexivity.
Qed.

(** On a text that starts with an identifier, a dash, a decimal number, a
    comma and a decimal number that the rest cannot prolong, the pattern
    matches and captures exactly these three. *)
Lemma line_greedy (id lat lng rest : string) :
  identifier id -> decimal_number lat -> decimal_number lng ->
  ends_number lng rest ->
  exists segs,
    Re.run Dashboard.line_pattern
      (id +:+ "-" +:+ lat +:+ "," +:+ lng +:+ rest) = Some (segs, rest) /\
    Re.group Dashboard.line_pattern segs 1 = id /\
    Re.group Dashboard.line_pattern segs 2 = lat /\
    Re.group Dashboard.line_pattern segs 3 = lng.
Proof.
  intros [Hne Hid] Hlat Hlng Hend. unfold Dashboard.line_pattern.
  destruct (run_number [Re.GClose 3] lng rest [""] rest Hlng Hend eq_refl)
    as (sg3 & ip3 & d3 & f3 & Elng & R3).
  set (tail3 := Re.Opt (Re.is_char "-") :: Re.Plus Re.digit ::
                Re.Opt (Re.is_char ".") :: Re.Star Re.digit :: [Re.GClose 3]) in *.
  assert (R4 : Re.run (Re.GClose 2 :: Re.Chr (Re.is_char ",") :: Re.GOpen 3 :: tail3)
                 ("," +:+ lng +:+ rest)
               = Some ("" :: "," :: "" :: sg3 :: ip3 :: d3 :: f3 :: [""], rest)).
  { rewrite run_gclose. change ("," +:+ lng +:+ rest) with (String "," (lng +:+ rest)).
    rewrite run_chr by reflexivity. rewrite run_gopen, R3. reflexivity. }
  assert (Hend2 : ends_number lat ("," +:+ lng +:+ rest)).
  { split; [reflexivity|right; reflexivity]. }
  destruct (run_number _ lat _ _ rest Hlat Hend2 R4)
    as (sg2 & ip2 & d2 & f2 & Elat & R2).
  set (tail2 := Re.Opt (Re.is_char "-") :: Re.Plus Re.digit ::
                Re.Opt (Re.is_char ".") :: Re.Star Re.digit ::
                Re.GClose 2 :: Re.Chr (Re.is_char ",") :: Re.GOpen 3 :: tail3) in *.
  assert (R1 : Re.run (Re.GClose 1 :: Re.Chr (Re.is_char "-") :: Re.GOpen 2 :: tail2)
                 (String "-" (lat +:+ "," +:+ lng +:+ rest))
               = Some ("" :: "-" :: "" :: sg2 :: ip2 :: d2 :: f2 :: "" :: "," :: ""
                       :: sg3 :: ip3 :: d3 :: f3 :: [""], rest)).
  { rewrite run_gclose, run_chr by reflexivity. rewrite run_gopen, R2. reflexivity. }
  eexists. split.
  - rewrite run_gopen.
    change (id +:+ "-" +:+ lat +:+ "," +:+ lng +:+ rest)
      with (id +:+ String "-" (lat +:+ "," +:+ lng +:+ rest)).
    rewrite (run_plus_greedy (Re.not_char "-") _ id
               (String "-" (lat +:+ "," +:+ lng +:+ rest)) _ rest Hne
               (proj2 (all_not_dash id) Hid) eq_refl R1).
    reflexivity.
  - unfold tail2, tail3. cbn [Re.group Re.group_go Nat.eqb].
    rewrite !app_empty_r, Elat, Elng. repeat split; reflexivity.
Qed.

End LinePattern.

(** ** The coordinate loader *)

Section Loader.

Import Files Dashboard DashboardSpec ReSpec.

Lemma unsigned_value_number (ip frac : string) :
  digits ip ->
  (frac = "" \/ exists fd, frac = "." +:+ fd /\ Text.all Re.digit fd = true) ->
  is_Some (unsigned_value (ip +:+ frac)).
Proof.
  intros [Hne Hip] Hfrac. unfold unsigned_value.
  assert (Hnonempty : Text.is_empty ip = false) by (apply is_empty_false, Hne).
  destruct Hfrac as [->|(fd & -> & Hfd)].
  - rewrite app_empty_r, split1_no_sep by (apply digits_no_point, Hip).
    rewrite Hip, Hnonempty. cbn. eauto.
  - change ("." +:+ fd) with (String "."%char fd).
    rewrite split1_sep by (apply digits_no_point, Hip).
    rewrite Hip, Hnonempty, Hfd. cbn. eauto.
Qed.

(** [float] accepts every decimal number. *)
Lemma float_number (s : string) : decimal_number s -> is_Some (float_ s).
Proof.
  intros (sg & ip & frac & -> & Hsg & Hip & Hfrac).
  pose proof (unsigned_value_number ip frac Hip Hfrac) as [q Hq].
  destruct Hsg as [-> | ->]; cbn [String.append].
  - destruct Hip as [Hne Hall]. destruct ip as [|c ip]; [congruence|].
    cbn [String.append] in *. unfold float_.
    cbn in Hall. apply andb_true_iff in Hall as [Hc _].
    apply digit_not_dash in Hc. unfold Re.is_char in Hc. rewrite Hc, Hq. eauto.
  - unfold float_. rewrite bool_decide_eq_true_2 by reflexivity.
    rewrite Hq. cbn. eauto.
Qed.

(** A line that is parsed has the shape of the pattern, and its record
    holds the captured identifier and the values of the two numbers. *)
Lemma parse_line_Parsed (line : string) (r : row) :
  parse_line line = Parsed r ->
  exists lat lng rest,
    Text.strip line = school_code r +:+ "-" +:+ lat +:+ "," +:+ lng +:+ rest /\
    identifier (school_code r) /\ decimal_number lat /\ decimal_number lng /\
    float_ lat = Some (latitude r) /\ float_ lng = Some (longitude r).
Proof.
  unfold parse_line.
  destruct (Text.is_empty (Text.strip line)); [discriminate|].
  destruct (Re.match_ line_pattern (Text.strip line)) as [[segs rest]|] eqn:E;
    [|discriminate].
  apply run_sound in E as [Hm E]. destruct (line_shape segs Hm) as (Ec & Hid & H2 & H3).
  destruct (float_ (Re.group line_pattern segs 2)) as [la|] eqn:E2; [|discriminate].
  destruct (float_ (Re.group line_pattern segs 3)) as [lo|] eqn:E3; [|discriminate].
  intros [= <-]. cbn [school_code latitude longitude].
  exists (Re.group line_pattern segs 2), (Re.group line_pattern segs 3), rest.
  split; [rewrite E, Ec; str_norm; reflexivity|]. auto.
Qed.

(** [float] never raises on what the pattern captured. *)
Lemma parse_line_no_error (line : string) : parse_line line <> ValueError.
Proof.
  unfold parse_line.
  destruct (Text.is_empty (Text.strip line)); [discriminate|].
  destruct (Re.match_ line_pattern (Text.strip line)) as [[segs rest]|] eqn:E;
    [|discriminate].
  apply run_sound in E as [Hm _]. destruct (line_shape segs Hm) as (_ & _ & H2 & H3).
  destruct (float_number _ H2) as [la ->], (float_number _ H3) as [lo ->].
  discriminate.
Qed.

(** A line that does not start with the shape is skipped. *)
Lemma parse_line_Skipped (line : string) :
  (~ exists id lat lng rest,
       Text.strip line = id +:+ "-" +:+ lat +:+ "," +:+ lng +:+ rest /\
       identifier id /\ decimal_number lat /\ decimal_number lng) ->
  parse_line line = Skipped.
Proof.
  intros Hno. destruct (parse_line line) as [|r|] eqn:E; [reflexivity|..].
  - exfalso. apply Hno.
    apply parse_line_Parsed in E as (lat & lng & rest & H & Hid & H2 & H3 & _).
    exists (school_code r), lat, lng, rest. auto.
  - exfalso. exact (parse_line_no_error line E).
Qed.

(** A line that starts with the shape, the rest not prolonging the second
    number, is parsed into the record of its three parts. *)
Lemma parse_line_shaped (line id lat lng rest : string) :
  Text.strip line = id +:+ "-" +:+ lat +:+ "," +:+ lng +:+ rest ->
  identifier id -> decimal_number lat -> decimal_number lng ->
  ends_number lng rest ->
  exists la lo,
    float_ lat = Some la /\ float_ lng = Some lo /\
    parse_line line
    = Parsed {| school_code := id; latitude := la; longitude := lo |}.
Proof.
  intros Hline Hid Hlat Hlng Hend.
  destruct (float_number lat Hlat) as [la Hla], (float_number lng Hlng) as [lo Hlo].
  exists la, lo. split; [exact Hla|]. split; [exact Hlo|].
  destruct (line_greedy id lat lng rest Hid Hlat Hlng Hend)
    as (segs & Hrun & G1 & G2 & G3).
  unfold parse_line, Re.match_. rewrite Hline.
  assert (Text.is_empty (id +:+ "-" +:+ lat +:+ "," +:+ lng +:+ rest) = false) as ->.
  { destruct Hid as [Hne _]. destruct id; [congruence|reflexivity]. }
  rewrite Hrun, G1, G2, G3, Hla, Hlo. reflexivity.
Qed.

Lemma parse_lines_rows (lines : list string) :
  parse_lines lines = Some (omap row_of lines).
Proof.
  induction lines as [|line lines IH]; [reflexivity|].
  cbn [parse_lines].
  change (omap row_of (line :: lines))
    with (match row_of line with
          | Some r => r :: omap row_of lines
          | None => omap row_of lines
          end).
  unfold row_of at 1. pose proof (parse_line_no_error line) as Hne.
  destruct (parse_line line) as [|r|]; [exact IH| |congruence].
  rewrite IH. reflexivity.
Qed.

(** Keeping the first row of each code. *)
Lemma elem_of_drop_duplicates (rows : list row) (seen : gset string) (r : row) :
  r ∈ drop_duplicates seen rows <->
  exists before after,
    rows = before ++ r :: after /\ (school_code r ∉ seen) /\
    (school_code r ∉ school_code <$> before).
Proof.
  revert seen. induction rows as [|x rows IH]; intros seen; cbn [drop_duplicates].
  - split; [intros H; inversion H|].
    intros (before & after & E & _). destruct before; discriminate.
  - destruct (decide (school_code x ∈ seen)) as [Hin|Hnin].
    + rewrite IH. split.
      * intros (before & after & -> & Hs & Hb).
        exists (x :: before), after. split; [reflexivity|]. split; [exact Hs|].
        cbn. rewrite not_elem_of_cons. split; [congruence|exact Hb].
      * intros ([|y before] & after & E & Hs & Hb); cbn in E.
        -- injection E as E1 E2. subst. contradiction.
        -- injection E as E1 E2. subst. exists before, after.
           split; [reflexivity|]. split; [exact Hs|].
           cbn in Hb. rewrite not_elem_of_cons in Hb. tauto.
    + rewrite elem_of_cons, IH. split.
      * intros [->|(before & after & -> & Hs & Hb)].
        -- exists [], rows. split; [reflexivity|]. split; [exact Hnin|].
           cbn. apply not_elem_of_nil.
        -- exists (x :: before), after. split; [reflexivity|].
           split; [intros Hin; apply Hs, elem_of_union; right; exact Hin|].
           cbn. rewrite not_elem_of_cons. split; [|exact Hb].
           intros E. apply Hs, elem_of_union. left.
           apply elem_of_singleton. exact E.
      * intros ([|y before] & after & E & Hs & Hb); cbn in E.
        -- injection E as E1 E2. subst. left. reflexivity.
        -- injection E as E1 E2. subst. right. exists before, after.
           split; [reflexivity|]. cbn in Hb. rewrite not_elem_of_cons in Hb.
           split; [|tauto].
           intros [H1|H1]%elem_of_union; [|contradiction].
           apply elem_of_singleton in H1. tauto.
Qed.

Lemma drop_duplicates_NoDup (rows : list row) (seen : gset string) :
  NoDup (school_code <$> drop_duplicates seen rows).
Proof.
  revert seen. induction rows as [|x rows IH]; intros seen; cbn [drop_duplicates].
  - constructor.
  - destruct (decide (school_code x ∈ seen)); [apply IH|].
    cbn. constructor; [|apply IH].
    intros (r & E & Hr)%list_elem_of_fmap.
    apply elem_of_drop_duplicates in Hr as (_ & _ & _ & Hs & _).
    apply Hs, elem_of_union. left. apply elem_of_singleton. congruence.
Qed.

(** C8, as amended. A line whose stripped text starts with
    identifier-lat,lng, the rest not prolonging the second number, is parsed
    into the record of that identifier and the values of the two numbers; a
    line that does not start with this shape yields no record; and the
    loaded frame keeps, of the records parsed, the first one of each
    identifier. *)
Theorem coordinate_lines_parsed_first_kept (files : fs) (content : string) :
  files !! coordinates_file = Some content ->
  (forall line id lat lng rest,
     Text.strip line = id +:+ "-" +:+ lat +:+ "," +:+ lng +:+ rest ->
     identifier id -> decimal_number lat -> decimal_number lng ->
     ends_number lng rest ->
     exists la lo,
       float_ lat = Some la /\ float_ lng = Some lo /\
       parse_line line
       = Parsed {| school_code := id; latitude := la; longitude := lo |}) /\
  (forall line,
     (~ exists id lat lng rest,
          Text.strip line = id +:+ "-" +:+ lat +:+ "," +:+ lng +:+ rest /\
          identifier id /\ decimal_number lat /\ decimal_number lng) ->
     parse_line line = Skipped) /\
  (forall r,
     r ∈ load_coordinates_data files <->
     exists before after,
       parsed_rows content = before ++ r :: after /\
       (school_code r ∉ school_code <$> before)) /\
  NoDup (school_code <$> load_coordinates_data files).
Proof.
  intros Hfile.
  assert (Hload : load_coordinates_data files
                  = drop_duplicates ∅ (parsed_rows content)).
  { unfold load_coordinates_data, parsed_rows. rewrite Hfile, parse_lines_rows.
    reflexivity. }
  split; [intros line id lat lng rest; apply parse_line_shaped|].
  split; [apply parse_line_Skipped|].
  rewrite Hload. split; [|apply drop_duplicates_NoDup].
  intros r. rewrite elem_of_drop_duplicates. split.
  - intros (before & after & E & _ & Hb). eauto.
  - intros (before & after & E & Hb). exists before, after.
    split; [exact E|]. split; [apply not_elem_of_empty|exact Hb].
Qed.

End Loader.

Lemma coordinate_lines_parsed_first_kept_witness :
  exists la lo,
    Dashboard.float_ "20.5" = Some la /\ Dashboard.float_ "-100.25" = Some lo /\
    Dashboard.parse_line ("09DPR0001A-20.5,-100.25" +:+ Files.eol)
    = Dashboard.Parsed {| Dashboard.school_code := "09DPR0001A";
                          Dashboard.latitude := la;
                          Dashboard.longitude := lo |}.
Proof.
  refine (proj1 (coordinate_lines_parsed_first_kept
            Examples.coordinates_twice _ eq_refl)
            ("09DPR0001A-20.5,-100.25" +:+ Files.eol)
            "09DPR0001A" "20.5" "-100.25" "" eq_refl _ _ _ _).
  - split; [discriminate|reflexivity].
  - exists "", "20", ".5". split; [reflexivity|]. split; [left; reflexivity|].
    split; [split; [discriminate|reflexivity]|].
    right. exists "5". split; reflexivity.
  - exists "-", "100", ".25". split; [reflexivity|]. split; [right; reflexivity|].
    split; [split; [discriminate|reflexivity]|].
    right. exists "25". split; reflexivity.
  - split; [reflexivity|left; reflexivity].
Defined.

(** C8, as stated, fails: the second line of the file has the form
    identifier-lat,lng, yet the frame holds no record with its coordinates,
    because the identifier already came on the first line. *)
Lemma repeated_identifier_not_recorded :
  ~ DashboardSpec.every_shaped_line_recorded Examples.coordinates_twice.
Proof.
  intros H.
  destruct (H _ ("09DPR0001A-20.5,-100.25" +:+ Files.eol)
              "09DPR0001A" "20.5" "-100.25" (205 # 10)%Q (-10025 # 100)%Q
              eq_refl)
    as (r & Hr & _ & Hla & _).
  - vm_compute. right. left.
  - vm_compute. reflexivity.
  - split; [discriminate|reflexivity].
  - exists "", "20", ".5". split; [reflexivity|]. split; [left; reflexivity|].
    split; [split; [discriminate|reflexivity]|].
    right. exists "5". split; reflexivity.
  - exists "-", "100", ".25". split; [reflexivity|]. split; [right; reflexivity|].
    split; [split; [discriminate|reflexivity]|].
    right. exists "25". split; reflexivity.
  - vm_compute. reflexivity.
  - vm_compute. reflexivity.
  - vm_compute in Hr. apply list_elem_of_singleton in Hr. subst r.
    vm_compute in Hla. discriminate.
Qed.

Example coordinates_twice_loaded :
  Dashboard.school_code <$>
    Dashboard.load_coordinates_data Examples.coordinates_twice
  = ["09DPR0001A"].
Proof. vm_compute. reflexivity. Qed.

(** ** Further facts about the text primitives *)

Section TextSplit.

Import Text.

Lemma split_no_sep (sep : ascii) (s : string) :
  contains sep s = false -> split sep s = [s].
Proof.
  induction s as [|c s IH]; [reflexivity|]. cbn.
  destruct (decide (c = sep)); [discriminate|]. intros H. rewrite (IH H).
  reflexivity.
Qed.

(** Cutting at a separator that follows a text without one. *)
Lemma split_sep (sep : ascii) (prefix rest : string) :
  contains sep prefix = false ->
  split sep (prefix +:+ String sep rest) = prefix :: split sep rest.
Proof.
  intros Hp. induction prefix as [|c p IH]; cbn.
  - rewrite decide_True by reflexivity. reflexivity.
  - cbn in Hp. destruct (decide (c = sep)); [discriminate|].
    rewrite (IH Hp). reflexivity.
Qed.

Lemma split_contains (sep : ascii) (s : string) :
  contains sep s = true -> exists p0 p1 rest, split sep s = p0 :: p1 :: rest.
Proof.
  induction s as [|c s IH]; [discriminate|]. cbn.
  destruct (decide (c = sep)) as [->|Hne].
  - intros _. destruct (split sep s) as [|h t] eqn:E.
    + destruct s; cbn in E; [discriminate|].
      destruct (decide (a = sep)); [discriminate|].
      destruct (split sep s); discriminate.
    + eauto.
  - intros H. destruct (IH H) as (p0 & p1 & rest & ->). eauto.
Qed.

Lemma join_split (sep : ascii) (s : string) : Utils.join sep (split sep s) = s.
Proof.
  induction s as [|c s IH]; [reflexivity|]. cbn [split].
  destruct (decide (c = sep)) as [->|Hne].
  - destruct (split sep s) as [|h t] eqn:E.
    + destruct s; cbn in E; [discriminate|].
      destruct (decide (a = sep)); [discriminate|].
      destruct (split sep s); discriminate.
    + cbn [Utils.join] in *. rewrite IH. reflexivity.
  - destruct (split sep s) as [|h t] eqn:E.
    + cbn in IH. subst s. reflexivity.
    + cbn [Utils.join] in *. destruct t; cbn; rewrite <- IH; reflexivity.
Qed.

Lemma is_space_newline : is_space newline = true.
Proof. reflexivity. Qed.

Lemma rstrip_all_space (s : string) : all is_space s = true -> rstrip s = "".
Proof.
  induction s as [|c s IH]; [reflexivity|]. cbn.
  intros [-> H]%andb_true_iff. rewrite (IH H). reflexivity.
Qed.

Lemma rstrip_app_space (s u : string) :
  all is_space u = true -> rstrip (s +:+ u) = rstrip s.
Proof.
  intros Hu. induction s as [|c s IH]; cbn.
  - apply rstrip_all_space, Hu.
  - rewrite IH. reflexivity.
Qed.

Lemma lstrip_app (s u : string) :
  lstrip (s +:+ u) = if all is_space s then lstrip u else lstrip s +:+ u.
Proof.
  induction s as [|c s IH]; [reflexivity|]. cbn.
  destruct (is_space c); cbn; [exact IH|reflexivity].
Qed.

(** Trailing white space does not change what [strip] returns. *)
Lemma strip_app_space (s u : string) :
  all is_space u = true -> strip (s +:+ u) = strip s.
Proof.
  intros Hu. unfold strip. rewrite lstrip_app.
  destruct (all is_space s) eqn:E.
  - rewrite (lstrip_all_space u Hu), (lstrip_all_space s E). reflexivity.
  - apply rstrip_app_space, Hu.
Qed.

Lemma strip_app_eol (s : string) : strip (s +:+ Files.eol) = strip s.
Proof. apply strip_app_space. reflexivity. Qed.

(** A text that holds a character other than white space is not blank. *)
Lemma not_blank (c : ascii) (s : string) :
  is_space c = false -> contains c s = true -> is_empty (strip s) = false.
Proof.
  intros Hc Hs. apply is_empty_false. rewrite strip_empty.
  induction s as [|d s IH]; [discriminate|]. cbn in *.
  destruct (decide (d = c)) as [->|Hne].
  - rewrite Hc. cbn. discriminate.
  - destruct (is_space d); cbn; auto.
Qed.

(** Lines of a text: what follows a complete line starts a new one. *)
Lemma readlines_cons (line rest : string) :
  contains newline line = false ->
  readlines (line +:+ Files.eol +:+ rest) = (line +:+ Files.eol) :: readlines rest.
Proof.
  intros H. induction line as [|c l IH].
  - cbn. rewrite decide_True by reflexivity. reflexivity.
  - cbn [String.append readlines]. cbn in H.
    destruct (decide (c = newline)); [discriminate|].
    rewrite (IH H). reflexivity.
Qed.

Lemma readlines_app (a b : string) :
  readlines (a +:+ Files.eol +:+ b) = readlines (a +:+ Files.eol) ++ readlines b.
Proof.
  induction a as [|c a IH].
  - cbn. rewrite decide_True by reflexivity. reflexivity.
  - cbn [String.append readlines].
    destruct (decide (c = newline)); [rewrite IH; reflexivity|].
    rewrite IH. destruct (readlines (a +:+ Files.eol)) eqn:E; [|reflexivity].
    exfalso. clear -E. induction a as [|d a IH]; cbn in E.
    + rewrite decide_True in E by reflexivity. discriminate.
    + destruct (decide (d = newline)); [discriminate|].
      destruct (readlines (a +:+ Files.eol)); [auto|discriminate].
Qed.

End TextSplit.
(** ** The progress report *)

Section Reports.

Import Files Persist Utils UtilsSpec.

Lemma check_progress_line_counted (st : stats (gset string)) (line : string) :
  check_progress_line st line =
  if counted line then
    {| total_processed := total_processed st + 1;
       unique_codes := {[prefix_of line]} ∪ unique_codes st;
       coordinates_found := coordinates_found st + 1 |}
  else st.
Proof.
  unfold check_progress_line, counted, prefix_of.
  destruct (Text.is_empty (Text.strip line)); [reflexivity|]. cbn [negb andb].
  destruct (Text.contains Text.dash line) eqn:E.
  - destruct (split_contains _ _ E) as (p0 & p1 & rest & ->). reflexivity.
  - rewrite split_no_sep by exact E. reflexivity.
Qed.

Lemma check_progress_lines (lines : list string) (st : stats (gset string)) :
  let st' := foldl check_progress_line st lines in
  total_processed st' = total_processed st + Z.of_nat (length (filter counted lines)) /\
  coordinates_found st' = coordinates_found st + Z.of_nat (length (filter counted lines)) /\
  unique_codes st' = list_to_set (prefix_of <$> filter counted lines) ∪ unique_codes st.
Proof.
  revert st. induction lines as [|line lines IH]; intros st; cbn [foldl].
  - cbn. repeat split; [lia|lia|]. apply set_eq. intros x.
    rewrite elem_of_union, elem_of_empty. tauto.
  - destruct (IH (check_progress_line st line)) as (A & B & C).
    cbn zeta in *. rewrite A, B, C, check_progress_line_counted.
    destruct (counted line) eqn:E.
    + rewrite filter_cons_True by (rewrite E; exact I).
      cbn [total_processed coordinates_found unique_codes length fmap
           list_fmap list_to_set].
      repeat split; [lia|lia|]. apply set_eq. intros x.
      rewrite !elem_of_union. tauto.
    + rewrite filter_cons_False by (rewrite E; exact id). repeat split.
Qed.

Lemma size_list_to_set_le (l : list string) :
  (size (list_to_set l : gset string) <= length l)%nat.
Proof.
  induction l as [|x l IH]; cbn [list_to_set length].
  - rewrite size_empty. lia.
  - rewrite size_union_alt, size_singleton.
    pose proof (subseteq_size (list_to_set l ∖ {[x]}) (list_to_set l : gset string)
                  ltac:(apply subseteq_difference_l; reflexivity)).
    lia.
Qed.

Lemma check_progress_Some (path content : string) (files : fs) :
  files !! path = Some content ->
  let lines := filter counted (Text.readlines content) in
  check_progress path files =
  inr {| total_processed := Z.of_nat (length lines);
         unique_codes := size (list_to_set (prefix_of <$> lines) : gset string);
         coordinates_found := Z.of_nat (length lines) |}.
Proof.
  intros Hf. cbn zeta. unfold check_progress. rewrite Hf.
  destruct (check_progress_lines (Text.readlines content) empty_stats) as (A & B & C).
  cbn zeta in *. rewrite A, B, C. cbn [empty_stats total_processed
    coordinates_found unique_codes]. rewrite !Z.add_0_l.
  rewrite (right_id_L ∅ (∪)). reflexivity.
Qed.

(** X1. [check_progress] on a missing file returns zero counts with the
    empty set under unique_codes; on a file, total_processed and
    coordinates_found both are the number of lines that are not blank and
    hold a dash, and unique_codes is the number of distinct stripped texts
    before the first dash of those lines, which is at most that number. *)
Theorem check_progress_counts (progress_file : string) (files : fs) :
  match files !! progress_file with
  | None => check_progress progress_file files = inl empty_stats
  | Some content =>
      let lines := filter counted (Text.readlines content) in
      exists st,
        check_progress progress_file files = inr st /\
        total_processed st = Z.of_nat (length lines) /\
        coordinates_found st = total_processed st /\
        unique_codes st = size (list_to_set (prefix_of <$> lines) : gset string) /\
        (unique_codes st <= length lines)%nat
  end.
Proof.
  destruct (files !! progress_file) as [content|] eqn:Hf.
  - cbn zeta. rewrite (check_progress_Some _ _ _ Hf). eexists.
    split; [reflexivity|]. cbn [total_processed coordinates_found unique_codes].
    repeat split. rewrite <- (length_fmap prefix_of). apply size_list_to_set_le.
  - unfold check_progress. rewrite Hf. reflexivity.
Qed.

Lemma counted_prefix_processed (path content : string) (files : fs) (code : string) :
  files !! path = Some content ->
  code ∈ (list_to_set (prefix_of <$> filter counted (Text.readlines content)) : gset string) ->
  code ∈ load_progress path files.
Proof.
  intros Hf Hin. apply elem_of_list_to_set, list_elem_of_fmap in Hin
    as (line & -> & Hin).
  apply list_elem_of_filter in Hin as [Hc Hin].
  apply elem_of_load_progress. exists content, line.
  split; [exact Hf|]. split; [exact Hin|]. split; [|reflexivity].
  unfold counted in Hc. destruct (Text.is_empty (Text.strip line)); [|reflexivity].
  destruct Hc.
Qed.

(** X2. The number of unique codes that [check_progress] reports is at
    most the number of codes that [load_progress] treats as processed for
    the same file, and equal to it when every line that is not blank holds
    a dash. *)
Theorem check_progress_below_load_progress (progress_file content : string)
    (files : fs) (st : stats nat) :
  files !! progress_file = Some content ->
  check_progress progress_file files = inr st ->
  (unique_codes st <= size (load_progress progress_file files))%nat /\
  ((forall line, line ∈ Text.readlines content ->
      Text.strip line <> "" -> Text.contains Text.dash line = true) ->
   unique_codes st = size (load_progress progress_file files)).
Proof.
  intros Hf. rewrite (check_progress_Some _ _ _ Hf). intros [= <-].
  cbn [unique_codes]. split.
  - apply subseteq_size. intros code. apply counted_prefix_processed, Hf.
  - intros Hall. f_equal. apply set_eq. intros code. split.
    + apply counted_prefix_processed, Hf.
    + intros (c & line & Hc & Hin & Hne & ->)%elem_of_load_progress.
      rewrite Hf in Hc. injection Hc as <-.
      apply elem_of_list_to_set, list_elem_of_fmap. exists line.
      split; [reflexivity|]. apply list_elem_of_filter. split; [|exact Hin].
      unfold counted. rewrite Hne. cbn [negb andb].
      rewrite (Hall line Hin); [exact I|]. apply is_empty_false, Hne.
Qed.

End Reports.

Lemma check_progress_below_load_progress_witness :
  (1 <= size (Persist.load_progress (progress_file default_config)
                Examples.sample_files))%nat.
Proof.
  refine (proj1 (check_progress_below_load_progress
            (progress_file default_config) Examples.sample_progress
            Examples.sample_files
            {| Utils.total_processed := 1; Utils.unique_codes := 1%nat;
               Utils.coordinates_found := 1 |} _ _)).
  - reflexivity.
  - vm_compute. reflexivity.
Defined.

(** ** The failure log read back *)

Section FailureLog.

Import Files Persist Utils TextSpec.

Lemma readlines_one_line (s : string) :
  Text.contains Text.newline s = false -> Text.readlines (s +:+ eol) = [s +:+ eol].
Proof.
  intros H. pose proof (readlines_cons s "" H) as E.
  rewrite (app_empty_r eol) in E. exact E.
Qed.

(** Appending a line to a content that ends its lines adds one line. *)
Lemma readlines_append (content line : string) :
  ends_lines content -> Text.contains Text.newline line = false ->
  Text.readlines (content +:+ line +:+ eol)
  = Text.readlines content ++ [line +:+ eol].
Proof.
  intros [->|[c ->]] Hl.
  - cbn [String.append]. apply readlines_one_line, Hl.
  - rewrite app_assoc_str, readlines_app, (readlines_one_line line Hl).
    reflexivity.
Qed.

Lemma omap_singleton {A B : Type} (f : A -> option B) (x : A) (y : B) :
  f x = Some y -> omap f [x] = [y].
Proof. intros H. cbn. rewrite H. reflexivity. Qed.

Lemma failed_entry_line (code error stamp : string) :
  Text.contains pipe code = false -> Text.contains pipe error = false ->
  Text.contains pipe stamp = false ->
  failed_entry (failed_line code error stamp)
  = Some (Text.strip code, Text.strip error, Text.strip stamp).
Proof.
  intros Hc He Hs. unfold failed_entry, failed_line.
  rewrite (not_blank pipe).
  2: reflexivity.
  2: { rewrite contains_app. cbn. apply orb_true_r. }
  repeat change ("|" +:+ ?x) with (String pipe x).
  rewrite split_sep by exact Hc. rewrite split_sep by exact He.
  rewrite split_no_sep.
  2: { rewrite contains_app, Hs. reflexivity. }
  rewrite strip_app_eol. reflexivity.
Qed.

Lemma failed_line_one_line (code error stamp : string) :
  one_line code -> one_line error -> one_line stamp ->
  Text.contains Text.newline (code +:+ "|" +:+ error +:+ "|" +:+ stamp) = false.
Proof.
  intros [Hc _] [He _] [Hs _].
  rewrite !contains_app, Hc, He, Hs. reflexivity.
Qed.

(** X3. A failure appended by [save_failed_code] to a log that ends its
    lines is read back by [check_failed_codes] as one more entry, after the
    entries already there: the stripped code, error and time stamp when none
    of them holds a pipe or a line break; when the error holds one pipe, the
    entry has the error cut at the pipe and the rest of the error in place
    of the time stamp. *)
Theorem failed_code_read_back (config : ScraperConfig)
    (code error stamp : string) (files : fs) :
  ends_lines (default "" (files !! failed_codes_file config)) ->
  one_line code -> one_line error -> one_line stamp ->
  Text.contains pipe code = false -> Text.contains pipe stamp = false ->
  let files' := save_failed_code code error config stamp files in
  let before := check_failed_codes (failed_codes_file config) files in
  let after := check_failed_codes (failed_codes_file config) files' in
  (Text.contains pipe error = false ->
   after = before ++ [(Text.strip code, Text.strip error, Text.strip stamp)]) /\
  (forall e1 e2,
     error = e1 +:+ "|" +:+ e2 ->
     Text.contains pipe e1 = false -> Text.contains pipe e2 = false ->
     after = before ++ [(Text.strip code, Text.strip e1, Text.strip e2)]).
Proof.
  intros Hends Hc He Hs Hpc Hps. cbn zeta.
  assert (Hafter : forall entry,
            failed_entry (failed_line code error stamp) = Some entry ->
            check_failed_codes (failed_codes_file config)
              (save_failed_code code error config stamp files)
            = check_failed_codes (failed_codes_file config) files ++ [entry]).
  { intros entry Hentry. unfold check_failed_codes, save_failed_code.
    rewrite lookup_append_eq.
    assert (Hold : omap failed_entry
                     (Text.readlines (default "" (files !! failed_codes_file config)))
                   = match files !! failed_codes_file config with
                     | Some content => omap failed_entry (Text.readlines content)
                     | None => []
                     end).
    { destruct (files !! failed_codes_file config); reflexivity. }
    rewrite <- Hold. unfold failed_line in *.
    replace (code +:+ "|" +:+ error +:+ "|" +:+ stamp +:+ eol)
      with ((code +:+ "|" +:+ error +:+ "|" +:+ stamp) +:+ eol) in *
      by (rewrite !app_assoc_str; reflexivity).
    rewrite readlines_append by (auto using failed_line_one_line).
    rewrite omap_app, (omap_singleton _ _ _ Hentry). reflexivity. }
  split.
  - intros Hpe. apply Hafter, failed_entry_line; assumption.
  - intros e1 e2 -> H1 H2. apply Hafter.
    unfold failed_entry, failed_line.
    rewrite (not_blank pipe).
    2: reflexivity.
    2: { rewrite contains_app. cbn. apply orb_true_r. }
    rewrite !app_assoc_str.
    repeat change ("|" +:+ ?x) with (String pipe x).
    rewrite split_sep by exact Hpc. rewrite split_sep by exact H1.
    rewrite split_sep by exact H2. reflexivity.
Qed.

End FailureLog.

Lemma failed_code_read_back_witness :
  Utils.check_failed_codes (failed_codes_file default_config)
    (Persist.save_failed_code "09DPR0003C" "Target element not found"
       default_config "2024-05-01T10:00:00.000000" ∅)
  = Utils.check_failed_codes (failed_codes_file default_config) ∅ ++
    [("09DPR0003C", "Target element not found", "2024-05-01T10:00:00.000000")].
Proof.
  refine (proj1 (failed_code_read_back default_config "09DPR0003C"
            "Target element not found" "2024-05-01T10:00:00.000000" ∅
            _ _ _ _ _ _) _).
  - left. reflexivity.
  - split; reflexivity.
  - split; reflexivity.
  - split; reflexivity.
  - reflexivity.
  - reflexivity.
  - reflexivity.
Defined.
(** ** Resetting the progress files *)

Section Reset.

Import Files Utils.

Variable backup_path : string -> string.

Lemma reset_file_hard (files : fs) (file_path : string) :
  reset_file false backup_path files file_path = delete file_path files.
Proof.
  unfold reset_file, unlink. destruct (files !! file_path) eqn:E; [reflexivity|].
  symmetry. apply delete_id, E.
Qed.

(** X4. [reset_progress] without backup removes the four files and leaves
    every other file as it was. *)
Theorem reset_hard_deletes (progress_file output_file failed_file log_file : string)
    (files : fs) (path : string) :
  reset_progress false backup_path progress_file output_file failed_file
    log_file files !! path
  = if decide (path ∈ [progress_file; output_file; failed_file; log_file])
    then None else files !! path.
Proof.
  unfold reset_progress. cbn [foldl]. rewrite !reset_file_hard.
  rewrite !lookup_delete.
  destruct (decide (path ∈ _)) as [Hin|Hnin].
  - rewrite !elem_of_cons in Hin.
    repeat case_decide; try reflexivity. exfalso.
    destruct Hin as [?|[?|[?|[?|Hin]]]]; try congruence. inversion Hin.
  - rewrite !not_elem_of_cons in Hnin. destruct Hnin as (A & B & C & D & _).
    rewrite !decide_False by congruence. reflexivity.
Qed.

Lemma reset_file_backup_lookup (files : fs) (q path : string) :
  backup_path q <> q ->
  reset_file true backup_path files q !! path =
  if decide (path = q) then None
  else if decide (path = backup_path q) then
         match files !! q with Some c => Some c | None => files !! path end
       else files !! path.
Proof.
  intros Hq. unfold reset_file, rename.
  destruct (files !! q) as [c|] eqn:E.
  - rewrite lookup_insert, lookup_delete.
    destruct (decide (path = q)) as [->|Hne].
    + rewrite decide_False by exact Hq. rewrite decide_True by reflexivity.
      reflexivity.
    + destruct (decide (path = backup_path q)) as [->|Hne2].
      * rewrite decide_True by reflexivity. reflexivity.
      * rewrite !decide_False by congruence. reflexivity.
  - destruct (decide (path = q)) as [->|Hne]; [exact E|].
    destruct (decide (path = backup_path q)); reflexivity.
Qed.

(** The loop of [reset_progress] with backup, over any list of paths none
    of which is a backup path and whose backup paths differ. *)
Lemma reset_backup_loop (qs : list string) (files : fs) :
  (forall q q', q ∈ qs -> q' ∈ qs -> backup_path q <> q') ->
  (forall q q', q ∈ qs -> q' ∈ qs -> q <> q' -> backup_path q <> backup_path q') ->
  let files' := foldl (reset_file true backup_path) files qs in
  (forall q, q ∈ qs -> files' !! q = None) /\
  (forall q c, q ∈ qs -> files !! q = Some c -> files' !! backup_path q = Some c) /\
  (forall path,
     path ∉ qs ->
     (forall q, q ∈ qs -> is_Some (files !! q) -> backup_path q <> path) ->
     files' !! path = files !! path).
Proof.
  revert files. induction qs as [|q0 qs IH]; intros files H1 H2; cbn [foldl].
  - cbn zeta. split; [intros q Hq; inversion Hq|].
    split; [intros q c Hq; inversion Hq|]. reflexivity.
  - assert (Hq0 : backup_path q0 <> q0) by (apply H1; left).
    set (files1 := reset_file true backup_path files q0).
    assert (Hl : forall path, files1 !! path =
              if decide (path = q0) then None
              else if decide (path = backup_path q0) then
                     match files !! q0 with Some c => Some c | None => files !! path end
                   else files !! path)
      by (intros path; apply reset_file_backup_lookup, Hq0).
    destruct (IH files1) as (A & B & C).
    { intros q q' Hq Hq'. apply H1; right; assumption. }
    { intros q q' Hq Hq'. apply H2; right; assumption. }
    assert (Hstay : forall q, q ∈ qs -> is_Some (files1 !! q) ->
                    q <> q0 /\ files1 !! q = files !! q).
    { intros q Hq Hs. rewrite Hl in Hs |- *.
      destruct (decide (q = q0)) as [->|Hne]; [destruct Hs; discriminate|].
      split; [exact Hne|].
      rewrite decide_False; [reflexivity|].
      intros ->. eapply H1; [left| |reflexivity]. right. exact Hq. }
    cbn zeta in *. split; [|split].
    + intros q [->|Hq]%elem_of_cons; [|apply A, Hq].
      destruct (decide (q0 ∈ qs)) as [Hin|Hnin]; [apply A, Hin|].
      rewrite C; [rewrite Hl, decide_True by reflexivity; reflexivity|exact Hnin|].
      intros q Hq _. apply H1; [right; exact Hq|left].
    + intros q c Hq Hc. destruct (decide (q = q0)) as [->|Hne].
      * rewrite C.
        -- rewrite Hl, decide_False by exact Hq0.
           rewrite decide_True by reflexivity. rewrite Hc. reflexivity.
        -- intros Hin. eapply H1; [left| |reflexivity]. right. exact Hin.
        -- intros q Hq' Hs. destruct (Hstay q Hq' Hs) as [Hne _].
           apply H2; [right; exact Hq'|left|exact Hne].
      * apply elem_of_cons in Hq as [->|Hq]; [congruence|].
        apply B; [exact Hq|]. rewrite Hl, decide_False by exact Hne.
        rewrite decide_False; [exact Hc|].
        intros ->. eapply H1; [left| |reflexivity]. right. exact Hq.
    + intros path Hnin Hno. apply not_elem_of_cons in Hnin as [Hne Hnin].
      rewrite C; [|exact Hnin|].
      * rewrite Hl, decide_False by exact Hne.
        destruct (decide (path = backup_path q0)) as [->|]; [|reflexivity].
        destruct (files !! q0) as [c|] eqn:E; [|reflexivity].
        exfalso. eapply Hno; [left| |reflexivity]. rewrite E. eauto.
      * intros q Hq Hs. destruct (Hstay q Hq Hs) as [_ E].
        apply Hno; [right; exact Hq|]. rewrite <- E. exact Hs.
Qed.

(** X5. [reset_progress] with backup, when no backup path is one of the
    four paths and different paths have different backup paths: afterwards
    none of the four files exists, each of them that existed is found with
    its content under its backup path, and every path that is neither one
    of the four nor the backup path of an existing one is as it was. *)
Theorem reset_with_backup_moves
    (progress_file output_file failed_file log_file : string) (files : fs) :
  let four := [progress_file; output_file; failed_file; log_file] in
  (forall q q', q ∈ four -> q' ∈ four -> backup_path q <> q') ->
  (forall q q', q ∈ four -> q' ∈ four -> q <> q' ->
     backup_path q <> backup_path q') ->
  let files' :=
    reset_progress true backup_path progress_file output_file failed_file
      log_file files in
  (forall q, q ∈ four -> files' !! q = None) /\
  (forall q c, q ∈ four -> files !! q = Some c ->
     files' !! backup_path q = Some c) /\
  (forall path,
     path ∉ four ->
     (forall q, q ∈ four -> is_Some (files !! q) -> backup_path q <> path) ->
     files' !! path = files !! path).
Proof. intros four H1 H2. apply reset_backup_loop; assumption. Qed.

End Reset.

Lemma reset_with_backup_moves_witness :
  Utils.reset_progress true Examples.stamped "scraper_progress.txt"
    "ct_codes_coords_googlelinks.txt" "failed_ct_codes.txt" "scraper_log.txt"
    {[ "scraper_progress.txt" := Examples.sample_progress ]}
    !! "scraper_progress_20240501_100000.txt"
  = Some Examples.sample_progress.
Proof.
  refine (proj1 (proj2 (reset_with_backup_moves Examples.stamped
            "scraper_progress.txt" "ct_codes_coords_googlelinks.txt"
            "failed_ct_codes.txt" "scraper_log.txt"
            {[ "scraper_progress.txt" := Examples.sample_progress ]} _ _))
            "scraper_progress.txt" Examples.sample_progress _ _).
  - intros q q' Hq Hq'. rewrite !elem_of_cons in Hq, Hq'.
    destruct Hq as [->|[->|[->|[->|Hq]]]]; [| | | |inversion Hq];
      (destruct Hq' as [->|[->|[->|[->|Hq']]]]; [| | | |inversion Hq']);
      vm_compute; discriminate.
  - intros q q' Hq Hq'. rewrite !elem_of_cons in Hq, Hq'.
    destruct Hq as [->|[->|[->|[->|Hq]]]]; [| | | |inversion Hq];
      (destruct Hq' as [->|[->|[->|[->|Hq']]]]; [| | | |inversion Hq']);
      intros Hne; try congruence; vm_compute; discriminate.
  - left.
  - apply lookup_singleton_eq.
Defined.

(** ** The export of coordinates *)

Section CsvExport.

Import Files Persist Utils UtilsSpec ReSpec.

Lemma split_cons (sep : ascii) (s : string) :
  exists h t, Text.split sep s = h :: t.
Proof.
  induction s as [|c s (h & t & IH)]; [exists "", []; reflexivity|].
  cbn. destruct (decide (c = sep)); rewrite IH; eauto.
Qed.

Lemma all_contains (p : ascii -> bool) (x : ascii) (s : string) :
  p x = false -> Text.all p s = true -> Text.contains x s = false.
Proof.
  intros Hx. induction s as [|c s IH]; [reflexivity|]. cbn.
  intros [Hc Hs]%andb_true_iff.
  destruct (decide (c = x)) as [->|]; [congruence|auto].
Qed.

Lemma all_impl (p q : ascii -> bool) (s : string) :
  (forall c, p c = true -> q c = true) ->
  Text.all p s = true -> Text.all q s = true.
Proof.
  intros Hpq. induction s as [|c s IH]; [reflexivity|]. cbn.
  intros [Hc Hs]%andb_true_iff. rewrite (Hpq c Hc), (IH Hs). reflexivity.
Qed.

(** A text without white space is its own [strip]. *)
Lemma strip_no_space (s : string) :
  Text.all (fun c => negb (Text.is_space c)) s = true -> Text.strip s = s.
Proof.
  intros H. unfold Text.strip.
  assert (Hl : Text.lstrip s = s).
  { destruct s as [|c s]; [reflexivity|]. cbn in *.
    apply andb_true_iff in H as [Hc _]. apply negb_true_iff in Hc.
    rewrite Hc. reflexivity. }
  rewrite Hl. induction s as [|c s IH]; [reflexivity|]. cbn in *.
  apply andb_true_iff in H as [Hc Hs]. apply negb_true_iff in Hc.
  rewrite Hc. cbn. rewrite IH; [reflexivity|exact Hs|].
  destruct s as [|c' s]; [reflexivity|]. cbn in *.
  apply andb_true_iff in Hs as [Hc' _]. apply negb_true_iff in Hc'.
  rewrite Hc'. reflexivity.
Qed.

Lemma digit_plain (c : ascii) : Re.digit c = true -> plain c = true.
Proof. unfold plain. intros ->. reflexivity. Qed.

Lemma paired_no_space (c : ascii) :
  paired c = true -> negb (Text.is_space c) = true.
Proof.
  destruct c as [[] [] [] [] [] [] [] []]; cbn; intros H;
    first [discriminate | reflexivity].
Qed.

Lemma unsigned_plain (s : string) : unsigned_number s -> Text.all plain s = true.
Proof.
  intros (ip & fp & -> & [_ Hip] & [_ Hfp]).
  rewrite all_app. rewrite (all_impl _ _ _ digit_plain Hip). cbn.
  apply (all_impl _ _ _ digit_plain Hfp).
Qed.

Lemma unsigned_no_dash (s : string) :
  unsigned_number s -> Text.contains Text.dash s = false.
Proof. intros H. apply (all_contains plain); [reflexivity|apply unsigned_plain, H]. Qed.

Lemma unsigned_no_comma (s : string) :
  unsigned_number s -> Text.contains comma s = false.
Proof. intros H. apply (all_contains plain); [reflexivity|apply unsigned_plain, H]. Qed.

Lemma plain_paired (s : string) : Text.all plain s = true -> Text.all paired s = true.
Proof. apply all_impl. intros c H. unfold paired. rewrite H. reflexivity. Qed.

Lemma pair_strip (lat lng : string) :
  Text.all plain lat = true -> Text.all plain lng = true ->
  Text.strip (lat +:+ String comma lng) = lat +:+ String comma lng.
Proof.
  intros Hlat Hlng. apply strip_no_space.
  apply (all_impl paired); [apply paired_no_space|].
  rewrite all_app, (plain_paired _ Hlat). cbn. apply plain_paired, Hlng.
Qed.

Lemma line_not_blank (a b : string) :
  Text.is_empty (Text.strip (a +:+ String Text.dash b)) = false.
Proof.
  apply (not_blank Text.dash); [reflexivity|].
  rewrite contains_app. cbn. apply orb_true_r.
Qed.

(** The line of a saved result, cut at its first two dashes. *)
Lemma result_line_eol (d : SchoolData) (lat lng link : string) :
  result_line d lat lng link +:+ eol
  = Text.fmt (sd_ct_code d) +:+
    String Text.dash ((lat +:+ String comma lng) +:+ String Text.dash (link +:+ eol)).
Proof. unfold result_line. rewrite !app_assoc_str. reflexivity. Qed.

(** X6. The line that [save_result_incrementally] writes for an identifier
    without a dash and two coordinates without a sign is exported by
    [extract_coordinates_to_csv] as the row of the stripped identifier, the
    two coordinates and the stripped link. *)
Theorem export_unsigned_coordinates (d : SchoolData) (lat lng link : string) :
  Text.contains Text.dash (Text.fmt (sd_ct_code d)) = false ->
  unsigned_number lat -> unsigned_number lng ->
  extract_line (result_line d lat lng link +:+ eol)
  = Row {| csv_ct_code := Text.strip (Text.fmt (sd_ct_code d));
           csv_latitude := lat; csv_longitude := lng;
           google_maps_url := Text.strip link |}.
Proof.
  intros Hcode Hlat Hlng. rewrite result_line_eol. unfold extract_line.
  rewrite line_not_blank, split_sep by exact Hcode.
  rewrite split_sep.
  2: { rewrite contains_app. cbn.
       rewrite (unsigned_no_dash lat Hlat), (unsigned_no_dash lng Hlng). reflexivity. }
  destruct (Text.split Text.dash (link +:+ eol)) as [|p2 rest] eqn:E.
  { destruct (split_cons Text.dash (link +:+ eol)) as (h & t & E'). congruence. }
  rewrite <- E, join_split, strip_app_eol.
  rewrite pair_strip by (apply unsigned_plain; assumption).
  rewrite contains_app. cbn [Text.contains]. rewrite decide_True by reflexivity.
  rewrite orb_true_r.
  rewrite split_sep by (apply unsigned_no_comma, Hlat).
  rewrite split_no_sep by (apply unsigned_no_comma, Hlng). reflexivity.
Qed.

(** X7. Coordinates with a minus sign are not exported as saved: for a
    negative longitude the row has an empty longitude and, as its link, the
    digits of the longitude followed by a dash and the link; for a negative
    latitude the line adds no row at all. *)
Theorem export_mangles_signed_coordinates (d : SchoolData)
    (lat lng link : string) :
  Text.contains Text.dash (Text.fmt (sd_ct_code d)) = false ->
  unsigned_number lat -> unsigned_number lng ->
  extract_line (result_line d lat ("-" +:+ lng) link +:+ eol)
  = Row {| csv_ct_code := Text.strip (Text.fmt (sd_ct_code d));
           csv_latitude := lat; csv_longitude := "";
           google_maps_url := Text.strip (lng +:+ "-" +:+ link) |} /\
  (forall lng', extract_line (result_line d ("-" +:+ lat) lng' link +:+ eol) = NoRow).
Proof.
  intros Hcode Hlat Hlng. split.
  - rewrite result_line_eol. unfold extract_line.
    rewrite line_not_blank, split_sep by exact Hcode.
    change (lat +:+ String comma ("-" +:+ lng))
      with (lat +:+ String comma (String Text.dash lng)).
    replace ((lat +:+ String comma (String Text.dash lng)) +:+
             String Text.dash (link +:+ eol))
      with ((lat +:+ ",") +:+ String Text.dash (lng +:+ String Text.dash (link +:+ eol)))
      by (rewrite !app_assoc_str; reflexivity).
    rewrite split_sep.
    2: { rewrite contains_app, (unsigned_no_dash lat Hlat). reflexivity. }
    rewrite split_sep by (apply unsigned_no_dash, Hlng).
    destruct (Text.split Text.dash (link +:+ eol)) as [|p2 rest] eqn:E.
    { destruct (split_cons Text.dash (link +:+ eol)) as (h & t & E'). congruence. }
    change (join Text.dash (lng :: p2 :: rest))
      with (lng +:+ String Text.dash (join Text.dash (p2 :: rest))).
    rewrite <- E, join_split.
    replace (lng +:+ String Text.dash (link +:+ eol))
      with ((lng +:+ "-" +:+ link) +:+ eol)
      by (rewrite !app_assoc_str; reflexivity).
    rewrite strip_app_eol.
    change (lat +:+ ",") with (lat +:+ String comma "").
    rewrite pair_strip by first [apply unsigned_plain; assumption | reflexivity].
    rewrite contains_app. cbn [Text.contains]. rewrite decide_True by reflexivity.
    rewrite orb_true_r.
    rewrite split_sep by (apply unsigned_no_comma, Hlat). reflexivity.
  - intros lng'. rewrite result_line_eol. unfold extract_line.
    rewrite line_not_blank, split_sep by exact Hcode.
    change ((("-" +:+ lat) +:+ String comma lng') +:+
            String Text.dash (link +:+ eol))
      with ("" +:+ String Text.dash
              ((lat +:+ String comma lng') +:+ String Text.dash (link +:+ eol))).
    rewrite split_sep by reflexivity.
    match goal with |- context [Text.split Text.dash ?x] =>
      destruct (split_cons Text.dash x) as (h & t & ->) end.
    reflexivity.
Qed.

Lemma extract_lines_rows (lines : list string) :
  (forall line, line ∈ lines -> extract_line line <> UnpackError) ->
  extract_lines lines = Some (omap exported_row lines).
Proof.
  induction lines as [|line lines IH]; intros Hall; [reflexivity|].
  cbn [extract_lines].
  change (omap exported_row (line :: lines))
    with (match exported_row line with
          | Some r => r :: omap exported_row lines
          | None => omap exported_row lines
          end).
  unfold exported_row at 1.
  assert (Hline : extract_line line <> UnpackError) by (apply Hall; left).
  rewrite IH by (intros l Hl; apply Hall; right; exact Hl).
  destruct (extract_line line); [reflexivity|reflexivity|congruence].
Qed.

Lemma extract_lines_raised (lines : list string) (line : string) :
  line ∈ lines -> extract_line line = UnpackError -> extract_lines lines = None.
Proof.
  intros Hin Hline. induction lines as [|l lines IH]; [inversion Hin|].
  cbn [extract_lines]. apply elem_of_cons in Hin as [<-|Hin].
  - rewrite Hline. reflexivity.
  - rewrite (IH Hin). destruct (extract_line l); reflexivity.
Qed.

(** X8. The export is all or nothing: a line whose second field holds two
    commas makes the unpacking raise, one such line makes the whole call
    raise, and without such a line the rows exported are those of the
    lines, in file order, nothing being written when there is none. *)
Theorem export_all_or_nothing (input_file content : string) (files : fs) :
  files !! input_file = Some content ->
  let lines := Text.readlines content in
  (forall code mid rest a r,
     Text.contains Text.dash code = false ->
     Text.contains Text.dash mid = false ->
     Text.strip mid = a +:+ "," +:+ r ->
     Text.contains comma a = false -> Text.contains comma r = true ->
     extract_line (code +:+ "-" +:+ mid +:+ "-" +:+ rest) = UnpackError) /\
  ((exists line, line ∈ lines /\ extract_line line = UnpackError) ->
   extract_coordinates_to_csv input_file files = Raised) /\
  ((forall line, line ∈ lines -> extract_line line <> UnpackError) ->
   extract_coordinates_to_csv input_file files =
   match omap exported_row lines with
   | [] => NothingToExport
   | r :: results => Exported (r :: results)
   end).
Proof.
  intros Hf lines. split; [|split].
  - intros code mid rest a r Hcode Hmid Hs Ha Hr. unfold extract_line.
    repeat change ("-" +:+ ?x) with (String Text.dash x).
    rewrite line_not_blank, split_sep by exact Hcode.
    rewrite split_sep by exact Hmid.
    destruct (split_cons Text.dash rest) as (h & t & ->).
    rewrite Hs. change ("," +:+ r) with (String comma r).
    rewrite contains_app. cbn [Text.contains]. rewrite decide_True by reflexivity.
    rewrite orb_true_r, split_sep by exact Ha.
    destruct (split_contains _ _ Hr) as (p0 & p1 & ps & ->). reflexivity.
  - intros (line & Hin & Hline). unfold extract_coordinates_to_csv.
    rewrite Hf. fold lines. rewrite (extract_lines_raised lines line Hin Hline).
    reflexivity.
  - intros Hall. unfold extract_coordinates_to_csv. rewrite Hf. fold lines.
    rewrite (extract_lines_rows lines Hall).
    destruct (omap exported_row lines); reflexivity.
Qed.

End CsvExport.

Lemma export_unsigned_coordinates_witness :
  Utils.extract_line
    (Persist.result_line Examples.found_data "19.4326" "99.1332"
       "https://maps.example/place/19.4326,99.1332" +:+ Files.eol)
  = Utils.Row {| Utils.csv_ct_code := "09DPR0001A";
                 Utils.csv_latitude := "19.4326";
                 Utils.csv_longitude := "99.1332";
                 Utils.google_maps_url :=
                   "https://maps.example/place/19.4326,99.1332" |}.
Proof.
  refine (export_unsigned_coordinates Examples.found_data "19.4326" "99.1332"
            "https://maps.example/place/19.4326,99.1332" eq_refl _ _).
  - exists "19", "4326". repeat split; discriminate.
  - exists "99", "1332". repeat split; discriminate.
Defined.

Lemma export_mangles_signed_coordinates_witness :
  Utils.extract_line
    (Persist.result_line Examples.found_data "19.4326" "-99.1332"
       "https://www.google.com/maps/place/19.4326,-99.1332" +:+ Files.eol)
  = Utils.Row {| Utils.csv_ct_code := "09DPR0001A";
                 Utils.csv_latitude := "19.4326";
                 Utils.csv_longitude := "";
                 Utils.google_maps_url :=
                   "99.1332-https://www.google.com/maps/place/19.4326,-99.1332" |}.
Proof.
  refine (proj1 (export_mangles_signed_coordinates Examples.found_data
            "19.4326" "99.1332"
            "https://www.google.com/maps/place/19.4326,-99.1332" eq_refl _ _)).
  - exists "19", "4326". repeat split; discriminate.
  - exists "99", "1332". repeat split; discriminate.
Defined.

Lemma export_all_or_nothing_witness :
  Utils.extract_coordinates_to_csv "results.txt"
    {[ "results.txt" :=
         "09DPR0001A-19.4326,99.1332-https://maps.example/a" +:+ Files.eol +:+
         "09DPR0002B-19,43,26-https://maps.example/b" +:+ Files.eol ]}
  = Utils.Raised.
Proof.
  refine (proj1 (proj2 (export_all_or_nothing "results.txt" _ _
                          (lookup_singleton_eq _ _))) _).
  exists ("09DPR0002B-19,43,26-https://maps.example/b" +:+ Files.eol).
  split; [|reflexivity]. vm_compute. right. left.
Defined.

(** ** What is saved is read back *)

Section RoundTrips.

Import Files Persist Job Dashboard ReSpec TextSpec.

(** A save that reports success appended one line to both files. *)
Lemma save_result_true (config : ScraperConfig) (r : ScrapeResult)
    (files0 files1 : fs) (logged : list log_msg) :
  save_result_incrementally r config files0 = (true, files1, logged) ->
  exists d link pre lat lng post,
    school_data r = Some d /\ success d = true /\ href d = Some link /\
    link = pre +:+ "place/" +:+ lat +:+ "," +:+ lng +:+ post /\
    pointed_number lat /\ pointed_number lng /\
    files1 =
      append_file (progress_file config) (result_line d lat lng link +:+ eol)
        (append_file (output_file config) (result_line d lat lng link +:+ eol)
           files0).
Proof.
  unfold save_result_incrementally.
  destruct (school_data r) as [d|]; [|discriminate].
  destruct (success d) eqn:Hs; [|discriminate].
  destruct (href d) as [link|] eqn:Hh; [|discriminate].
  destruct (Text.is_empty link); [discriminate|].
  destruct (Re.search coord_pattern link) as [[segs rest]|] eqn:E; [|discriminate].
  intros [= <- _].
  apply coord_search_Some in E as (pre & Hlink & H1 & H2).
  exists d, link, pre, (Re.group coord_pattern segs 1),
    (Re.group coord_pattern segs 2), rest.
  repeat split; assumption.
Qed.

Lemma foldl_snoc {A B : Type} (f : A -> B -> A) (a : A) (l : list B) (x : B) :
  foldl f a (l ++ [x]) = f (foldl f a l) x.
Proof. rewrite foldl_app. reflexivity. Qed.

(** One more line in the progress file is one more processed code. *)
Lemma load_progress_append (path code rest : string) (files0 : fs) :
  ends_lines (default "" (files0 !! path)) ->
  Text.contains Text.dash code = false ->
  Text.contains Text.newline (code +:+ String Text.dash rest) = false ->
  load_progress path
    (append_file path ((code +:+ String Text.dash rest) +:+ eol) files0)
  = {[Text.strip code]} ∪ load_progress path files0.
Proof.
  intros Hends Hcode Hline. unfold load_progress.
  rewrite lookup_append_eq.
  assert (Hold : foldl load_progress_line ∅
                   (Text.readlines (default "" (files0 !! path)))
                 = match files0 !! path with
                   | Some content => foldl load_progress_line ∅ (Text.readlines content)
                   | None => ∅
                   end).
  { destruct (files0 !! path); reflexivity. }
  rewrite <- Hold, readlines_append, foldl_snoc by assumption.
  unfold load_progress_line at 1.
  rewrite app_assoc_str. cbn [String.append].
  rewrite line_not_blank, split_sep by exact Hcode. reflexivity.
Qed.

(** X9. After [save_result_incrementally] has saved a result, the progress
    file ending its lines and the scraped identifier and link holding no
    dash (identifier) and no line break, [load_progress] returns the
    processed set enlarged by the stripped scraped identifier, so that no
    later run has this identifier among its pending codes; the progress
    file again ends its lines. *)
Theorem saved_result_is_skipped (config : ScraperConfig) (r : ScrapeResult)
    (files0 files1 : fs) (logged : list log_msg) (d : SchoolData)
    (link : string) :
  save_result_incrementally r config files0 = (true, files1, logged) ->
  school_data r = Some d -> href d = Some link ->
  output_file config <> progress_file config ->
  ends_lines (default "" (files0 !! progress_file config)) ->
  Text.contains Text.dash (Text.fmt (sd_ct_code d)) = false ->
  one_line (Text.fmt (sd_ct_code d)) -> one_line link ->
  let code := Text.strip (Text.fmt (sd_ct_code d)) in
  load_progress (progress_file config) files1
  = {[code]} ∪ load_progress (progress_file config) files0 /\
  (forall all_ct_codes, code ∉ pending config files1 all_ct_codes) /\
  ends_lines (default "" (files1 !! progress_file config)).
Proof.
  intros Hsave Hd Hh Hne Hends Hdash [Hcode _] [Hlink _].
  apply save_result_true in Hsave
    as (d' & link' & pre & lat & lng & post & Hd' & _ & Hh' & El & _ & _ & ->).
  rewrite Hd in Hd'. injection Hd' as <-. rewrite Hh in Hh'. injection Hh' as <-.
  set (rest := (lat +:+ "," +:+ lng) +:+ "-" +:+ link).
  change (result_line d lat lng link)
    with (Text.fmt (sd_ct_code d) +:+ String Text.dash rest).
  assert (Hline : Text.contains Text.newline
                    (Text.fmt (sd_ct_code d) +:+ String Text.dash rest) = false).
  { pose proof Hlink as Hparts. rewrite El in Hparts.
    rewrite !contains_app in Hparts.
    apply orb_false_iff in Hparts as [_ Hparts].
    apply orb_false_iff in Hparts as [_ Hparts].
    apply orb_false_iff in Hparts as [Hlat Hparts].
    apply orb_false_iff in Hparts as [_ Hparts].
    apply orb_false_iff in Hparts as [Hlng _].
    rewrite contains_app, Hcode. cbn [Text.contains orb].
    rewrite decide_False by discriminate. unfold rest.
    rewrite !contains_app, Hlat, Hlng, Hlink. reflexivity. }
  cbn zeta.
  assert (Hload : load_progress (progress_file config)
            (append_file (progress_file config)
               ((Text.fmt (sd_ct_code d) +:+ String Text.dash rest) +:+ eol)
               (append_file (output_file config)
                  ((Text.fmt (sd_ct_code d) +:+ String Text.dash rest) +:+ eol)
                  files0))
          = {[Text.strip (Text.fmt (sd_ct_code d))]}
            ∪ load_progress (progress_file config) files0).
  { rewrite load_progress_append; [|rewrite lookup_append_ne by exact Hne; exact Hends
                                   |exact Hdash|exact Hline].
    unfold load_progress at 1. rewrite lookup_append_ne by exact Hne. reflexivity. }
  split; [exact Hload|]. split.
  - intros all_ct_codes [Hnot _]%list_elem_of_filter. apply Hnot.
    rewrite Hload. apply elem_of_union. left. apply elem_of_singleton. reflexivity.
  - rewrite lookup_append_eq. cbn [default from_option id]. right.
    eexists. rewrite <- app_assoc_str. reflexivity.
Qed.

Lemma rstrip_app_char (a b : string) (c : ascii) :
  Text.is_space c = false ->
  Text.rstrip (a +:+ String c b) = a +:+ String c (Text.rstrip b).
Proof.
  intros Hc. induction a as [|x a IH]; cbn.
  - rewrite Hc. reflexivity.
  - rewrite IH. destruct a; cbn; rewrite andb_false_r; reflexivity.
Qed.

Lemma pointed_decimal (s : string) : pointed_number s -> decimal_number s.
Proof.
  intros (sg & ip & fp & -> & Hsg & Hip & [_ Hfp]).
  exists sg, ip, ("." +:+ fp). repeat split; try assumption; try apply Hip.
  right. exists fp. split; [reflexivity|exact Hfp].
Qed.

(** X10. The file that the job writes is the file that the dashboard
    loads, and a line written by [save_result_incrementally] for an
    identifier that is not empty, holds no dash and starts with no white
    space is parsed by the loader into the record of that identifier and of
    the values of the two saved coordinates. *)
Theorem saved_line_is_loaded (d : SchoolData) (lat lng link : string) :
  identifier (Text.fmt (sd_ct_code d)) ->
  Text.starts_with Text.is_space (Text.fmt (sd_ct_code d)) = false ->
  pointed_number lat -> pointed_number lng ->
  output_file default_config = coordinates_file /\
  exists la lo,
    float_ lat = Some la /\ float_ lng = Some lo /\
    parse_line (result_line d lat lng link +:+ eol)
    = Parsed {| school_code := Text.fmt (sd_ct_code d);
                latitude := la; longitude := lo |}.
Proof.
  intros Hid Hhead Hlat Hlng. split; [reflexivity|].
  apply (parse_line_shaped _ _ lat lng
           (String Text.dash (Text.rstrip (link +:+ eol))));
    [|exact Hid|apply pointed_decimal, Hlat|apply pointed_decimal, Hlng|].
  - unfold Text.strip, result_line. rewrite lstrip_id.
    + replace ((Text.fmt (sd_ct_code d) +:+ "-" +:+ (lat +:+ "," +:+ lng) +:+ "-"
                +:+ link) +:+ eol)
        with ((Text.fmt (sd_ct_code d) +:+ "-" +:+ lat +:+ "," +:+ lng)
              +:+ String Text.dash (link +:+ eol))
        by (rewrite !app_assoc_str; reflexivity).
      rewrite rstrip_app_char by reflexivity.
      rewrite !app_assoc_str. reflexivity.
    + destruct Hid as [Hne _].
      destruct (Text.fmt (sd_ct_code d)); [congruence|exact Hhead].
  - split; [reflexivity|]. right. reflexivity.
Qed.

End RoundTrips.

Lemma saved_result_is_skipped_witness :
  "09DPR0001A" ∉
  Job.pending default_config
    (Persist.save_result_incrementally Examples.found_result default_config ∅).1.2
    (Job.read_codes Examples.sample_input).
Proof.
  refine (proj1 (proj2 (saved_result_is_skipped default_config
            Examples.found_result ∅ _ _ Examples.found_data
            "https://www.google.com/maps/place/19.4326,-99.1332/@19.4326,-99.1332,17z"
            _ eq_refl eq_refl _ _ eq_refl _ _)) _).
  - vm_compute. reflexivity.
  - discriminate.
  - left. reflexivity.
  - split; reflexivity.
  - split; reflexivity.
Defined.

Lemma saved_line_is_loaded_witness :
  exists la lo,
    Dashboard.float_ "19.4326" = Some la /\
    Dashboard.float_ "-99.1332" = Some lo /\
    Dashboard.parse_line
      (Persist.result_line Examples.found_data "19.4326" "-99.1332"
         "https://www.google.com/maps/place/19.4326,-99.1332" +:+ Files.eol)
    = Dashboard.Parsed {| Dashboard.school_code := "09DPR0001A";
                          Dashboard.latitude := la;
                          Dashboard.longitude := lo |}.
Proof.
  refine (proj2 (saved_line_is_loaded Examples.found_data "19.4326" "-99.1332"
            "https://www.google.com/maps/place/19.4326,-99.1332" _ eq_refl _ _)).
  - split; [discriminate|reflexivity].
  - exists "", "19", "4326". repeat split; try discriminate. left. reflexivity.
  - exists "-", "99", "1332". repeat split; try discriminate. right. reflexivity.
Defined.

(** ** The retry of failed codes *)

Section RetryFailedFacts.

Import Files Persist Job RetryFailed RetryFailedSpec.

Variables (config : ScraperConfig) (w : retry_world).

Let F := failed_codes_file config.

(** Whether a result is saved does not depend on the files. *)
Lemma save_flag (r : ScrapeResult) (files0 : fs) :
  (save_result_incrementally r config files0).1.1 = saves config r.
Proof.
  unfold saves, save_result_incrementally.
  destruct (school_data r) as [d|]; [|reflexivity].
  destruct (success d); [|reflexivity].
  destruct (href d) as [link|]; [|reflexivity].
  destruct (Text.is_empty link); [reflexivity|].
  destruct (Re.search coord_pattern link) as [[segs rest]|]; reflexivity.
Qed.

(** A save touches the output file and the progress file only. *)
Lemma save_result_other (r : ScrapeResult) (files0 : fs) (path : string) :
  path <> output_file config -> path <> progress_file config ->
  (save_result_incrementally r config files0).1.2 !! path = files0 !! path.
Proof.
  intros Ho Hp. unfold save_result_incrementally.
  destruct (school_data r) as [d|]; [|reflexivity].
  destruct (success d); [|reflexivity].
  destruct (href d) as [link|]; [|reflexivity].
  destruct (Text.is_empty link); [reflexivity|].
  destruct (Re.search coord_pattern link) as [[segs rest]|]; [|reflexivity].
  cbn [fst snd]. rewrite !lookup_append_ne by congruence. reflexivity.
Qed.

Lemma retried_app (t1 t2 : list retry_event) :
  RetryFailed.submitted (t1 ++ t2)
  = RetryFailed.submitted t1 ++ RetryFailed.submitted t2.
Proof. apply omap_app. Qed.

Lemma retried_logged (ms : list log_msg) :
  RetryFailed.submitted (map (fun m => Ran (JLog INFO m)) ms) = [].
Proof. induction ms; [reflexivity|assumption]. Qed.

Lemma retried_batch (b : list string) :
  RetryFailed.submitted (map (fun c => Ran (Submit c)) b) = b.
Proof. induction b as [|c b IH]; [reflexivity|]. cbn. f_equal. exact IH. Qed.

Lemma concat_lines_app (a b : list string) :
  Merge.concat_lines (a ++ b) = Merge.concat_lines a +:+ Merge.concat_lines b.
Proof.
  induction a as [|x a IH]; [reflexivity|]. cbn [app Merge.concat_lines].
  rewrite IH, app_assoc_str. reflexivity.
Qed.

Hypothesis (HFO : F <> output_file config) (HFP : F <> progress_file config).

(** What handling one result does. *)
Lemma process_result_effect (st : retry_state) (result : task_result) :
  let st' := RetryFailed.process_result config w st result in
  RetryFailed.tasks_created st' = RetryFailed.tasks_created st /\
  RetryFailed.draws st' = RetryFailed.draws st /\
  RetryFailed.submitted (RetryFailed.trace st')
    = RetryFailed.submitted (RetryFailed.trace st) /\
  (forall path, path <> F -> path <> output_file config ->
     path <> progress_file config ->
     RetryFailed.files st' !! path = RetryFailed.files st !! path) /\
  match result with
  | TaskRaised _ => st' = st
  | TaskDone r =>
      if saves config r then
        RetryFailed.successful_count st' = RetryFailed.successful_count st + 1 /\
        still_failed_count st' = still_failed_count st /\
        RetryFailed.ticks st' = RetryFailed.ticks st /\
        RetryFailed.files st' !! F = RetryFailed.files st !! F
      else
        RetryFailed.successful_count st' = RetryFailed.successful_count st /\
        still_failed_count st' = still_failed_count st + 1 /\
        RetryFailed.ticks st' = S (RetryFailed.ticks st) /\
        RetryFailed.files st' !! F =
          Some (default "" (RetryFailed.files st !! F) +:+
                failed_line (ct_code r)
                  (Text.or_default (last_error r) "Unknown error")
                  (now (job w) (RetryFailed.ticks st)))
  end.
Proof.
  destruct result as [err|r]; [cbn; repeat split|].
  cbn zeta. unfold RetryFailed.process_result.
  pose proof (save_flag r (RetryFailed.files st)) as Hflag.
  pose proof (save_result_other r (RetryFailed.files st)) as Hother.
  destruct (save_result_incrementally r config (RetryFailed.files st))
    as [[saved files'] logged].
  cbn [fst snd] in Hflag, Hother. rewrite <- Hflag.
  destruct saved;
    cbn [RetryFailed.files RetryFailed.successful_count still_failed_count
         RetryFailed.tasks_created RetryFailed.draws RetryFailed.ticks
         RetryFailed.trace].
  - rewrite retried_app, retried_logged, app_nil_r.
    repeat split; try reflexivity; [|apply Hother; assumption].
    intros path H1 H2 H3. apply Hother; assumption.
  - unfold save_failed_code. fold F.
    repeat split; try reflexivity.
    + intros path H1 H2 H3. rewrite lookup_append_ne by congruence.
      apply Hother; assumption.
    + rewrite lookup_append_eq, (Hother F) by assumption. reflexivity.
Qed.

Lemma failure_entries_cons (first : nat) (r : ScrapeResult)
    (rs : list ScrapeResult) :
  failure_entries w first (r :: rs)
  = failed_line (ct_code r) (Text.or_default (last_error r) "Unknown error")
      (now (job w) first)
    :: failure_entries w (S first) rs.
Proof.
  unfold failure_entries. cbn [imap]. rewrite Nat.add_0_r. f_equal.
  apply imap_ext. intros k x _. cbn. do 2 f_equal. lia.
Qed.

(** What handling the results of a batch does to the files and counters. *)
Lemma process_results_effect (rs : list task_result) (st : retry_state) :
  let st' := foldl (RetryFailed.process_result config w) st rs in
  let again := failed_again config rs in
  RetryFailed.tasks_created st' = RetryFailed.tasks_created st /\
  RetryFailed.draws st' = RetryFailed.draws st /\
  RetryFailed.submitted (RetryFailed.trace st')
    = RetryFailed.submitted (RetryFailed.trace st) /\
  RetryFailed.successful_count st'
    = RetryFailed.successful_count st + Z.of_nat (length (recovered config rs)) /\
  still_failed_count st' = still_failed_count st + Z.of_nat (length again) /\
  RetryFailed.ticks st' = (RetryFailed.ticks st + length again)%nat /\
  RetryFailed.files st' !! F =
    match again with
    | [] => RetryFailed.files st !! F
    | _ :: _ =>
        Some (default "" (RetryFailed.files st !! F) +:+
              Merge.concat_lines (failure_entries w (RetryFailed.ticks st) again))
    end /\
  (forall path, path <> F -> path <> output_file config ->
     path <> progress_file config ->
     RetryFailed.files st' !! path = RetryFailed.files st !! path).
Proof.
  revert st. induction rs as [|r rs IH]; intros st; cbn [foldl].
  - cbn. repeat split; lia.
  - destruct (IH (RetryFailed.process_result config w st r))
      as (A & B & C & D & E & G & H & K).
    destruct (process_result_effect st r) as (A' & B' & C' & K' & R).
    set (st1 := RetryFailed.process_result config w st r) in *.
    cbn zeta in *. rewrite A, B, C, D, E, G, H, A', B', C'.
    clear A B C D E G H A' B' C'.
    assert (HK : forall path, path <> F -> path <> output_file config ->
              path <> progress_file config ->
              RetryFailed.files
                (foldl (RetryFailed.process_result config w) st1 rs) !! path
              = RetryFailed.files st !! path).
    { intros path H1 H2 H3. rewrite K, K' by assumption. reflexivity. }
    destruct r as [err|r].
    { rewrite R. cbn. repeat split; auto. }
    unfold failed_again, recovered.
    change (omap ?f (TaskDone r :: rs))
      with (match f (TaskDone r) with
            | Some y => y :: omap f rs
            | None => omap f rs
            end).
    cbv beta iota.
    fold (failed_again config rs). fold (recovered config rs).
    destruct (saves config r); destruct R as (R1 & R2 & R3 & R4);
      rewrite R1, R2, R3, R4; cbn [length].
    + repeat split; try lia; try reflexivity. exact HK.
    + repeat split; try lia; try exact HK.
      rewrite failure_entries_cons. cbn [Merge.concat_lines default from_option id].
      destruct (failed_again config rs) as [|r' again].
      * cbn. rewrite app_empty_r. reflexivity.
      * rewrite app_assoc_str. reflexivity.
Qed.

Lemma process_results_handled (rs : list task_result) (st : retry_state) :
  handled config w rs st (foldl (RetryFailed.process_result config w) st rs).
Proof.
  destruct (process_results_effect rs st) as (_ & _ & _ & D & E & G & H & K).
  unfold handled. fold F. auto.
Qed.

Lemma failure_entries_app (first : nat) (a b : list ScrapeResult) :
  failure_entries w first (a ++ b)
  = failure_entries w first a ++ failure_entries w (first + length a) b.
Proof.
  unfold failure_entries. rewrite imap_app. f_equal.
  apply imap_ext. intros k x _. cbn. do 2 f_equal. lia.
Qed.

Lemma handled_nil (st : retry_state) : handled config w [] st st.
Proof. unfold handled. cbn. repeat split; lia. Qed.

Lemma handled_app (rs1 rs2 : list task_result) (st st1 st2 : retry_state) :
  handled config w rs1 st st1 -> handled config w rs2 st1 st2 ->
  handled config w (rs1 ++ rs2) st st2.
Proof.
  intros (A1 & B1 & C1 & D1 & E1) (A2 & B2 & C2 & D2 & E2).
  unfold handled, failed_again, recovered in *. rewrite !omap_app, !length_app.
  fold (failed_again config rs1) in *. fold (failed_again config rs2) in *.
  fold (recovered config rs1) in *. fold (recovered config rs2) in *.
  split; [lia|]. split; [lia|]. split; [lia|]. split.
  - rewrite D2, D1, C1.
    destruct (failed_again config rs1) as [|r1 a1];
      destruct (failed_again config rs2) as [|r2 a2];
      cbn [app length]; rewrite ?Nat.add_0_r, ?app_nil_r; try reflexivity.
    cbn [default from_option id]. f_equal.
    change (r1 :: a1 ++ r2 :: a2) with ((r1 :: a1) ++ r2 :: a2).
    rewrite failure_entries_app, concat_lines_app, app_assoc_str. reflexivity.
  - intros path H1 H2 H3. rewrite E2, E1 by assumption. reflexivity.
Qed.

Lemma gather_app (first : nat) (b1 b2 : list string) :
  gather (job w) first (b1 ++ b2)
  = gather (job w) first b1 ++ gather (job w) (first + length b1) b2.
Proof.
  unfold gather. rewrite imap_app. f_equal.
  apply imap_ext. intros k x _. cbn. f_equal. lia.
Qed.

Let size := Z.to_nat (max_concurrent_requests config).

(** One iteration of the loop. *)
Lemma process_batch_handled (codes : list string) (st : retry_state) (i : nat) :
  let batch := take size (drop i codes) in
  let st' := RetryFailed.process_batch config w codes st i in
  handled config w (gather (job w) (RetryFailed.tasks_created st) batch) st st' /\
  RetryFailed.tasks_created st'
    = (RetryFailed.tasks_created st + length batch)%nat /\
  RetryFailed.submitted (RetryFailed.trace st')
    = RetryFailed.submitted (RetryFailed.trace st) ++ batch.
Proof.
  cbn zeta. unfold RetryFailed.process_batch. fold size.
  set (batch := take size (drop i codes)).
  match goal with |- context [foldl _ ?s ?rs] =>
    pose proof (process_results_handled rs s) as Hh;
    destruct (process_results_effect rs s) as (A & _ & C & _);
    set (st1 := foldl (RetryFailed.process_result config w) s rs) in *
  end.
  cbn [RetryFailed.tasks_created RetryFailed.trace] in A, C.
  rewrite !retried_app, retried_batch in C. cbn in C.
  rewrite app_nil_r in C.
  assert (Hst : handled config w
                  (gather (job w) (RetryFailed.tasks_created st) batch) st st1).
  { exact Hh. }
  destruct ((i + size <? length codes)%nat);
    cbn [RetryFailed.tasks_created RetryFailed.trace].
  - rewrite retried_app, C. cbn. rewrite app_nil_r.
    split; [exact Hst|]. split; [exact A|reflexivity].
  - split; [exact Hst|]. split; [exact A|exact C].
Qed.

(** The loop over the batches from the [j]-th on. *)
Lemma retry_batches (codes : list string) (m j : nat) (st : retry_state) :
  (0 < size)%nat ->
  (j + m = batch_count (length codes) size)%nat ->
  ((0 < m)%nat -> RetryFailed.tasks_created st = (j * size)%nat) ->
  let st' :=
    foldl (RetryFailed.process_batch config w codes) st
      (map (fun k => (k * size)%nat) (seq j m)) in
  handled config w (gather (job w) (j * size) (drop (j * size) codes)) st st' /\
  RetryFailed.submitted (RetryFailed.trace st')
    = RetryFailed.submitted (RetryFailed.trace st) ++ drop (j * size) codes.
Proof.
  intros Hsize. revert j st. induction m as [|m IH]; intros j st Hj Hst.
  - cbn. destruct (batch_count_bounds (length codes) size Hsize) as [Hup _].
    rewrite drop_ge by nia. cbn. rewrite app_nil_r.
    split; [apply handled_nil|reflexivity].
  - cbn [seq map foldl].
    destruct (process_batch_handled codes st (j * size)) as (Hh & Ht & Hs).
    set (st1 := RetryFailed.process_batch config w codes st (j * size)) in *.
    cbn zeta in *. rewrite Hst in Hh, Ht by lia.
    set (batch := take size (drop (j * size) codes)) in *.
    assert (Hdrop : drop (j * size) codes = batch ++ drop (S j * size) codes).
    { unfold batch. rewrite <- (take_drop size (drop (j * size) codes)) at 1.
      rewrite drop_drop. do 2 f_equal. lia. }
    destruct (IH (S j) st1) as (Hh' & Hs'); [lia| |].
    { intros Hm. rewrite Ht. unfold batch.
      rewrite length_take, length_drop.
      destruct (batch_count_bounds (length codes) size Hsize) as [_ Hlow].
      assert (0 < length codes)%nat as Hn.
      { destruct (length codes) eqn:E; [|lia].
        unfold batch_count in Hj. cbn [plus] in Hj.
        rewrite Nat.div_small in Hj by lia. lia. }
      destruct (Hlow Hn) as [_ Hlast]. nia. }
    split.
    + rewrite Hdrop, gather_app. eapply handled_app; [exact Hh|].
      destruct (drop (S j * size) codes) as [|c rest] eqn:Erest;
        [exact Hh'|].
      assert (Hlen : length batch = size).
      { unfold batch. rewrite length_take, length_drop.
        assert (S j * size < length codes)%nat.
        { apply lookup_lt_is_Some. rewrite <- (Nat.add_0_r (S j * size)).
          rewrite <- lookup_drop, Erest. eauto. }
        nia. }
      rewrite Hlen. replace (j * size + size)%nat with (S j * size)%nat by lia.
      exact Hh'.
    + rewrite Hs', Hs, Hdrop, <- app_assoc. reflexivity.
Qed.

End RetryFailedFacts.
Section RetryFailedClaims.

Import Files Persist Job RetryFailed RetryFailedSpec.

Variables (config : ScraperConfig) (w : retry_world) (files0 : fs).

Let F := failed_codes_file config.
Let bak := failed_codes_file config +:+ ".bak".

Lemma append_fixpoint (s t : string) : s = s +:+ t -> t = "".
Proof.
  induction s as [|c s IH]; cbn; [intros <-; reflexivity|].
  intros [= H]. apply IH, H.
Qed.

Lemma bak_differs : F <> bak.
Proof. intros H. apply append_fixpoint in H. discriminate. Qed.

(** The codes read from the failure log. *)
Lemma elem_of_read_failed (content code : string) :
  code ∈ read_failed content <->
  exists line, line ∈ Text.readlines content /\
    Text.strip line <> "" /\
    code = Text.strip (hd "" (Text.split Utils.pipe line)).
Proof.
  unfold read_failed. rewrite list_elem_of_omap. split.
  - intros (line & Hin & H).
    destruct (Text.is_empty (Text.strip line)) eqn:E; [discriminate|].
    injection H as <-. exists line. split; [exact Hin|].
    split; [apply is_empty_false, E|reflexivity].
  - intros (line & Hin & Hne & ->). exists line. split; [exact Hin|].
    apply is_empty_false in Hne. rewrite Hne. reflexivity.
Qed.

Lemma range_step_starts (n size : nat) :
  range_step n size = map (fun k => (k * size)%nat) (seq 0 (batch_count n size)).
Proof. reflexivity. Qed.

(** The whole retry, for a positive batch size and a log with codes. *)
Lemma retry_job_run (content : string) :
  F <> output_file config -> F <> progress_file config ->
  0 < max_concurrent_requests config ->
  files0 !! F = Some content ->
  read_failed content <> [] ->
  let codes := listed w (read_failed content) in
  let st0 :=
    {| RetryFailed.files := Utils.rename F bak files0;
       RetryFailed.successful_count := 0; still_failed_count := 0;
       RetryFailed.tasks_created := 0; RetryFailed.draws := 0;
       RetryFailed.ticks := 0; RetryFailed.trace := [Retrying (length codes)] |} in
  exists st,
    retry_job config w files0 = Retried st /\
    RetryFailed.submitted (RetryFailed.trace st) = codes /\
    handled config w (gather (job w) 0 codes) st0 st.
Proof.
  intros HFO HFP Hsize Hf Hne. cbn zeta. unfold retry_job. fold F bak. rewrite Hf.
  destruct (read_failed content) as [|c cs] eqn:Ec; [congruence|].
  destruct (Z.ltb_spec (max_concurrent_requests config) 0); [lia|].
  destruct (Z.eqb_spec (max_concurrent_requests config) 0); [lia|].
  eexists. split; [reflexivity|].
  rewrite range_step_starts.
  match goal with |- context [foldl _ ?s _] =>
    destruct (retry_batches config w HFO HFP (listed w (c :: cs))
                (batch_count (length (listed w (c :: cs)))
                   (Z.to_nat (max_concurrent_requests config))) 0 s)
      as (Hh & Hs); [lia|reflexivity|reflexivity|]
  end.
  cbn zeta in *. rewrite drop_0 in Hh, Hs. cbn [Nat.mul] in Hh.
  split; [exact Hs|exact Hh].
Qed.

End RetryFailedClaims.

Lemma rename_lookup (src dst path content : string) (files0 : Files.fs) :
  files0 !! src = Some content ->
  Utils.rename src dst files0 !! path =
  if decide (path = dst) then Some content
  else if decide (path = src) then None else files0 !! path.
Proof.
  intros Hf. unfold Utils.rename. rewrite Hf, lookup_insert, lookup_delete.
  repeat case_decide; congruence.
Qed.

Section RetryFailedTheorems.

Import Files Persist Job RetryFailed RetryFailedSpec.

Variables (config : ScraperConfig) (w : retry_world) (files0 : fs).

Let F := failed_codes_file config.
Let bak := failed_codes_file config +:+ ".bak".

Lemma returned_split (rs : list task_result) :
  (length (recovered config rs) + length (failed_again config rs)
   = length (filter returned rs))%nat.
Proof.
  induction rs as [|r rs IH]; [reflexivity|].
  unfold recovered, failed_again in *.
  change (omap ?f (r :: rs))
    with (match f r with Some y => y :: omap f rs | None => omap f rs end).
  destruct r as [err|r]; cbv beta iota.
  - rewrite filter_cons_False by (cbn; exact id). exact IH.
  - rewrite filter_cons_True by (cbn; exact I).
    destruct (saves config r); cbn [length]; lia.
Qed.

Lemma all_raised (rs : list task_result) :
  Forall (fun r => returned r = false) rs ->
  recovered config rs = [] /\ failed_again config rs = [].
Proof.
  induction 1 as [|r rs Hr _ [IH1 IH2]]; [split; reflexivity|].
  destruct r as [err|r]; [|discriminate]. split; assumption.
Qed.

(** X11. With a positive batch size and a failure log that exists,
    [retry_failed_codes] returns at once when the log has no line that is
    not blank, and otherwise creates exactly one task for each distinct
    code of the log, a code being the stripped text before the first pipe
    of a line that is not blank. *)
Theorem retry_submits_each_failed_code_once (content : string) :
  failed_codes_file config <> output_file config ->
  failed_codes_file config <> progress_file config ->
  0 < max_concurrent_requests config ->
  lists_distinct w ->
  files0 !! failed_codes_file config = Some content ->
  (read_failed content = [] -> retry_job config w files0 = NothingToRetry) /\
  (read_failed content <> [] ->
   exists st,
     retry_job config w files0 = Retried st /\
     NoDup (RetryFailed.submitted (RetryFailed.trace st)) /\
     (forall code,
        code ∈ RetryFailed.submitted (RetryFailed.trace st) <->
        exists line, line ∈ Text.readlines content /\
          Text.strip line <> "" /\
          code = Text.strip (hd "" (Text.split Utils.pipe line)))).
Proof.
  intros HFO HFP Hsize Hw Hf. split.
  - intros E. unfold retry_job. rewrite Hf, E. reflexivity.
  - intros Hne.
    destruct (retry_job_run config w files0 content HFO HFP Hsize Hf Hne)
      as (st & Hrun & Hs & _).
    exists st. split; [exact Hrun|]. cbn zeta in Hs. rewrite Hs.
    destruct (Hw (read_failed content)) as [Hnd Hin].
    split; [exact Hnd|]. intros code. rewrite Hin. apply elem_of_read_failed.
Qed.

(** X12. After a retry the old failure log is kept under its name
    followed by .bak, and the failure log itself holds exactly one entry,
    in task order, for each returned result that could not be saved, with
    its last error or Unknown error, and does not exist when there is none;
    the two counters are the numbers of results saved and not saved; files
    other than the log, its backup, the output file and the progress file
    are as before. *)
Theorem retry_rewrites_failure_log (content : string) :
  F <> output_file config -> F <> progress_file config ->
  bak <> output_file config -> bak <> progress_file config ->
  0 < max_concurrent_requests config ->
  files0 !! F = Some content ->
  read_failed content <> [] ->
  let results := gather (job w) 0 (listed w (read_failed content)) in
  let again := failed_again config results in
  exists st,
    retry_job config w files0 = Retried st /\
    RetryFailed.files st !! bak = Some content /\
    RetryFailed.files st !! F =
      match again with
      | [] => None
      | _ :: _ => Some (Merge.concat_lines (failure_entries w 0 again))
      end /\
    RetryFailed.successful_count st
      = Z.of_nat (length (recovered config results)) /\
    still_failed_count st = Z.of_nat (length again) /\
    (forall path,
       path <> F -> path <> bak -> path <> output_file config ->
       path <> progress_file config ->
       RetryFailed.files st !! path = files0 !! path).
Proof.
  intros HFO HFP HBO HBP Hsize Hf Hne.
  destruct (retry_job_run config w files0 content HFO HFP Hsize Hf Hne)
    as (st & Hrun & _ & (A & B & _ & D & E)).
  cbn zeta in *. fold F bak in D, E.
  cbn [RetryFailed.files RetryFailed.successful_count still_failed_count
       RetryFailed.ticks] in A, B, D, E.
  pose proof (bak_differs config) as Hbak. fold F bak in Hbak.
  assert (Hren : forall path,
            Utils.rename F bak files0 !! path =
            if decide (path = bak) then Some content
            else if decide (path = F) then None else files0 !! path)
    by (intros path; apply rename_lookup, Hf).
  exists st. split; [exact Hrun|]. split; [|split; [|split; [|split]]].
  - rewrite E by (try assumption; intros Heq; apply Hbak; symmetry; exact Heq).
    rewrite Hren, decide_True by reflexivity. reflexivity.
  - rewrite D, Hren, decide_False by exact Hbak.
    rewrite decide_True by reflexivity.
    destruct (failed_again config _); reflexivity.
  - lia.
  - lia.
  - intros path H1 H2 H3 H4. rewrite E by assumption.
    rewrite Hren, !decide_False by assumption. reflexivity.
Qed.

(** X13. A task of a retry that raised is neither counted nor recorded:
    the two counters add up to the number of tasks that returned a result,
    and when every task raised both are zero and no failure log exists
    afterwards, the codes being left in the backup only, although a task
    was created for every code. *)
Theorem raised_retries_leave_no_record (content : string) :
  F <> output_file config -> F <> progress_file config ->
  bak <> output_file config -> bak <> progress_file config ->
  0 < max_concurrent_requests config ->
  files0 !! F = Some content ->
  read_failed content <> [] ->
  let codes := listed w (read_failed content) in
  let results := gather (job w) 0 codes in
  exists st,
    retry_job config w files0 = Retried st /\
    RetryFailed.submitted (RetryFailed.trace st) = codes /\
    RetryFailed.successful_count st + still_failed_count st
      = Z.of_nat (length (filter returned results)) /\
    (Forall (fun r => returned r = false) results ->
     RetryFailed.files st !! F = None /\
     RetryFailed.files st !! bak = Some content /\
     RetryFailed.successful_count st = 0 /\ still_failed_count st = 0).
Proof.
  intros HFO HFP HBO HBP Hsize Hf Hne.
  destruct (retry_job_run config w files0 content HFO HFP Hsize Hf Hne)
    as (st & Hrun & Hs & (A & B & _ & D & E)).
  cbn zeta in *. fold F bak in D, E.
  cbn [RetryFailed.files RetryFailed.successful_count still_failed_count
       RetryFailed.ticks] in A, B, D, E.
  pose proof (bak_differs config) as Hbak. fold F bak in Hbak.
  exists st. split; [exact Hrun|]. split; [exact Hs|]. split.
  - rewrite A, B, <- returned_split. lia.
  - intros Hall. destruct (all_raised _ Hall) as [R1 R2].
    rewrite R1 in A. rewrite R2 in B, D. cbn in A, B.
    split; [|split; [|split; assumption]].
    + rewrite D. unfold Utils.rename. rewrite Hf.
      rewrite lookup_insert_ne
        by (intros Heq; apply Hbak; symmetry; exact Heq).
      apply lookup_delete_eq.
    + rewrite E by (try assumption; intros Heq; apply Hbak; symmetry; exact Heq).
      unfold Utils.rename. rewrite Hf. apply lookup_insert_eq.
Qed.

End RetryFailedTheorems.

Lemma retry_submits_each_failed_code_once_witness :
  exists st,
    RetryFailed.retry_job default_config Examples.retry_sample
      Examples.failed_files = RetryFailed.Retried st /\
    NoDup (RetryFailed.submitted (RetryFailed.trace st)).
Proof.
  destruct (proj2 (retry_submits_each_failed_code_once default_config
              Examples.retry_sample Examples.failed_files Examples.failed_log
              ltac:(discriminate) ltac:(discriminate) ltac:(reflexivity)
              (fun l => conj (NoDup_remove_dups l)
                             (fun x => elem_of_remove_dups l x))
              eq_refl)
              ltac:(vm_compute; discriminate))
    as (st & Hrun & Hnd & _).
  exists st. split; assumption.
Defined.

Lemma retry_rewrites_failure_log_witness :
  exists st,
    RetryFailed.retry_job default_config Examples.retry_sample
      Examples.failed_files = RetryFailed.Retried st /\
    RetryFailed.files st !! (failed_codes_file default_config +:+ ".bak")
    = Some Examples.failed_log /\
    RetryFailed.files st !! failed_codes_file default_config
    = Some ("09DPR0004D|Target element not found|2024-05-02T08:00:00.000000"
            +:+ Files.eol).
Proof.
  destruct (retry_rewrites_failure_log default_config Examples.retry_sample
              Examples.failed_files Examples.failed_log
              ltac:(discriminate) ltac:(discriminate) ltac:(discriminate)
              ltac:(discriminate) ltac:(reflexivity) eq_refl
              ltac:(vm_compute; discriminate))
    as (st & Hrun & Hbak & Hlog & _).
  exists st. split; [exact Hrun|]. split; [exact Hbak|].
  rewrite Hlog. vm_compute. reflexivity.
Defined.

Lemma raised_retries_leave_no_record_witness :
  exists st,
    RetryFailed.retry_job default_config Examples.retry_raising
      Examples.failed_files = RetryFailed.Retried st /\
    RetryFailed.submitted (RetryFailed.trace st) = ["09DPR0004D"; "09DPR0003C"] /\
    RetryFailed.files st !! failed_codes_file default_config = None.
Proof.
  destruct (raised_retries_leave_no_record default_config Examples.retry_raising
              Examples.failed_files Examples.failed_log
              ltac:(discriminate) ltac:(discriminate) ltac:(discriminate)
              ltac:(discriminate) ltac:(reflexivity) eq_refl
              ltac:(vm_compute; discriminate))
    as (st & Hrun & Hs & _ & Hall).
  exists st. split; [exact Hrun|]. split; [rewrite Hs; vm_compute; reflexivity|].
  apply Hall. repeat constructor.
Defined.

(** ** From the CSV file to the input of the job *)

Section ExtractFacts.

Import Files Extract ExtractSpec TextSpec.

Lemma claves_codes (rows : list csv_record) :
  Forall (fun row => ~ short row) rows ->
  claves rows = Some (omap code_of rows).
Proof.
  induction 1 as [|row rows Hrow _ IH]; [reflexivity|].
  cbn [claves]. rewrite IH.
  change (omap code_of (row :: rows))
    with (match code_of row with
          | Some c => c :: omap code_of rows
          | None => omap code_of rows
          end).
  unfold clave_of, code_of, short in *.
  destruct (row !! "CLAVE CT") as [[v|]|]; [|congruence|reflexivity].
  cbn. destruct (Text.is_empty (Text.strip v)); reflexivity.
Qed.

Lemma claves_short (rows : list csv_record) :
  Exists short rows -> claves rows = None.
Proof.
  induction 1 as [row rows Hrow|row rows _ IH]; cbn [claves].
  - unfold clave_of. unfold short in Hrow. rewrite Hrow. reflexivity.
  - rewrite IH. destruct (clave_of row); reflexivity.
Qed.

(** Codes written one per line are read back by the job as they are. *)
Lemma read_codes_written (codes : list string) :
  Forall (fun c => Text.strip c = c /\ c <> "" /\
                   Text.contains Text.newline c = false) codes ->
  Job.read_codes (Merge.concat_lines (map (fun c => c +:+ eol) codes)) = codes.
Proof.
  induction 1 as [|c codes (Hs & Hne & Hnl) _ IH]; [reflexivity|].
  cbn [map Merge.concat_lines]. unfold Job.read_codes in *.
  rewrite app_assoc_str, readlines_cons by exact Hnl.
  match goal with |- omap ?f (?x :: ?l) = _ =>
    change (omap f (x :: l))
      with (match f x with Some y => y :: omap f l | None => omap f l end)
  end.
  cbv beta. rewrite strip_app_eol, Hs, IH.
  destruct c; [congruence|reflexivity].
Qed.

Lemma code_of_shape (row : csv_record) (c : string) :
  code_of row = Some c ->
  exists v, row !! "CLAVE CT" = Some (Some v) /\ c = Text.strip v /\ c <> "".
Proof.
  unfold code_of. destruct (row !! "CLAVE CT") as [[v|]|]; try discriminate.
  destruct (Text.is_empty (Text.strip v)) eqn:E; [discriminate|].
  intros [= <-]. exists v. repeat split. apply is_empty_false, E.
Qed.

(** X14. [main] of main.py writes the file that the batch job reads.
    It never raises: when the CSV file is missing, or a row is too short
    for the column CLAVE CT, the files stay as they are. Otherwise, the
    values holding no line break, the job reads back from the written file
    exactly the stripped values of the column that are not blank, in row
    order. *)
Theorem extracted_claves_are_job_input (rows : list csv_record) (files : fs) :
  (forall row v, row ∈ rows -> row !! "CLAVE CT" = Some (Some v) -> one_line v) ->
  Extract.output_file = Job.input_file /\
  main None files = files /\
  (Exists short rows -> main (Some rows) files = files) /\
  (Forall (fun row => ~ short row) rows ->
   exists content,
     main (Some rows) files = <[Job.input_file := content]> files /\
     Job.read_codes content = omap code_of rows).
Proof.
  intros Hlines. split; [reflexivity|]. split; [reflexivity|]. split.
  - intros Hshort. unfold main, extract_clave_ct.
    rewrite (claves_short rows Hshort). reflexivity.
  - intros Hfull. unfold main, extract_clave_ct.
    rewrite (claves_codes rows Hfull). eexists. split; [reflexivity|].
    apply read_codes_written. apply Forall_forall.
    intros c (row & Hrow & Hc)%list_elem_of_omap.
    apply code_of_shape in Hc as (v & Hv & -> & Hne).
    split; [apply strip_idem|]. split; [exact Hne|].
    apply contains_strip, (Hlines row v Hrow Hv).
Qed.

End ExtractFacts.

Lemma extracted_claves_are_job_input_witness :
  exists content,
    Extract.main (Some Examples.csv_rows) ∅
    = <[Job.input_file := content]> (∅ : Files.fs) /\
    Job.read_codes content = ["09DPR0001A"; "09DPR0002B"].
Proof.
  assert (Hlines : forall row v, row ∈ Examples.csv_rows ->
            row !! "CLAVE CT" = Some (Some v) -> TextSpec.one_line v).
  { intros row v Hrow Hv. apply list_elem_of_In in Hrow.
    repeat (destruct Hrow as [<-|Hrow];
            [vm_compute in Hv; try discriminate; injection Hv as <-;
             split; reflexivity|]).
    destruct Hrow. }
  destruct (proj2 (proj2 (proj2 (extracted_claves_are_job_input
              Examples.csv_rows ∅ Hlines))))
    as (content & Hmain & Hread).
  - repeat constructor; discriminate.
  - exists content. split; [exact Hmain|exact Hread].
Defined.

(** ** The merged file: order and repeated merging *)

Section MergeAgain.

Import Files Merge MergeSpec.

(** A line of a file holds a newline at its end only. *)
Lemma readlines_shape (content line : string) :
  line ∈ Text.readlines content ->
  exists b, Text.contains Text.newline b = false /\ (line = b \/ line = b +:+ eol).
Proof.
  revert line. induction content as [|c s IH]; intros line; cbn [Text.readlines].
  - intros H. inversion H.
  - destruct (decide (c = Text.newline)) as [->|Hne].
    + intros [->|Hin]%elem_of_cons; [|apply IH, Hin].
      exists "". split; [reflexivity|right; reflexivity].
    + destruct (Text.readlines s) as [|h t] eqn:E.
      * intros ->%list_elem_of_singleton. exists (String c "").
        split; [|left; reflexivity]. cbn. rewrite decide_False by exact Hne.
        reflexivity.
      * intros [->|Hin]%elem_of_cons; [|apply IH; right; exact Hin].
        destruct (IH h ltac:(left)) as (b & Hb & Hh).
        exists (String c b). split.
        -- cbn. rewrite decide_False by exact Hne. exact Hb.
        -- destruct Hh as [->| ->]; [left|right]; reflexivity.
Qed.

Lemma lstrip_rstrip (s : string) :
  Text.rstrip (Text.lstrip s) = Text.lstrip (Text.rstrip s).
Proof.
  induction s as [|c s IH]; [reflexivity|]. cbn [Text.lstrip Text.rstrip].
  destruct (Text.is_space c) eqn:E.
  - rewrite IH. destruct (Text.rstrip s) eqn:R;
      cbn [andb Text.is_empty Text.lstrip]; [reflexivity|].
    rewrite E. reflexivity.
  - cbn [andb Text.lstrip Text.rstrip]. rewrite !E. reflexivity.
Qed.

Lemma rstrip_line (content line : string) :
  line ∈ Text.readlines content ->
  Text.contains Text.newline (Text.rstrip line) = false.
Proof.
  intros (b & Hb & [->| ->])%readlines_shape.
  - destruct (Text.contains Text.newline (Text.rstrip b)) eqn:E; [|reflexivity].
    apply contains_rstrip in E. congruence.
  - rewrite rstrip_app_space by reflexivity.
    destruct (Text.contains Text.newline (Text.rstrip b)) eqn:E; [|reflexivity].
    apply contains_rstrip in E. congruence.
Qed.

(** The entry of a line of a file holds no newline. *)
Lemma entry_one_line (content line k v : string) :
  line ∈ Text.readlines content -> entry_of line = Some (k, v) ->
  Text.contains Text.newline k = false /\ Text.contains Text.newline v = false.
Proof.
  intros Hin. pose proof (rstrip_line content line Hin) as Hr. unfold entry_of.
  destruct (Text.is_empty (Text.strip line)); [discriminate|].
  destruct (split1_cases Text.dash line) as [[_ ->]|(p & r & -> & Hp & ->)];
    [discriminate|].
  intros [= <- <-]. rewrite rstrip_app_char in Hr by reflexivity.
  rewrite contains_app in Hr. apply orb_false_iff in Hr as [H0 H1].
  cbn in H1. rewrite decide_False in H1 by discriminate.
  split; [apply contains_strip, H0|].
  unfold Text.strip. rewrite lstrip_rstrip.
  destruct (Text.contains Text.newline (Text.lstrip (Text.rstrip r))) eqn:E;
    [|reflexivity].
  apply contains_lstrip in E. congruence.
Qed.

(** The entry of a line is stripped. *)
Lemma entry_stripped (line k v : string) :
  entry_of line = Some (k, v) -> Text.strip k = k /\ Text.strip v = v.
Proof.
  unfold entry_of. destruct (Text.is_empty (Text.strip line)); [discriminate|].
  destruct (Text.split1 Text.dash line) as [|p0 [|p1 ps]]; try discriminate.
  intros [= <- <-]. split; apply strip_idem.
Qed.

(** A written line is read back as the entry it was written for. *)
Lemma entry_of_output_line (k v : string) :
  Text.contains Text.dash k = false -> Text.strip k = k -> Text.strip v = v ->
  entry_of (output_line (k, v)) = Some (k, v).
Proof.
  intros Hk Hsk Hsv. unfold entry_of, output_line. cbn [fst snd].
  change ("-" +:+ v +:+ eol) with (String Text.dash (v +:+ eol)).
  rewrite line_not_blank, split1_sep by exact Hk.
  rewrite strip_app_eol, Hsk, Hsv. reflexivity.
Qed.

Lemma readlines_written (items : list (string * string)) :
  Forall (fun kv => Text.contains Text.newline kv.1 = false /\
                    Text.contains Text.newline kv.2 = false) items ->
  Text.readlines (concat_lines (map output_line items)) = map output_line items.
Proof.
  induction 1 as [|[k v] items [Hk Hv] _ IH]; [reflexivity|].
  cbn [map concat_lines]. unfold output_line at 1 3. cbn [fst snd] in *.
  replace ((k +:+ "-" +:+ v +:+ eol) +:+ concat_lines (map output_line items))
    with ((k +:+ "-" +:+ v) +:+ eol +:+ concat_lines (map output_line items))
    by (rewrite !app_assoc_str; reflexivity).
  rewrite readlines_cons, IH.
  - rewrite !app_assoc_str. reflexivity.
  - rewrite !contains_app, Hk, Hv. reflexivity.
Qed.

Lemma first_value_is_Some (k v : string) (l : list (string * string)) :
  (k, v) ∈ l -> is_Some (first_value k l).
Proof.
  induction l as [|[k' v'] l IH]; [intros H; inversion H|]. cbn.
  destruct (decide (k' = k)); [eauto|].
  intros [[= -> ->]|Hin]%elem_of_cons; [congruence|auto].
Qed.

Variables (result_files : list string) (output_file : string) (files : fs).

Lemma item_occurs (k v : string) :
  (k, v) ∈ merged_items result_files files ->
  exists p content line,
    files !! p = Some content /\ line ∈ Text.readlines content /\
    entry_of line = Some (k, v).
Proof.
  intros Hin%elem_of_merged_items%first_value_elem.
  rewrite elem_of_reverse in Hin. unfold occurrences in Hin.
  apply list_elem_of_bind in Hin as (p & Hin & _).
  destruct (files !! p) as [content|] eqn:E; [|inversion Hin].
  apply list_elem_of_omap in Hin as (line & Hline & He).
  exists p, content, line. auto.
Qed.

(** Assigning the merged items again gives the dictionary back. *)
Lemma insert_all_items :
  insert_all ∅ (merged_items result_files files) = collect result_files files.
Proof.
  apply map_eq. intros k. rewrite insert_all_lookup, lookup_empty.
  destruct (last_value k (merged_items result_files files)) as [v|] eqn:E.
  - unfold last_value in E. apply first_value_elem in E.
    rewrite elem_of_reverse, merged_items_perm, elem_of_map_to_list in E.
    symmetry. exact E.
  - destruct (collect result_files files !! k) as [v|] eqn:Ec; [|reflexivity].
    apply elem_of_map_to_list in Ec. rewrite <- merged_items_perm in Ec.
    rewrite <- elem_of_reverse in Ec.
    apply first_value_is_Some in Ec as [v' Hv]. unfold last_value in E.
    congruence.
Qed.

Lemma tuple_le_total (a b : string * string) : tuple_le a b \/ tuple_le b a.
Proof.
  unfold tuple_le. rewrite (String.eqb_sym b.1 a.1).
  destruct (String.eqb a.1 b.1); apply String.leb_total.
Qed.

Lemma leb_ltb (a b : string) :
  String.leb a b = true -> a <> b -> String.ltb a b = true.
Proof.
  unfold String.leb, String.ltb. intros Hle Hne.
  destruct (String.compare a b) eqn:E; [|reflexivity|discriminate].
  apply String.compare_eq_iff in E. contradiction.
Qed.

(** A list sorted as tuples, with distinct first components, has its first
    components in strictly increasing order. *)
Lemma sorted_keys (l : list (string * string)) :
  Sorted tuple_le l -> NoDup l.*1 ->
  Sorted (fun a b => String.ltb a b = true) l.*1.
Proof.
  induction 1 as [|a l Hs IH Hhd]; intros Hnd; [constructor|].
  cbn [fmap list_fmap] in *. apply NoDup_cons in Hnd as [Hnin Hnd].
  constructor; [apply IH, Hnd|].
  destruct Hhd as [|b l' Hab]; [constructor|]. cbn [fmap list_fmap].
  constructor. unfold tuple_le in Hab.
  assert (Hne : a.1 <> b.1).
  { intros Heq. apply Hnin. rewrite Heq. left. }
  apply String.eqb_neq in Hne as Hneb. rewrite Hneb in Hab.
  apply leb_ltb; assumption.
Qed.

(** X15. [merge_results] writes its lines in strictly increasing order of
    identifier, the order being that of the code points, character by
    character. *)
Theorem merge_results_writes_sorted :
  let lines := written_lines result_files files in
  (merge_results result_files output_file files).2 !! output_file
    = Some (concat_lines lines) /\
  Sorted (fun a b => String.ltb a b = true) (map identifier_of lines).
Proof.
  cbn zeta. split.
  - unfold merge_results, write_file. cbn [snd]. apply lookup_insert_eq.
  - assert (Hids : map identifier_of (written_lines result_files files)
                   = (merged_items result_files files).*1).
    { unfold written_lines. rewrite map_map. apply map_ext_in.
      intros [k v] (p & content & line & _ & _ & He)%list_elem_of_In%item_occurs.
      apply identifier_of_output_line. eapply entry_key_no_dash, He. }
    rewrite Hids. apply sorted_keys.
    + unfold merged_items.
      apply (@Sorted_merge_sort _ tuple_le _ tuple_le_total).
    + rewrite merged_items_perm. apply NoDup_fst_map_to_list.
Qed.

(** X16. Merging is idempotent: [merge_results] applied to the file it
    has written, with that file as output again, returns the same count and
    leaves every file as it is. *)
Theorem merge_results_idempotent :
  let merged := merge_results result_files output_file files in
  merge_results [output_file] output_file merged.2 = merged.
Proof.
  cbn zeta.
  set (items := merged_items result_files files).
  assert (Hc : collect [output_file]
                 (merge_results result_files output_file files).2
               = collect result_files files).
  { unfold merge_results, collect at 1, write_file. cbn [snd foldl].
    unfold merge_file. rewrite lookup_insert_eq. fold items.
    rewrite readlines_written, merge_lines_insert_all.
    - replace (omap entry_of (map output_line items)) with items;
        [apply insert_all_items|].
      assert (Hall : forall kv, kv ∈ items -> entry_of (output_line kv) = Some kv).
      { intros [k v] (p & content & line & _ & _ & He)%item_occurs.
        destruct (entry_stripped _ _ _ He) as [Hsk Hsv].
        apply entry_of_output_line; [eapply entry_key_no_dash, He|exact Hsk|exact Hsv]. }
      clear -Hall. induction items as [|kv l IH]; [reflexivity|].
      cbn [map].
      change (omap entry_of (output_line kv :: map output_line l))
        with (match entry_of (output_line kv) with
              | Some y => y :: omap entry_of (map output_line l)
              | None => omap entry_of (map output_line l)
              end).
      rewrite (Hall kv) by left. f_equal. apply IH.
      intros kv' Hin. apply Hall. right. exact Hin.
    - apply Forall_forall.
      intros [k v] (p & content & line & _ & Hline & He)%item_occurs.
      exact (entry_one_line content line k v Hline He). }
  unfold merge_results at 1, merged_items. rewrite Hc.
  unfold merge_results, merged_items, write_file. cbn [fst snd].
  f_equal. apply insert_insert_eq.
Qed.

End MergeAgain.

(** ** The job only appends *)

Section JobAppends.

Import Files Persist Job FilesSpec.

Variables (config : ScraperConfig) (w : job_world).

Let written : list string :=
  [output_file config; progress_file config; failed_codes_file config].

Lemma appended_refl (files0 : fs) : appended written files0 files0.
Proof.
  split; [reflexivity|]. intros path content H. exists "".
  rewrite app_empty_r. exact H.
Qed.

Lemma appended_trans (f1 f2 f3 : fs) :
  appended written f1 f2 -> appended written f2 f3 -> appended written f1 f3.
Proof.
  intros [A1 B1] [A2 B2]. split.
  - intros path Hp. rewrite A2, A1 by exact Hp. reflexivity.
  - intros path content H. destruct (B1 path content H) as [a1 H1].
    destruct (B2 path _ H1) as [a2 H2]. exists (a1 +:+ a2).
    rewrite H2, app_assoc_str. reflexivity.
Qed.

Lemma appended_append (path t : string) (files0 : fs) :
  path ∈ written -> appended written files0 (append_file path t files0).
Proof.
  intros Hin. split.
  - intros p Hp. apply lookup_append_ne. intros ->. contradiction.
  - intros p content H. destruct (decide (p = path)) as [->|Hne].
    + exists t. rewrite lookup_append_eq, H. reflexivity.
    + exists "". rewrite lookup_append_ne by congruence.
      rewrite app_empty_r. exact H.
Qed.

Lemma save_result_appended (r : ScrapeResult) (files0 : fs) :
  appended written files0 (save_result_incrementally r config files0).1.2.
Proof.
  unfold save_result_incrementally.
  destruct (school_data r) as [d|]; [|apply appended_refl].
  destruct (success d); [|apply appended_refl].
  destruct (href d) as [link|]; [|apply appended_refl].
  destruct (Text.is_empty link); [apply appended_refl|].
  destruct (Re.search coord_pattern link) as [[segs rest]|]; [|apply appended_refl].
  cbn [fst snd]. eapply appended_trans; apply appended_append.
  - left.
  - right. left.
Qed.

Lemma process_result_appended (st : job_state) (r : task_result) :
  appended written (files st) (files (process_result config w st r)).
Proof.
  unfold process_result. destruct r as [err|r]; [apply appended_refl|].
  pose proof (save_result_appended r (files st)) as Hs.
  destruct (save_result_incrementally r config (files st)) as [[saved fs'] logged].
  cbn [fst snd] in Hs. destruct saved; cbn [files]; [exact Hs|].
  eapply appended_trans; [exact Hs|]. apply appended_append.
  right. right. left.
Qed.

Lemma process_results_appended (rs : list task_result) (st : job_state) :
  appended written (files st) (files (foldl (process_result config w) st rs)).
Proof.
  revert st. induction rs as [|r rs IH]; intros st; [apply appended_refl|].
  cbn [foldl]. eapply appended_trans; [apply process_result_appended|apply IH].
Qed.

Lemma process_batch_appended (total : Z) (st : job_state)
    (numbered : Z * list string) :
  appended written (files st) (files (process_batch config w total st numbered)).
Proof.
  destruct numbered as [num batch]. unfold process_batch.
  match goal with |- context [foldl _ ?s ?rs] =>
    pose proof (process_results_appended rs s) as H;
    set (st1 := foldl (process_result config w) s rs) in *
  end.
  cbn [files emit] in H. destruct (num <? total); exact H.
Qed.

Lemma process_batches_appended (total : Z) (bs : list (Z * list string))
    (st : job_state) :
  appended written (files st)
    (files (foldl (process_batch config w total) st bs)).
Proof.
  revert st. induction bs as [|b bs IH]; intros st; [apply appended_refl|].
  cbn [foldl]. eapply appended_trans; [apply process_batch_appended|apply IH].
Qed.

(** X17. Whatever the tasks return, the batch job only appends: every
    path other than the output file, the progress file and the failure log
    has afterwards what it had before (the input file included), and the
    content that any file had is the beginning of what it has afterwards,
    so that nothing saved earlier is removed or rewritten. *)
Theorem job_only_appends (files0 : fs) :
  let st := run_job config w files0 in
  (forall path,
     path <> output_file config -> path <> progress_file config ->
     path <> failed_codes_file config ->
     files st !! path = files0 !! path) /\
  (forall path content,
     files0 !! path = Some content ->
     exists added, files st !! path = Some (content +:+ added)).
Proof.
  cbn zeta.
  assert (H : appended written files0 (files (run_job config w files0))).
  { unfold run_job.
    destruct (files0 !! input_file) as [content|]; [|apply appended_refl].
    destruct (read_codes content) as [|c0 cs]; [apply appended_refl|].
    destruct (pending config files0 (c0 :: cs)) as [|p0 ps];
      [apply appended_refl|].
    destruct (max_concurrent_requests config <? 0); [apply appended_refl|].
    destruct (max_concurrent_requests config =? 0); [apply appended_refl|].
    cbn [files emit]. apply process_batches_appended. }
  destruct H as [A B]. split; [|exact B].
  intros path H1 H2 H3. apply A. unfold written.
  rewrite !not_elem_of_cons. repeat split; try assumption. apply not_elem_of_nil.
Qed.

End JobAppends.

(** ** The scraper *)

Section ScraperFacts.

Import Scraper ScraperSpec.

Lemma failure_shape (ct_code msg : string) :
  msg <> "" ->
  let d := failure ct_code msg in
  sd_ct_code d = Some ct_code /\ success d = false /\
  text d = None /\ href d = None /\ title d = None /\
  exists m, error_message d = Some m /\ m <> "".
Proof. intros Hne. cbn. repeat split. eauto. Qed.

(** What the [try] block returns. *)
Lemma try_block_value (w : page_world) (ct_code : string) (d : SchoolData) :
  (try_block w ct_code).2 = Value d ->
  sd_ct_code d = Some ct_code /\
  ((success d = true /\ error_message d = None /\ shows_link w) \/
   (success d = false /\ ~ shows_link w /\
    text d = None /\ href d = None /\ title d = None /\
    exists m, error_message d = Some m /\ m <> "")).
Proof.
  unfold try_block, shows_link.
  destruct (create_page w) as [u|e] eqn:E1; [|discriminate].
  destruct (goto w) as [[status|]|e] eqn:E2; [| |discriminate].
  - destruct (Z.leb_spec 400 status) as [Hs|Hs].
    + cbn. intros [= <-]. split; [reflexivity|]. right.
      split; [reflexivity|]. split.
      * intros (u' & s' & v & n & t & h & ti & _ & [= <-] & Hlt & _). lia.
      * repeat split. eexists. split; [reflexivity|discriminate].
    + destruct (wait_for w) as [v|[m|m|m]] eqn:E3; try discriminate.
      * destruct (count w) as [n|e] eqn:E4; [|discriminate].
        destruct (Z.eqb_spec n 0) as [Hn|Hn].
        -- cbn. intros [= <-]. split; [reflexivity|]. right.
           split; [reflexivity|]. split.
           ++ intros (u' & s' & v' & n' & t & h & ti & _ & _ & _ & _ & [= <-] & Hne & _).
              contradiction.
           ++ repeat split. eexists. split; [reflexivity|discriminate].
        -- destruct (text_content w) as [t|e] eqn:E5; [|discriminate].
           destruct (get_href w) as [h|e] eqn:E6; [|discriminate].
           destruct (get_title w) as [ti|e] eqn:E7; [|discriminate].
           cbn. intros [= <-]. split; [reflexivity|]. left.
           split; [reflexivity|]. split; [reflexivity|].
           exists u, status, v, n, t, h, ti. repeat split; assumption.
      * cbn. intros [= <-]. split; [reflexivity|]. right.
        split; [reflexivity|]. split.
        -- intros (u' & s' & v' & n' & t & h & ti & _ & _ & _ & Hw & _). discriminate.
        -- repeat split. eexists. split; [reflexivity|discriminate].
  - cbn. intros [= <-]. split; [reflexivity|]. right.
    split; [reflexivity|]. split.
    + intros (u' & s' & v' & n' & t & h & ti & _ & Hg & _). discriminate.
    + repeat split. eexists. split; [reflexivity|discriminate].
Qed.

(** When the [try] block raises, the page did not show the link. *)
Lemma try_block_raise (w : page_world) (ct_code : string) (e : exn) :
  (try_block w ct_code).2 = Raise e -> ~ shows_link w.
Proof.
  unfold try_block, shows_link.
  intros H (u & status & v & n & t & h & ti & E1 & E2 & Hs & E3 & E4 & Hn & E5 & E6 & E7).
  rewrite E1, E2 in H. destruct (Z.leb_spec 400 status); [lia|].
  rewrite E3, E4 in H. destruct (Z.eqb_spec n 0); [contradiction|].
  rewrite E5, E6, E7 in H. discriminate.
Qed.

Lemma handled_message_not_empty (ct_code : string) (e : exn) :
  handled_message ct_code e <> "".
Proof. destruct e; discriminate. Qed.

(** X18. [scrape_school_data] raises only when closing the page raises.
    A record that it returns carries the code asked for; it is marked
    successful exactly when the page showed the link, and then has no error
    message; a record that is not successful has no text, link or title,
    and an error message that is not empty. *)
Theorem scrape_school_data_record (w : page_world) (ct_code : string) :
  (forall e,
     outcome_of w ct_code = Raise e ->
     close w = Raise e /\ exists u, create_page w = Value u) /\
  (forall d,
     outcome_of w ct_code = Value d ->
     sd_ct_code d = Some ct_code /\
     (success d = true <-> shows_link w) /\
     (success d = true -> error_message d = None) /\
     (success d = false ->
      text d = None /\ href d = None /\ title d = None /\
      exists m, error_message d = Some m /\ m <> "")).
Proof.
  unfold outcome_of, scrape_school_data.
  pose proof (try_block_value w ct_code) as Hv.
  pose proof (try_block_raise w ct_code) as Hr.
  destruct (try_block w ct_code) as [logs [d0|e0]]; cbn [snd] in *.
  - specialize (Hv d0 eq_refl). clear Hr.
    assert (Hd : forall d, Value d0 = Value d ->
              sd_ct_code d = Some ct_code /\
              (success d = true <-> shows_link w) /\
              (success d = true -> error_message d = None) /\
              (success d = false ->
               text d = None /\ href d = None /\ title d = None /\
               exists m, error_message d = Some m /\ m <> "")).
    { intros d [= <-]. destruct Hv as [Hc [(Hs & He & Hl)|(Hs & Hl & Hrest)]].
      - split; [exact Hc|]. split; [tauto|]. split; [auto|]. congruence.
      - split; [exact Hc|]. split; [split; [congruence|tauto]|].
        split; [congruence|]. auto. }
    destruct (create_page w) as [u|e1]; [destruct (close w) as [c|e2]|]; cbn [snd].
    + split; [discriminate|exact Hd].
    + split; [|discriminate]. intros e [= <-]. split; [reflexivity|eauto].
    + split; [discriminate|exact Hd].
  - specialize (Hr e0 eq_refl). clear Hv.
    assert (Hd : forall d,
              Value (failure ct_code (handled_message ct_code e0)) = Value d ->
              sd_ct_code d = Some ct_code /\
              (success d = true <-> shows_link w) /\
              (success d = true -> error_message d = None) /\
              (success d = false ->
               text d = None /\ href d = None /\ title d = None /\
               exists m, error_message d = Some m /\ m <> "")).
    { intros d [= <-]. cbn. split; [reflexivity|].
      split; [split; [discriminate|tauto]|]. split; [discriminate|].
      intros _. repeat split. eexists. split; [reflexivity|].
      apply handled_message_not_empty. }
    destruct (create_page w) as [u|e1]; [destruct (close w) as [c|e2]|]; cbn [snd].
    + split; [discriminate|exact Hd].
    + split; [|discriminate]. intros e [= <-]. split; [reflexivity|eauto].
    + split; [discriminate|exact Hd].
Qed.

End ScraperFacts.

Section ScraperBatch.

Import Scraper ScraperSpec.

Variable pages : nat -> page_world.

Lemma outcome_ct_code (w : page_world) (ct_code : string) (d : SchoolData) :
  outcome_of w ct_code = Value d -> sd_ct_code d = Some ct_code.
Proof.
  unfold outcome_of, scrape_school_data.
  pose proof (try_block_value w ct_code) as Hv.
  destruct (try_block w ct_code) as [logs [d0|e0]]; cbn [snd] in *.
  - destruct (Hv d0 eq_refl) as [Hc _].
    destruct (create_page w); [destruct (close w)|]; cbn [snd];
      intros [= <-]; exact Hc.
  - destruct (create_page w); [destruct (close w)|]; cbn [snd];
      intros [= <-]; reflexivity.
Qed.

Lemma sleeps_app (a b : list batch_event) :
  sleeps (a ++ b) = (sleeps a + sleeps b)%nat.
Proof. unfold sleeps. rewrite filter_app, length_app. reflexivity. Qed.

Lemma sleeps_logged (logs : list scraper_log) : sleeps (map Logged logs) = 0%nat.
Proof. induction logs; [reflexivity|assumption]. Qed.

Lemma sleeps_cons_logged (l : scraper_log) (events : list batch_event) :
  sleeps (Logged l :: events) = sleeps events.
Proof. reflexivity. Qed.

Lemma sleeps_slept : sleeps [Slept] = 1%nat.
Proof. reflexivity. Qed.

(** The loop from school [i] on. *)
Lemma visit_in_order (ct_codes : list string) (n i : nat) :
  (i + length ct_codes = S n)%nat ->
  let run := visit pages n i ct_codes in
  (forall ds,
     run.2 = Value ds ->
     length ds = length ct_codes /\
     (forall k c,
        ct_codes !! k = Some c ->
        exists d, ds !! k = Some d /\ outcome_of (pages (i + k)) c = Value d) /\
     sleeps run.1 = pred (length ct_codes)) /\
  (forall e,
     run.2 = Raise e ->
     exists k c,
       ct_codes !! k = Some c /\ outcome_of (pages (i + k)) c = Raise e /\
       sleeps run.1 = k).
Proof.
  revert i. induction ct_codes as [|code rest IH]; intros i Hi; cbn zeta.
  - cbn. split.
    + intros ds [= <-]. split; [reflexivity|]. split; [|reflexivity].
      intros k c H. discriminate.
    + discriminate.
  - cbn [visit]. cbn [length] in Hi.
    pose proof (eq_refl : outcome_of (pages i) code
                          = (scrape_school_data (pages i) code).2) as Ho.
    destruct (scrape_school_data (pages i) code) as [logs [d|e]]; cbn [snd] in Ho.
    + destruct (IH (S i) ltac:(lia)) as [IHv IHr]. cbn zeta in IHv, IHr.
      destruct (visit pages n (S i) rest) as [later [ds'|e']]; cbn [fst snd] in *.
      * split; [|discriminate]. intros ds [= <-].
        destruct (IHv ds' eq_refl) as (Hlen & Hk & Hs).
        split; [cbn; lia|]. split.
        -- intros [|k] c Hc; cbn in Hc.
           ++ injection Hc as <-. exists d. rewrite Nat.add_0_r. auto.
           ++ destruct (Hk k c Hc) as (d' & Hd' & Ho').
              exists d'. split; [exact Hd'|].
              replace (i + S k)%nat with (S i + k)%nat by lia. exact Ho'.
        -- rewrite sleeps_app, Hs.
           destruct (Nat.ltb_spec i n) as [Hlt|Hge].
           ++ rewrite sleeps_app, sleeps_cons_logged, sleeps_logged, sleeps_slept.
              cbn [length]. lia.
           ++ rewrite sleeps_cons_logged, sleeps_logged.
              cbn [length]. lia.
      * split; [discriminate|]. intros e [= <-].
        destruct (IHr e' eq_refl) as (k & c & Hc & Ho' & Hs).
        exists (S k), c. split; [exact Hc|]. split.
        -- replace (i + S k)%nat with (S i + k)%nat by lia. exact Ho'.
        -- rewrite sleeps_app, Hs.
           assert (k < length rest)%nat by (apply lookup_lt_is_Some; eauto).
           destruct (Nat.ltb_spec i n) as [Hlt|Hge]; [|lia].
           rewrite sleeps_app, sleeps_cons_logged, sleeps_logged, sleeps_slept.
           lia.
    + cbn [fst snd]. split; [discriminate|]. intros e' [= <-].
      exists 0%nat, code. split; [reflexivity|]. rewrite Nat.add_0_r.
      split; [exact Ho|].
      rewrite sleeps_cons_logged, sleeps_logged. reflexivity.
Qed.

(** X19. When [scrape_multiple_schools] returns, its list has one record
    per code, in order, the record of the [k]-th code being the one of its
    own visit and carrying that code, and the call slept once between two
    consecutive visits and not after the last; when it raises, it is with
    the exception of the first visit that raised, after as many sleeps as
    visits before it, and no record is returned. *)
Theorem scrape_multiple_schools_in_order (ct_codes : list string) :
  let run := scrape_multiple_schools pages ct_codes in
  (forall ds,
     run.2 = Value ds ->
     length ds = length ct_codes /\
     (forall k c,
        ct_codes !! k = Some c ->
        exists d,
          ds !! k = Some d /\ outcome_of (pages (S k)) c = Value d /\
          sd_ct_code d = Some c) /\
     sleeps run.1 = pred (length ct_codes)) /\
  (forall e,
     run.2 = Raise e ->
     exists k c,
       ct_codes !! k = Some c /\ outcome_of (pages (S k)) c = Raise e /\
       sleeps run.1 = k).
Proof.
  cbn zeta. unfold scrape_multiple_schools.
  destruct (visit_in_order ct_codes (length ct_codes) 1 eq_refl) as [Hv Hr].
  cbn zeta in Hv, Hr.
  destruct (visit pages (length ct_codes) 1 ct_codes) as [events [ds|e]];
    cbn [fst snd] in *.
  - split; [|discriminate]. intros ds' [= <-].
    destruct (Hv ds eq_refl) as (Hlen & Hk & Hs).
    split; [exact Hlen|]. split.
    + intros k c Hc. destruct (Hk k c Hc) as (d & Hd & Ho).
      exists d. split; [exact Hd|]. split; [exact Ho|].
      apply (outcome_ct_code _ _ _ Ho).
    + rewrite sleeps_app, !sleeps_cons_logged, Hs. cbn. lia.
  - split; [discriminate|]. intros e' [= <-].
    destruct (Hr e eq_refl) as (k & c & Hc & Ho & Hs).
    exists k, c. split; [exact Hc|]. split; [exact Ho|].
    rewrite sleeps_cons_logged. exact Hs.
Qed.

End ScraperBatch.

(** ** Error messages of several lines in the failure log *)

Section MultiLineErrors.

Import Files Persist Utils RetryFailed TextSpec.

Lemma ends_lines_append (content line : string) :
  ends_lines ((content +:+ line) +:+ eol).
Proof. right. eexists. reflexivity. Qed.

(** X20. An error message of two lines makes [save_failed_code] write two
    lines. [retry_failed_codes] then reads two codes from them, the code
    that failed and the stripped second line of the message, while
    [check_failed_codes] lists no entry for the failure, each of the two
    lines having two fields only. *)
Theorem multi_line_error_read_as_codes (config : ScraperConfig)
    (code e1 e2 stamp : string) (files : fs) :
  ends_lines (default "" (files !! failed_codes_file config)) ->
  one_line code -> one_line e1 -> one_line e2 -> one_line stamp ->
  Text.contains pipe code = false -> Text.contains pipe e1 = false ->
  Text.contains pipe e2 = false -> Text.contains pipe stamp = false ->
  let files' := save_failed_code code (e1 +:+ eol +:+ e2) config stamp files in
  (exists content,
     files' !! failed_codes_file config = Some content /\
     read_failed content
     = read_failed (default "" (files !! failed_codes_file config))
       ++ [Text.strip code; Text.strip e2]) /\
  check_failed_codes (failed_codes_file config) files'
  = check_failed_codes (failed_codes_file config) files.
Proof.
  intros Hends [Hc _] [H1 _] [H2 _] [Hs _] Hpc Hp1 Hp2 Hps. cbn zeta.
  set (old := default "" (files !! failed_codes_file config)) in *.
  set (l1 := code +:+ String pipe e1).
  set (l2 := e2 +:+ String pipe stamp).
  assert (Hfile : save_failed_code code (e1 +:+ eol +:+ e2) config stamp files
                  !! failed_codes_file config
                  = Some (((old +:+ l1) +:+ eol) +:+ l2 +:+ eol)).
  { unfold save_failed_code. rewrite lookup_append_eq. fold old. f_equal.
    unfold failed_line, l1, l2. rewrite !app_assoc_str. reflexivity. }
  assert (Hl1 : Text.contains Text.newline l1 = false).
  { unfold l1. rewrite contains_app, Hc. cbn. rewrite decide_False by discriminate.
    exact H1. }
  assert (Hl2 : Text.contains Text.newline l2 = false).
  { unfold l2. rewrite contains_app, H2. cbn. rewrite decide_False by discriminate.
    exact Hs. }
  assert (Hlines : Text.readlines (((old +:+ l1) +:+ eol) +:+ l2 +:+ eol)
                   = Text.readlines old ++ [l1 +:+ eol; l2 +:+ eol]).
  { rewrite readlines_append by (try apply ends_lines_append; assumption).
    rewrite (app_assoc_str old l1 eol), readlines_append by assumption.
    rewrite <- app_assoc. reflexivity. }
  split.
  - eexists. split; [exact Hfile|]. unfold read_failed.
    rewrite Hlines, omap_app. f_equal.
    change (omap ?f [?a; ?b])
      with (match f a with
            | Some y => y :: match f b with Some z => [z] | None => [] end
            | None => match f b with Some z => [z] | None => [] end
            end).
    cbv beta. unfold l1, l2. rewrite !app_assoc_str. cbn [String.append].
    rewrite !(not_blank pipe)
      by (try reflexivity; rewrite contains_app; cbn; apply orb_true_r).
    rewrite !split_sep by assumption. reflexivity.
  - unfold check_failed_codes at 1. rewrite Hfile, Hlines, omap_app.
    assert (Hnone : omap failed_entry [l1 +:+ eol; l2 +:+ eol] = []).
    { change (omap ?f [?a; ?b])
        with (match f a with
              | Some y => y :: match f b with Some z => [z] | None => [] end
              | None => match f b with Some z => [z] | None => [] end
              end).
      unfold failed_entry, l1, l2. rewrite !app_assoc_str. cbn [String.append].
      rewrite !(not_blank pipe)
        by (try reflexivity; rewrite contains_app; cbn; apply orb_true_r).
      rewrite !split_sep by assumption.
      rewrite !split_no_sep; [reflexivity| |].
      - rewrite contains_app, Hps. reflexivity.
      - rewrite contains_app, Hp1. reflexivity. }
    rewrite Hnone, app_nil_r. unfold check_failed_codes, old.
    destruct (files !! failed_codes_file config); reflexivity.
Qed.

End MultiLineErrors.

Lemma multi_line_error_read_as_codes_witness :
  exists content,
    Persist.save_failed_code "09DPR0004D"
      ("Timeout 10000ms exceeded." +:+ Files.eol +:+ "Call log:")
      default_config "2024-05-01T10:00:05.000000" ∅
      !! failed_codes_file default_config = Some content /\
    RetryFailed.read_failed content = ["09DPR0004D"; "Call log:"].
Proof.
  refine (proj1 (multi_line_error_read_as_codes default_config "09DPR0004D"
            "Timeout 10000ms exceeded." "Call log:"
            "2024-05-01T10:00:05.000000" ∅ _ _ _ _ _ _ _ _ _)).
  - left. reflexivity.
  - split; reflexivity.
  - split; reflexivity.
  - split; reflexivity.
  - split; reflexivity.
  - reflexivity.
  - reflexivity.
  - reflexivity.
  - reflexivity.
Defined.
